(** * Red Pitaya PYRPL ASG: timeline compiler, quantizers and mode transition

    A shallow embedding of [red_pitaya_pyrpl_asg.py] (the labscript device
    with its command methods and [generate_code]) and of [blacs_tabs.py]
    ([update_attributes] and [transition_to_manual]), followed by the
    properties of the specification that were checked against them.

    Numbers.  Python floats and numpy float64 values are modelled with exact
    rational arithmetic on their finite values: rounding to 53 bits and
    signed zeros are not part of the model.  The special values that numpy
    produces where plain Python raises (division by zero gives [inf] or
    [nan] with a warning) are kept, because [generate_code] reaches them
    for ordinary inputs (a timeline longer than [1/freq_increment]).
    Where the rounding decides the result, in the quantization of the
    frequency, the computation is modelled a second time on binary64
    floats (module [Double]). *)

From Stdlib Require Import String List Bool Arith ZArith QArith Qround Qabs Lia Lqa Sorted.
From Stdlib Require PrimFloat FloatOps SpecFloat.
Import ListNotations.

Set Implicit Arguments.
Set Warnings "-abstract-large-number".

(* ===================================================================== *)
(** ** Exceptions and the two monads of the embedding *)
(* ===================================================================== *)

(** The Python exceptions the modelled code can raise. *)
Inductive exn : Type :=
| LabscriptError (msg : string)
| Exception (msg : string)
| TypeError (msg : string)
| ZeroDivisionError
| ValueError
| IndexError
| OverflowError.

(** Pure, fallible computations: [inl e] is "raises e". *)
Definition result (A : Type) : Type := (exn + A)%type.

Definition rbind {A B} (c : result A) (k : A -> result B) : result B :=
  match c with
  | inl e => inl e
  | inr a => k a
  end.

(** Methods that mutate an object: the state reached when an exception is
    raised is kept, as in Python (nothing is rolled back). *)
Definition prog (S A : Type) : Type := S -> S * result A.

Definition ret {S A} (a : A) : prog S A := fun s => (s, inr a).
Definition raise {S A} (e : exn) : prog S A := fun s => (s, inl e).
Definition bind {S A B} (c : prog S A) (k : A -> prog S B) : prog S B :=
  fun s => match c s with
           | (s', inl e) => (s', inl e)
           | (s', inr a) => k a s'
           end.
Definition get {S} : prog S S := fun s => (s, inr s).
Definition modify {S} (f : S -> S) : prog S unit := fun s => (f s, inr tt).
Definition lift {S A} (r : result A) : prog S A := fun s => (s, r).

Declare Scope prog_scope.
Delimit Scope prog_scope with prog.
Notation "x <- c ;; k" := (bind c (fun x => k))
  (at level 100, c at next level, right associativity) : prog_scope.
Notation "c ;; k" := (bind c (fun _ => k))
  (at level 100, right associativity) : prog_scope.
Notation "'try' x := c 'in' k" := (rbind c (fun x => k))
  (at level 100, x pattern, c at next level, right associativity).

(* ===================================================================== *)
(** ** Numbers *)
(* ===================================================================== *)

Definition Qltb (a b : Q) : bool := negb (Qle_bool b a).

(** A numpy float64: a finite value or one of the IEEE special values. *)
Inductive float64 : Type :=
| Fin (q : Q)
| PInf
| NInf
| NaN.

(** A Python number as the code handles it: a Python [float], or a numpy
    scalar.  They differ on division by zero: Python raises, numpy warns
    and returns [inf] or [nan]. *)
Inductive num : Type :=
| PyF (q : Q)
| NpF (x : float64).

Definition signed_inf (positive : bool) : float64 :=
  if positive then PInf else NInf.

Definition fneg (x : float64) : float64 :=
  match x with
  | Fin q => Fin (- q)
  | PInf => NInf
  | NInf => PInf
  | NaN => NaN
  end.

Definition fadd (x y : float64) : float64 :=
  match x, y with
  | Fin a, Fin b => Fin (a + b)
  | NaN, _ | _, NaN => NaN
  | PInf, NInf | NInf, PInf => NaN
  | PInf, _ | _, PInf => PInf
  | NInf, _ | _, NInf => NInf
  end.

Definition fsub (x y : float64) : float64 := fadd x (fneg y).

Definition fmul (x y : float64) : float64 :=
  match x, y with
  | Fin a, Fin b => Fin (a * b)
  | NaN, _ | _, NaN => NaN
  | PInf, Fin b | Fin b, PInf =>
      if Qeq_bool b 0 then NaN else signed_inf (Qltb 0 b)
  | NInf, Fin b | Fin b, NInf =>
      if Qeq_bool b 0 then NaN else signed_inf (Qltb b 0)
  | PInf, PInf | NInf, NInf => PInf
  | PInf, NInf | NInf, PInf => NInf
  end.

Definition fdiv (x y : float64) : float64 :=
  match x, y with
  | Fin a, Fin b =>
      if Qeq_bool b 0
      then (if Qeq_bool a 0 then NaN else signed_inf (Qltb 0 a))
      else Fin (a / b)
  | NaN, _ | _, NaN => NaN
  | Fin _, (PInf | NInf) => Fin 0
  | PInf, Fin b => signed_inf (Qle_bool 0 b)
  | NInf, Fin b => signed_inf (Qltb b 0)
  | (PInf | NInf), (PInf | NInf) => NaN
  end.

Definition fabs (x : float64) : float64 :=
  match x with
  | Fin q => Fin (Qabs q)
  | PInf | NInf => PInf
  | NaN => NaN
  end.

(** [np.floor] *)
Definition np_floor (x : float64) : float64 :=
  match x with
  | Fin q => Fin (inject_Z (Qfloor q))
  | other => other
  end.

(** [x < y] on float64: false as soon as one side is [nan]. *)
Definition fltb (x y : float64) : bool :=
  match x, y with
  | NaN, _ | _, NaN => false
  | Fin a, Fin b => Qltb a b
  | NInf, (Fin _ | PInf) => true
  | Fin _, PInf => true
  | _, _ => false
  end.

(** [x == y] on float64: false as soon as one side is [nan]. *)
Definition feqb (x y : float64) : bool :=
  match x, y with
  | Fin a, Fin b => Qeq_bool a b
  | PInf, PInf | NInf, NInf => true
  | _, _ => false
  end.

Definition is_nan (x : float64) : bool :=
  match x with NaN => true | _ => false end.

(** Equality of float64 values as numbers ([==] of [Q] on finite values). *)
Definition feq (x y : float64) : Prop :=
  match x, y with
  | Fin a, Fin b => a == b
  | PInf, PInf | NInf, NInf | NaN, NaN => True
  | _, _ => False
  end.


Definition to_np (n : num) : float64 :=
  match n with
  | PyF q => Fin q
  | NpF x => x
  end.

Definition num_add (a b : num) : num :=
  match a, b with
  | PyF x, PyF y => PyF (x + y)
  | _, _ => NpF (fadd (to_np a) (to_np b))
  end.

Definition num_sub (a b : num) : num :=
  match a, b with
  | PyF x, PyF y => PyF (x - y)
  | _, _ => NpF (fsub (to_np a) (to_np b))
  end.

Definition num_mul (a b : num) : num :=
  match a, b with
  | PyF x, PyF y => PyF (x * y)
  | _, _ => NpF (fmul (to_np a) (to_np b))
  end.

(** [a / b]: [ZeroDivisionError] between Python floats, a special value as
    soon as one operand is a numpy scalar. *)
Definition num_div (a b : num) : result num :=
  match a, b with
  | PyF x, PyF y =>
      if Qeq_bool y 0 then inl ZeroDivisionError else inr (PyF (x / y))
  | _, _ => inr (NpF (fdiv (to_np a) (to_np b)))
  end.

(** [n == 0] *)
Definition num_is_zero (n : num) : bool := feqb (to_np n) (Fin 0).

(* ===================================================================== *)
(** ** The labscript device: commands and the methods that append them *)
(* ===================================================================== *)

(** One entry of [self.commands].  The source stores a dict whose ['name']
    key selects the variant; every variant has ['t'] and ['duration'].
    The values are the Python floats the shot file passes in. *)
Inductive command : Type :=
| power_ramp_cmd (t duration time_const init_volt final_volt ratio_trap_temp : Q)
| linear_ramp_cmd (t duration init_volt final_volt : Q)
| constant_cmd (t duration volt : Q)
| sine_cmd (t duration frequency amplitude offset : Q).

Definition cmd_t (c : command) : Q :=
  match c with
  | power_ramp_cmd t _ _ _ _ _ => t
  | linear_ramp_cmd t _ _ _ => t
  | constant_cmd t _ _ => t
  | sine_cmd t _ _ _ _ => t
  end.

Definition cmd_duration (c : command) : Q :=
  match c with
  | power_ramp_cmd _ d _ _ _ _ => d
  | linear_ramp_cmd _ d _ _ => d
  | constant_cmd _ d _ => d
  | sine_cmd _ d _ _ _ => d
  end.

(** The device object.  [parent_triggers] stands for the trigger
    instructions received by [self.trigger_device], the parent that
    [trigger] calls into: each entry is a pair (time, trig_duration). *)
Record device : Type := {
  name : string;
  trig_duration : option Q;
  commands : list command;
  parent_triggers : list (Q * option Q)
}.

Definition set_commands (cs : list command) (self : device) : device :=
  {| name := name self; trig_duration := trig_duration self;
     commands := cs; parent_triggers := parent_triggers self |}.

Definition set_parent_triggers (ts : list (Q * option Q)) (self : device) : device :=
  {| name := name self; trig_duration := trig_duration self;
     commands := commands self; parent_triggers := ts |}.

Definition is_empty {A} (l : list A) : bool :=
  match l with [] => true | _ => false end.

Local Open Scope string_scope.
Local Open Scope prog_scope.

(** [self.trigger_device.trigger(t, self.trig_duration)] *)
Definition trigger (t : Q) : prog device unit :=
  modify (fun self =>
    set_parent_triggers (parent_triggers self ++ [(t, trig_duration self)]) self).

(** [self.commands.append(c)] *)
Definition append_command (c : command) : prog device unit :=
  modify (fun self => set_commands (commands self ++ [c]) self).

(** "insert trigger if this is the first command" *)
Definition trigger_if_first (t : Q) : prog device unit :=
  self <- get ;;
  if is_empty (commands self) then trigger t else ret tt.

Definition power_ramp (t duration time_const init_volt final_volt ratio_trap_temp : Q)
  : prog device unit :=
  trigger_if_first t ;;
  self <- get ;;
  if Qltb time_const duration then
    raise (LabscriptError (name self ++ ": 'power_ramp' requires time_const > duration."))
  else if Qle_bool init_volt final_volt then
    raise (LabscriptError (name self ++ ": 'power_ramp' requires final_volt < init_volt."))
  else
    append_command
      (power_ramp_cmd t duration time_const init_volt final_volt ratio_trap_temp).

Definition linear_ramp (t duration init_volt final_volt : Q) : prog device unit :=
  trigger_if_first t ;;
  append_command (linear_ramp_cmd t duration init_volt final_volt).

Definition constant (t duration volt : Q) : prog device unit :=
  trigger_if_first t ;;
  append_command (constant_cmd t duration volt).

Definition sine (t duration freq amplitude offset : Q) : prog device unit :=
  trigger_if_first t ;;
  append_command (sine_cmd t duration freq amplitude offset).

(** A device as [__init__] leaves it: no command, parent not yet triggered. *)
Definition new_device (nm : string) (trig : option Q) : device :=
  {| name := nm; trig_duration := trig; commands := []; parent_triggers := [] |}.


(* ===================================================================== *)
(** ** Python and numpy helpers used by [generate_code] *)
(* ===================================================================== *)

Local Close Scope string_scope.

(** [l[i]] for a non-negative index. *)
Definition getitem {A} (l : list A) (i : nat) : result A :=
  match nth_error l i with
  | Some a => inr a
  | None => inl IndexError
  end.

(** [l[-1]] *)
Definition getlast {A} (l : list A) : result A :=
  match l with
  | [] => inl IndexError
  | _ => getitem l (length l - 1)
  end.

(** [l[i] = v] for an index in range (nothing else is ever used). *)
Fixpoint setitem {A} (i : nat) (v : A) (l : list A) : list A :=
  match l, i with
  | [], _ => []
  | _ :: rest, O => v :: rest
  | a :: rest, S j => a :: setitem j v rest
  end.

(** [np.diff(a)]: [out[i] = a[i+1] - a[i]], a float64 array. *)
Fixpoint np_diff (a : list Q) : list float64 :=
  match a with
  | x :: (y :: _) as rest => Fin (y - x) :: np_diff rest
  | _ => []
  end.

(** [min(l)] and [max(l)] of a non-empty list of floats. *)
Definition py_min (l : list Q) : result Q :=
  match l with
  | [] => inl ValueError
  | x :: rest => inr (fold_left (fun m y => if Qltb y m then y else m) rest x)
  end.

Definition py_max (l : list Q) : result Q :=
  match l with
  | [] => inl ValueError
  | x :: rest => inr (fold_left (fun m y => if Qltb m y then y else m) rest x)
  end.

(** [l.index(v)]: position of the first element equal to [v]. *)
Fixpoint py_index (l : list Q) (v : Q) : result nat :=
  match l with
  | [] => inl ValueError
  | x :: rest =>
      if Qeq_bool x v then inr O
      else try i := py_index rest v in inr (S i)
  end.

(** [np.arange(0, num)] as floats: [0., 1., ..., num - 1]. *)
Fixpoint arange_from (k : Z) (n : nat) : list float64 :=
  match n with
  | O => []
  | S m => Fin (inject_Z k) :: arange_from (k + 1) m
  end.

Definition np_arange (num : Z) : list float64 := arange_from 0 (Z.to_nat num).

(** [np.linspace(start, stop, num)] with [endpoint=True], following the
    numpy implementation: [arange(0, num) * step + start], the last element
    then overwritten with [stop]. *)
Definition np_linspace (start stop : float64) (num : Z) : result (list float64) :=
  if (num <? 0)%Z then inl ValueError
  else
    let div := Fin (inject_Z (num - 1)) in
    let y := np_arange num in
    let delta := fsub stop start in
    let y :=
      if (1 <? num)%Z then
        let step := fdiv delta div in
        if feqb step (Fin 0)
        then map (fun v => fmul (fdiv v div) delta) y
        else map (fun v => fmul v step) y
      else map (fun v => fmul v delta) y in
    let y := map (fun v => fadd v start) y in
    inr (if (1 <? num)%Z then setitem (Z.to_nat num - 1) stop y else y).

(** [a.argmin()]: the scan of numpy; a [nan] stops it and wins, otherwise
    the first occurrence of the minimum does. *)
Fixpoint argmin_scan (mp : float64) (min_ind i : nat) (ip : list float64) : nat :=
  match ip with
  | [] => min_ind
  | v :: rest =>
      if is_nan mp then min_ind
      else if fltb mp v || feqb mp v      (* v >= mp *)
           then argmin_scan mp min_ind (S i) rest
           else argmin_scan v i (S i) rest
  end.

Definition np_argmin (a : list float64) : result nat :=
  match a with
  | [] => inl ValueError
  | v :: rest => inr (argmin_scan v 0 1 rest)
  end.

(** [buf[a:b] = vals] on a numpy array, for non-negative [a] and [b]: the
    slice is clipped to the array, the array never changes length, a single
    value is broadcast, any other length mismatch raises. *)
Definition np_setslice (buf : list float64) (a b : nat) (vals : list float64)
  : result (list float64) :=
  let a' := Nat.min a (length buf) in
  let b' := Nat.max a' (Nat.min b (length buf)) in
  if length vals =? b' - a' then
    inr (firstn a' buf ++ vals ++ skipn b' buf)
  else if length vals =? 1 then
    inr (firstn a' buf ++ repeat (hd NaN vals) (b' - a') ++ skipn b' buf)
  else inl ValueError.

Definition is_integer (q : Q) : bool := Qeq_bool (inject_Z (Qfloor q)) q.

(* ===================================================================== *)
(** ** [generate_code]: from the command list to the compiled artifact *)
(* ===================================================================== *)

(** "frequency increment from PYRPL": [1.16415e-1] *)
Definition freq_increment : Q := 116415 # 1000000.

(** "PYRPL expects exactly 2**14 data points" *)
Definition n_points : nat := 2 ^ 14.

(** What [generate_code] stores in the device group of the shot file. *)
Record artifact : Type := {
  total_duration : num;
  out_values : list float64
}.

(** The parts of [generate_code] that follow duration resolution; the
    state of [generate_code] records which of them have been entered. *)
Inductive stage : Type :=
| Quantization
| Synthesis
| Storage.

Definition enter (st : stage) : prog (list stage) unit :=
  modify (fun reached => reached ++ [st]).

Definition times_of (cs : list command) : list Q := map cmd_t cs.

Definition durations_of (cs : list command) : list num :=
  map (fun c => PyF (cmd_duration c)) cs.

(** [[i for i, dur in enumerate(durations) if dur == 0]] *)
Definition zero_dur (durations : list num) : list nat :=
  map fst (filter (fun p => num_is_zero (snd p))
                  (combine (seq 0 (length durations)) durations)).

(** [for i in zero_dur: durations[i] = time_diffs[i]] *)
Fixpoint fill_zero_durations (zs : list nat) (time_diffs : list float64)
    (durations : list num) : result (list num) :=
  match zs with
  | [] => inr durations
  | i :: rest =>
      try d := getitem time_diffs i in
      fill_zero_durations rest time_diffs (setitem i (NpF d) durations)
  end.

(** Duration resolution: the check of the last duration and the
    replacement of the zero durations. *)
Definition resolve_durations (self_name : string) (times : list Q)
    (durations : list num) : result (list num) :=
  let time_diffs := np_diff times in
  try final := getlast durations in
  if num_is_zero final then
    inl (LabscriptError (self_name ++ ": Last command needs fixed duration"))
  else
    fill_zero_durations (zero_dur durations) time_diffs durations.

(** [t_init] and [total_duration = t_final - t_init]. *)
Definition total_span (times : list Q) (durations : list num) : result (Q * num) :=
  try t_init := py_min times in
  try t_max := py_max times in
  try i := py_index times t_max in
  try d := getitem durations i in
  let t_final := num_add (PyF t_max) d in
  inr (t_init, num_sub t_final (PyF t_init)).

(** "round down frequency to multiple of freq_increment and set total
    duration to rounded value": returns [(rounded_freq, total_duration)]. *)
Definition quantize_span (total_duration : num) : result (num * num) :=
  try frequency := num_div (PyF 1) total_duration in
  try ratio := num_div frequency (PyF freq_increment) in
  let rounded_freq := num_mul (NpF (np_floor (to_np ratio))) (PyF freq_increment) in
  try total_duration' := num_div (PyF 1) rounded_freq in
  inr (rounded_freq, total_duration').

(** [(np.abs(ts - x)).argmin()] *)
Definition nearest_index (ts : list float64) (x : num) : result nat :=
  np_argmin (map (fun v => fabs (fsub v (to_np x))) ts).

(** [t_init_idx] and [t_end_idx] of command [i]. *)
Definition command_range (ts : list float64) (times : list Q)
    (durations : list num) (t_init : Q) (i : nat) : result (nat * nat) :=
  try t_i := getitem times i in
  try d_i := getitem durations i in
  try t_init_idx := nearest_index ts (PyF (t_i - t_init)) in
  try t_end_idx :=
    nearest_index ts (num_sub (num_add d_i (PyF t_i)) (PyF t_init)) in
  inr (t_init_idx, t_end_idx).

Section Synthesis.

(** The transcendental functions of numpy, and the float [np.pi]. *)
Variable np_power : float64 -> float64 -> float64.
Variable np_sin : float64 -> float64.
Variable np_pi : Q.

(** [b ** e] between Python 2.7 floats. *)
Definition float_pow (b e : Q) : result num :=
  if Qeq_bool b 0 && Qltb e 0 then inl ZeroDivisionError
  else if Qltb b 0 && negb (is_integer e) then inl ValueError
  else match np_power (Fin b) (Fin e) with
       | Fin r => inr (PyF r)
       | _ => inl OverflowError
       end.

Definition num_pow (a e : num) : result num :=
  match a, e with
  | PyF b, PyF x => float_pow b x
  | _, _ => inr (NpF (np_power (to_np a) (to_np e)))
  end.

(** The samples of one command over its [steps]; [d_i] is the resolved
    [durations[i]]. *)
Definition waveform (c : command) (d_i : num) (steps : list float64)
  : result (list float64) :=
  match c with
  | linear_ramp_cmd _ _ init_volt final_volt =>
      inr (map (fun s => fadd (fmul (Fin (final_volt - init_volt)) s)
                              (Fin init_volt)) steps)
  | power_ramp_cmd _ _ time_const init_volt final_volt r =>
      try r1 := num_div (PyF (r - 5)) (PyF (r - 4)) in
      let ratio_trap_temp := num_add (PyF r) r1 in
      try ramp_exp :=
        num_div (num_mul (PyF 2) (num_sub ratio_trap_temp (PyF 3)))
                (num_sub ratio_trap_temp (PyF 6)) in
      try q := num_div d_i (PyF time_const) in
      try coeff := num_pow (num_sub (PyF 1) q) ramp_exp in
      try coeff2 :=
        num_div (num_sub (num_mul (PyF init_volt) coeff) (PyF final_volt))
                (num_sub coeff (PyF 1)) in
      inr (map (fun s =>
                  fadd (fmul (to_np (num_sub (PyF init_volt) coeff2))
                             (np_power
                                (fsub (Fin 1)
                                      (fdiv (fmul s (to_np d_i)) (Fin time_const)))
                                (to_np ramp_exp)))
                       (to_np coeff2)) steps)
  | constant_cmd _ _ volt => inr (repeat (Fin volt) (length steps))
  | sine_cmd _ duration frequency amplitude offset =>
      inr (map (fun s =>
                  fadd (fmul (np_sin (fmul (Fin (2 * np_pi * frequency * duration)) s))
                             (Fin amplitude))
                       (Fin offset)) steps)
  end.

(** One iteration of the loop over [enumerate(self.commands)]. *)
Definition synth_command (ts : list float64) (times : list Q)
    (durations : list num) (t_init : Q) (i : nat) (c : command)
    (out_values : list float64) : result (list float64) :=
  try range := command_range ts times durations t_init i in
  let '(t_init_idx, t_end_idx) := range in
  try steps :=
    np_linspace (Fin 0) (Fin 1) (Z.of_nat t_end_idx - Z.of_nat t_init_idx) in
  try d_i := getitem durations i in
  try out := waveform c d_i steps in
  np_setslice out_values t_init_idx t_end_idx out.

Fixpoint synth_loop (ts : list float64) (times : list Q)
    (durations : list num) (t_init : Q) (i : nat) (cs : list command)
    (out_values : list float64) : result (list float64) :=
  match cs with
  | [] => inr out_values
  | c :: rest =>
      try out_values' := synth_command ts times durations t_init i c out_values in
      synth_loop ts times durations t_init (S i) rest out_values'
  end.

(** [generate_code(self, hdf5_file)].  The value returned is what the
    call leaves in the device group: nothing for an empty command list,
    else the two datasets. *)
Definition generate_code (self : device) : prog (list stage) (option artifact) :=
  if is_empty (commands self) then ret None
  else
    let times := times_of (commands self) in
    durations <-
      lift (resolve_durations (name self) times (durations_of (commands self))) ;;
    span <- lift (total_span times durations) ;;
    enter Quantization ;;
    freq <- lift (quantize_span (snd span)) ;;
    enter Synthesis ;;
    ts <- lift (np_linspace (Fin 0) (to_np (snd freq)) (Z.of_nat n_points)) ;;
    out <- lift (synth_loop ts times durations (fst span) 0 (commands self)
                            (repeat (Fin 0) n_points)) ;;
    enter Storage ;;
    ret (Some {| total_duration := snd freq; out_values := out |}).

End Synthesis.

(* ===================================================================== *)
(** ** The BLACS tab: [update_attributes] and [transition_to_manual] *)
(* ===================================================================== *)

Inductive mode : Type :=
| MODE_MANUAL
| MODE_TRANSITION_TO_MANUAL
| MODE_BUFFERED.

(** The dict the primary worker returns with its success flag. *)
Record attr_dict : Type := {
  attr_waveform : string;
  attr_frequency : Q;
  attr_amplitude : Q;
  attr_offset : Q
}.

(** The value [update_attributes] sends to the worker: the waveform name,
    or a quantized number. *)
Inductive attr_value : Type :=
| AttrText (s : string)
| AttrNumber (q : Q).

(** A request handed to a worker process with [queue_work]. *)
Record work_request : Type := {
  req_worker : string;
  req_function : string;
  req_args : list attr_value
}.

(** The tab object: its mode, the widgets of the front panel, the workers
    it talks to, and the two queues it writes to ([work_requests] for the
    [queue_work] calls it yields, [notify_queue] for the queue passed to
    [transition_to_manual]).  A spin box holds the number last given to
    [setValue]; the rounding Qt applies for display is not modelled. *)
Record tab : Type := {
  device_name : string;
  tab_mode : mode;
  waveform0_box : string;
  amplitude0_spinbox : Q;
  offset0_spinbox : Q;
  frequency0_spinbox : Q;
  primary_worker : string;
  secondary_workers : list string;
  final_values : list (string * Q);
  AO : list (string * Q);
  DO : list (string * Q);
  image : list (string * Q);
  DDS : list (string * Q);
  last_programmed_values : list (string * Q);
  program_device_calls : nat;
  work_requests : list work_request;
  notify_queue : list (string * string)
}.

Definition set_mode (m : mode) (self : tab) : tab :=
  {| device_name := device_name self; tab_mode := m;
     waveform0_box := waveform0_box self;
     amplitude0_spinbox := amplitude0_spinbox self;
     offset0_spinbox := offset0_spinbox self;
     frequency0_spinbox := frequency0_spinbox self;
     primary_worker := primary_worker self;
     secondary_workers := secondary_workers self;
     final_values := final_values self;
     AO := AO self; DO := DO self; image := image self; DDS := DDS self;
     last_programmed_values := last_programmed_values self;
     program_device_calls := program_device_calls self;
     work_requests := work_requests self;
     notify_queue := notify_queue self |}.

(** The four widgets of the generator, set together. *)
Definition set_ui (w : string) (a o f : Q) (self : tab) : tab :=
  {| device_name := device_name self; tab_mode := tab_mode self;
     waveform0_box := w;
     amplitude0_spinbox := a;
     offset0_spinbox := o;
     frequency0_spinbox := f;
     primary_worker := primary_worker self;
     secondary_workers := secondary_workers self;
     final_values := final_values self;
     AO := AO self; DO := DO self; image := image self; DDS := DDS self;
     last_programmed_values := last_programmed_values self;
     program_device_calls := program_device_calls self;
     work_requests := work_requests self;
     notify_queue := notify_queue self |}.

Definition set_outputs (ao do_ im dds : list (string * Q)) (self : tab) : tab :=
  {| device_name := device_name self; tab_mode := tab_mode self;
     waveform0_box := waveform0_box self;
     amplitude0_spinbox := amplitude0_spinbox self;
     offset0_spinbox := offset0_spinbox self;
     frequency0_spinbox := frequency0_spinbox self;
     primary_worker := primary_worker self;
     secondary_workers := secondary_workers self;
     final_values := final_values self;
     AO := ao; DO := do_; image := im; DDS := dds;
     last_programmed_values := last_programmed_values self;
     program_device_calls := program_device_calls self;
     work_requests := work_requests self;
     notify_queue := notify_queue self |}.

Definition set_programmed (vals : list (string * Q)) (calls : nat) (self : tab) : tab :=
  {| device_name := device_name self; tab_mode := tab_mode self;
     waveform0_box := waveform0_box self;
     amplitude0_spinbox := amplitude0_spinbox self;
     offset0_spinbox := offset0_spinbox self;
     frequency0_spinbox := frequency0_spinbox self;
     primary_worker := primary_worker self;
     secondary_workers := secondary_workers self;
     final_values := final_values self;
     AO := AO self; DO := DO self; image := image self; DDS := DDS self;
     last_programmed_values := vals;
     program_device_calls := calls;
     work_requests := work_requests self;
     notify_queue := notify_queue self |}.

Definition set_work_requests (reqs : list work_request) (self : tab) : tab :=
  {| device_name := device_name self; tab_mode := tab_mode self;
     waveform0_box := waveform0_box self;
     amplitude0_spinbox := amplitude0_spinbox self;
     offset0_spinbox := offset0_spinbox self;
     frequency0_spinbox := frequency0_spinbox self;
     primary_worker := primary_worker self;
     secondary_workers := secondary_workers self;
     final_values := final_values self;
     AO := AO self; DO := DO self; image := image self; DDS := DDS self;
     last_programmed_values := last_programmed_values self;
     program_device_calls := program_device_calls self;
     work_requests := reqs;
     notify_queue := notify_queue self |}.

Definition set_notify_queue (q : list (string * string)) (self : tab) : tab :=
  {| device_name := device_name self; tab_mode := tab_mode self;
     waveform0_box := waveform0_box self;
     amplitude0_spinbox := amplitude0_spinbox self;
     offset0_spinbox := offset0_spinbox self;
     frequency0_spinbox := frequency0_spinbox self;
     primary_worker := primary_worker self;
     secondary_workers := secondary_workers self;
     final_values := final_values self;
     AO := AO self; DO := DO self; image := image self; DDS := DDS self;
     last_programmed_values := last_programmed_values self;
     program_device_calls := program_device_calls self;
     work_requests := work_requests self;
     notify_queue := q |}.

(** [yield(self.queue_work(worker, function, *args))]: the request goes to
    the worker; what the worker answers is given by the caller of the
    model. *)
Definition queue_work (worker function : string) (args : list attr_value)
  : prog tab unit :=
  modify (fun self =>
    set_work_requests
      (work_requests self
       ++ [{| req_worker := worker; req_function := function; req_args := args |}])
      self).

(** [notify_queue.put([self.device_name, status])] *)
Definition notify (status : string) : prog tab unit :=
  modify (fun self =>
    set_notify_queue (notify_queue self ++ [(device_name self, status)]) self).

(** Python 3 [round(x)] of a float: the nearest integer, ties to even. *)
Definition py_round (x : Q) : Z :=
  let f := Qfloor x in
  match (x - inject_Z f ?= 1 # 2)%Q with
  | Lt => f
  | Gt => (f + 1)%Z
  | Eq => if Z.even f then f else (f + 1)%Z
  end.

(** [step * round(attr_value_check / step)] *)
Definition nearest_multiple (step x : Q) : Q :=
  (step * inject_Z (py_round (x / step)))%Q.

(** "only allow multiples of stepsize ... given in PYRPL" *)
Definition amplitude_step : Q := (12207 # 100000000)%Q.   (* 1.22070e-4 *)
Definition offset_step : Q := (12207 # 100000000)%Q.      (* 1.22070e-4 *)
Definition frequency_step : Q := (116415 # 1000000)%Q.    (* 1.16415e-1 *)

Definition update_attributes (which_attr : string) : prog tab unit :=
  self <- get ;;
  attr_value <-
    (if String.eqb which_attr "waveform" then
       ret (AttrText (waveform0_box self))
     else if String.eqb which_attr "amplitude" then
       let attr_value := nearest_multiple amplitude_step (amplitude0_spinbox self) in
       modify (set_ui (waveform0_box self) attr_value
                      (offset0_spinbox self) (frequency0_spinbox self)) ;;
       ret (AttrNumber attr_value)
     else if String.eqb which_attr "offset" then
       let attr_value := nearest_multiple offset_step (offset0_spinbox self) in
       modify (set_ui (waveform0_box self) (amplitude0_spinbox self)
                      attr_value (frequency0_spinbox self)) ;;
       ret (AttrNumber attr_value)
     else if String.eqb which_attr "frequency" then
       let attr_value := nearest_multiple frequency_step (frequency0_spinbox self) in
       modify (set_ui (waveform0_box self) (amplitude0_spinbox self)
                      (offset0_spinbox self) attr_value) ;;
       ret (AttrNumber attr_value)
     else
       raise (TypeError
                "'which_attr' has to be one of the following:'waveform', 'amplitude','offset', 'frequency'")) ;;
  queue_work (primary_worker self) "update_asg" [attr_value; AttrText which_attr].

(** [widgets[channel].set_value(value, program=False)] on one of the
    dicts [_AO], [_DO], [_image], [_DDS]. *)
Fixpoint set_value (channel : string) (value : Q) (widgets : list (string * Q))
  : list (string * Q) :=
  match widgets with
  | [] => []
  | (ch, v) :: rest =>
      if String.eqb ch channel then (ch, value) :: rest
      else (ch, v) :: set_value channel value rest
  end.

Definition has_channel (channel : string) (widgets : list (string * Q)) : bool :=
  existsb (fun w => String.eqb (fst w) channel) widgets.

(** "Update the GUI with the final values of the run" *)
Definition show_final_value (self : tab) (item : string * Q) : tab :=
  let '(channel, value) := item in
  if has_channel channel (AO self) then
    set_outputs (set_value channel value (AO self)) (DO self) (image self) (DDS self) self
  else if has_channel channel (DO self) then
    set_outputs (AO self) (set_value channel value (DO self)) (image self) (DDS self) self
  else if has_channel channel (image self) then
    set_outputs (AO self) (DO self) (set_value channel value (image self)) (DDS self) self
  else if has_channel channel (DDS self) then
    set_outputs (AO self) (DO self) (image self) (set_value channel value (DDS self)) self
  else self.

Definition show_final_values : prog tab unit :=
  modify (fun self => fold_left show_final_value (final_values self) self).

(** [self.get_front_panel_values()] *)
Definition get_front_panel_values (self : tab) : list (string * Q) :=
  AO self ++ DO self ++ image self ++ DDS self.

Section Workers.

(** What the worker processes answer to ['transition_to_manual']: the
    primary one a pair [(success, attr_dict)], a secondary one its success
    flag. *)
Variable primary_reply : bool * attr_dict.
Variable secondary_reply : string -> bool.

(** [for worker in self._secondary_workers: ...], with the running value
    of [success]. *)
Fixpoint reset_secondary_workers (workers : list string) (success : bool)
  : prog tab bool :=
  match workers with
  | [] => ret success
  | worker :: rest =>
      queue_work worker "transition_to_manual" [] ;;
      let transition_success := secondary_reply worker in
      reset_secondary_workers rest
        (if negb transition_success then false else success)
  end.

Definition transition_to_manual (program : bool) : prog tab unit :=
  modify (set_mode MODE_TRANSITION_TO_MANUAL) ;;
  self <- get ;;
  queue_work (primary_worker self) "transition_to_manual" [] ;;
  let '(success, attr_dict) := primary_reply in
  modify (set_ui (attr_waveform attr_dict) (attr_amplitude attr_dict)
                 (attr_offset attr_dict) (attr_frequency attr_dict)) ;;
  success <- reset_secondary_workers (secondary_workers self) success ;;
  show_final_values ;;
  (if success then
     notify "success" ;;
     modify (set_mode MODE_MANUAL)
   else
     notify "fail" ;;
     raise (Exception
              "Could not transition to manual. You must restart this device to continue")) ;;
  if program then
    modify (fun self =>
      set_programmed (last_programmed_values self)
                     (S (program_device_calls self)) self)
  else
    modify (fun self =>
      set_programmed (get_front_panel_values self)
                     (program_device_calls self) self).

End Workers.

(* ===================================================================== *)
(** ** Definitions used to state the properties *)
(* ===================================================================== *)

(** The exceptions raised by Python and numpy themselves, as opposed to the
    ones the device code raises on purpose. *)
Definition builtin_exn (e : exn) : Prop :=
  match e with
  | LabscriptError _ | Exception _ | TypeError _ => False
  | _ => True
  end.

(** The sample range [[t_init_idx, t_end_idx)] that [generate_code]
    computes for command [j] of the device: the stages up to the sample
    grid, then the two nearest-sample searches. *)
Definition sample_range (self : device) (j : nat) : result (nat * nat) :=
  let times := times_of (commands self) in
  try ds := resolve_durations (name self) times (durations_of (commands self)) in
  try span := total_span times ds in
  try freq := quantize_span (snd span) in
  try ts := np_linspace (Fin 0) (to_np (snd freq)) (Z.of_nat n_points) in
  command_range ts times ds (fst span) j.

(** The request [queue_work(worker, 'transition_to_manual')]. *)
Definition reset_request (worker : string) : work_request :=
  {| req_worker := worker; req_function := "transition_to_manual";
     req_args := [] |}.

(** The three spin boxes that [update_attributes] quantizes. *)
Definition spinboxes (self : tab) : Q * Q * Q :=
  (amplitude0_spinbox self, offset0_spinbox self, frequency0_spinbox self).

(** The timeline of the specification's scenario: a hold with duration 0
    followed, half a second later, by a linear ramp. *)
Definition scenario_commands : list command :=
  [constant_cmd 0 0 (1 # 2); linear_ramp_cmd (1 # 2) (1 # 2) (1 # 2) (1 # 10)].

(** The scenario has neither a power ramp nor a sine, so any functions can
    stand for numpy's power and sine when it is run. *)
Definition no_power (_ _ : float64) : float64 := Fin 1.
Definition no_sin (_ : float64) : float64 := Fin 0.
Definition pi_approx : Q := 355 # 113.

Definition scenario_device : device :=
  {| name := "rp"; trig_duration := None; commands := scenario_commands;
     parent_triggers := [(0, None)] |}.

(** What [generate_code] stores for the scenario. *)
Definition scenario_artifact : artifact :=
  match snd (generate_code no_power no_sin pi_approx scenario_device []) with
  | inr (Some art) => art
  | _ => {| total_duration := PyF 0; out_values := [] |}
  end.

(* ===================================================================== *)
(** ** Quantization in double precision *)
(* ===================================================================== *)

(** The quantization of [generate_code] once more, on binary64 floats with
    the rounding of every operation, for the inputs where rounding decides
    the result.  [np.floor] and the exact value of a double are computed
    from the sign, mantissa and exponent of the double. *)
Set Warnings "-inexact-float".

Module Double.

Import PrimFloat FloatOps SpecFloat.

(** The rational number a finite double stands for. *)
Definition value (x : float) : option Q :=
  match Prim2SF x with
  | S754_zero _ => Some 0%Q
  | S754_finite s m e =>
      Some (inject_Z (if s then Z.neg m else Z.pos m) * Qpower 2 e)%Q
  | _ => None
  end.

(** [np.floor] *)
Definition np_floor (x : float) : float :=
  match Prim2SF x with
  | S754_finite s m e =>
      if (0 <=? e)%Z then x
      else
        match Z.shiftr (if s then Z.neg m else Z.pos m) (- e) with
        | Z0 => zero
        | Zpos p => SF2Prim (S754_finite false p 0)
        | Zneg p => SF2Prim (S754_finite true p 0)
        end
  | _ => x
  end.

Definition freq_increment : float := 1.16415e-1%float.

(** [frequency = 1/total_duration] (a Python float: division by zero
    raises), [rounded_freq = np.floor(frequency/freq_increment) *
    freq_increment], [total_duration = 1/rounded_freq] (numpy: [inf] for
    the frequency 0); the result is the pair of [rounded_freq] and the
    recomputed [total_duration]. *)
Definition quantize_span (total_duration : float) : result (float * float) :=
  if (total_duration =? 0)%float then inl ZeroDivisionError
  else
    let frequency := (1 / total_duration)%float in
    let rounded_freq :=
      (np_floor (frequency / freq_increment) * freq_increment)%float in
    inr (rounded_freq, (1 / rounded_freq)%float).


End Double.

(* ===================================================================== *)
(** ** A shot script: the command methods called one after the other *)
(* ===================================================================== *)

(** One call of a command method of the device. *)
Inductive call : Type :=
| call_power_ramp (t duration time_const init_volt final_volt ratio_trap_temp : Q)
| call_linear_ramp (t duration init_volt final_volt : Q)
| call_constant (t duration volt : Q)
| call_sine (t duration freq amplitude offset : Q).

Definition do_call (c : call) : prog device unit :=
  match c with
  | call_power_ramp t d tc iv fv r => power_ramp t d tc iv fv r
  | call_linear_ramp t d iv fv => linear_ramp t d iv fv
  | call_constant t d v => constant t d v
  | call_sine t d f a o => sine t d f a o
  end.

(** The calls in sequence; the first exception ends the script. *)
Fixpoint run_script (cs : list call) : prog device unit :=
  match cs with
  | [] => ret tt
  | c :: rest => do_call c ;; run_script rest
  end.

(** The dict a call appends, and the time it is given. *)
Definition command_of_call (c : call) : command :=
  match c with
  | call_power_ramp t d tc iv fv r => power_ramp_cmd t d tc iv fv r
  | call_linear_ramp t d iv fv => linear_ramp_cmd t d iv fv
  | call_constant t d v => constant_cmd t d v
  | call_sine t d f a o => sine_cmd t d f a o
  end.

Definition call_t (c : call) : Q := cmd_t (command_of_call c).


(** A single hold of ten seconds: longer than [1/freq_increment]. *)
Definition long_device : device :=
  {| name := "rp"; trig_duration := None;
     commands := [constant_cmd 0 10 (1 # 2)];
     parent_triggers := [(0, None)] |}.

Definition long_artifact : artifact :=
  match snd (generate_code no_power no_sin pi_approx long_device []) with
  | inr (Some art) => art
  | _ => {| total_duration := PyF 0; out_values := [] |}
  end.

(** Two holds: half a second at 0.5 V, then half a second at -0.3 V. *)
Definition holds_device : device :=
  {| name := "rp"; trig_duration := None;
     commands := [constant_cmd 0 0 (1 # 2); constant_cmd (1 # 2) (1 # 2) (- (3 # 10))];
     parent_triggers := [(0, None)] |}.

Definition holds_artifact : artifact :=
  match snd (generate_code no_power no_sin pi_approx holds_device []) with
  | inr (Some art) => art
  | _ => {| total_duration := PyF 0; out_values := [] |}
  end.

(* ===================================================================== *)
(** ** The worker of [red_pitaya_pyrpl_asg.py]: entering buffered mode *)
(* ===================================================================== *)

(** One call of [self.connection.rp.asg0.setup(...)]: the keyword
    arguments that were passed ([None] for an argument left out, and for a
    frequency that is itself [None]). *)
Record asg_setup : Type := {
  su_waveform : option string;
  su_frequency : option num;
  su_amplitude : option num;
  su_offset : option num;
  su_trigger_source : option string;
  su_cycles_per_burst : option Z
}.

(** The worker object, with what it has sent to the Red Pitaya: the LED
    pattern, the [setup] calls in order, and the last array assigned to
    [asg0.data]. *)
Record asg_worker : Type := {
  peak_volt : Q;
  offset_calib : Q;
  wk_waveform : string;
  wk_frequency : option num;
  wk_amplitude : num;
  wk_offset : num;
  wk_cycles_per_burst : Z;
  wk_shot_file : option string;
  wk_led : Z;
  wk_setups : list asg_setup;
  wk_data : option (list float64)
}.

(** The device group of the shot file, as the worker reads it. *)
Record h5_group : Type := {
  ds_out_values : option (list float64);
  ds_total_duration : option float64
}.

(** The group [generate_code] leaves for an artifact. *)
Definition group_of_artifact (art : artifact) : h5_group :=
  {| ds_out_values := Some (out_values art);
     ds_total_duration := Some (to_np (total_duration art)) |}.

(** [__out_amp_volt_conv] on a number: [amp_out / self.peak_volt]. *)
Definition out_amp_volt_conv (self : asg_worker) (amp_out : num) : result num :=
  num_div amp_out (PyF (peak_volt self)).

(** [__out_amp_volt_conv] on an array (numpy divides element by element
    and does not raise), and on [None]. *)
Definition out_amp_volt_conv_array (self : asg_worker)
    (amp_out : option (list float64)) : result (list float64) :=
  match amp_out with
  | None => inl (TypeError "unsupported operand type(s) for /")
  | Some a => inr (map (fun v => fdiv v (Fin (peak_volt self))) a)
  end.

(** [__offset_calib]: [offset + self.offset_calib]. *)
Definition apply_offset_calib (self : asg_worker) (offset : num) : num :=
  num_add offset (PyF (offset_calib self)).

Definition wk_update (self : asg_worker) (waveform : string)
    (frequency : option num) (amplitude offset : num) (cycles : Z)
    (shot_file : option string) (led : Z) : asg_worker :=
  {| peak_volt := peak_volt self; offset_calib := offset_calib self;
     wk_waveform := waveform; wk_frequency := frequency;
     wk_amplitude := amplitude; wk_offset := offset;
     wk_cycles_per_burst := cycles; wk_shot_file := shot_file; wk_led := led;
     wk_setups := wk_setups self; wk_data := wk_data self |}.

Definition wk_send_setup (s : asg_setup) : prog asg_worker unit :=
  modify (fun self =>
    {| peak_volt := peak_volt self; offset_calib := offset_calib self;
       wk_waveform := wk_waveform self; wk_frequency := wk_frequency self;
       wk_amplitude := wk_amplitude self; wk_offset := wk_offset self;
       wk_cycles_per_burst := wk_cycles_per_burst self;
       wk_shot_file := wk_shot_file self; wk_led := wk_led self;
       wk_setups := wk_setups self ++ [s]; wk_data := wk_data self |}).

Definition wk_send_data (a : list float64) : prog asg_worker unit :=
  modify (fun self =>
    {| peak_volt := peak_volt self; offset_calib := offset_calib self;
       wk_waveform := wk_waveform self; wk_frequency := wk_frequency self;
       wk_amplitude := wk_amplitude self; wk_offset := wk_offset self;
       wk_cycles_per_burst := wk_cycles_per_burst self;
       wk_shot_file := wk_shot_file self; wk_led := wk_led self;
       wk_setups := wk_setups self; wk_data := Some a |}).

Definition wk_set_led (led : Z) : prog asg_worker unit :=
  modify (fun self =>
    wk_update self (wk_waveform self) (wk_frequency self) (wk_amplitude self)
              (wk_offset self) (wk_cycles_per_burst self) (wk_shot_file self) led).

Definition wk_set_shot_file (f : option string) : prog asg_worker unit :=
  modify (fun self =>
    wk_update self (wk_waveform self) (wk_frequency self) (wk_amplitude self)
              (wk_offset self) (wk_cycles_per_burst self) f (wk_led self)).

Definition wk_set_frequency (f : option num) : prog asg_worker unit :=
  modify (fun self =>
    wk_update self (wk_waveform self) f (wk_amplitude self)
              (wk_offset self) (wk_cycles_per_burst self) (wk_shot_file self)
              (wk_led self)).

Definition wk_set_amplitude (a : num) : prog asg_worker unit :=
  modify (fun self =>
    wk_update self (wk_waveform self) (wk_frequency self) a
              (wk_offset self) (wk_cycles_per_burst self) (wk_shot_file self)
              (wk_led self)).

Definition wk_set_offset (o : num) : prog asg_worker unit :=
  modify (fun self =>
    wk_update self (wk_waveform self) (wk_frequency self) (wk_amplitude self)
              o (wk_cycles_per_burst self) (wk_shot_file self) (wk_led self)).

Definition wk_set_cycles (c : Z) : prog asg_worker unit :=
  modify (fun self =>
    wk_update self (wk_waveform self) (wk_frequency self) (wk_amplitude self)
              (wk_offset self) c (wk_shot_file self) (wk_led self)).

(** [self.amplitude = self.__out_amp_volt_conv(volt)] and
    [self.offset = self.__offset_calib(self.__out_amp_volt_conv(volt))]. *)
Definition wk_assign_amplitude (volt : num) : prog asg_worker unit :=
  self <- get ;;
  a <- lift (out_amp_volt_conv self volt) ;;
  wk_set_amplitude a.

Definition wk_assign_offset (volt : num) : prog asg_worker unit :=
  self <- get ;;
  o <- lift (out_amp_volt_conv self volt) ;;
  wk_set_offset (apply_offset_calib self o).

(** [asg0.setup(frequency=self.frequency, amplitude=self.amplitude,
    offset=self.offset, trigger_source='ext_positive_edge',
    cycles_per_burst=self.cycles_per_burst)] *)
Definition wk_setup_buffered : prog asg_worker unit :=
  self <- get ;;
  wk_send_setup
    {| su_waveform := None;
       su_frequency := wk_frequency self;
       su_amplitude := Some (wk_amplitude self);
       su_offset := Some (wk_offset self);
       su_trigger_source := Some "ext_positive_edge"%string;
       su_cycles_per_burst := Some (wk_cycles_per_burst self) |}.

(** [transition_to_buffered(self, device_name, hdf5_file, initial_values,
    fresh)]; [group] is the content of [f['devices/<name>']]. *)
Definition worker_transition_to_buffered (hdf5_file : string) (group : h5_group)
  : prog asg_worker unit :=
  wk_set_led 4 ;;
  wk_set_shot_file (Some hdf5_file) ;;
  let out_values := ds_out_values group in
  let frequency :=
    option_map (fun td => NpF (fdiv (Fin 1) td)) (ds_total_duration group) in
  wk_set_frequency frequency ;;
  self <- get ;;
  wk_assign_amplitude (PyF (peak_volt self)) ;;
  wk_assign_offset (PyF 0) ;;
  wk_set_cycles 1 ;;
  wk_setup_buffered ;;
  data <- lift (out_amp_volt_conv_array self out_values) ;;
  wk_send_data data.

(** A worker with the attribute values that [init] assigns, for a gain
    [pv] that is not zero, and nothing recorded as sent yet. *)
Definition new_worker (pv oc : Q) : asg_worker :=
  {| peak_volt := pv; offset_calib := oc;
     wk_waveform := "dc"; wk_frequency := Some (PyF 0);
     wk_amplitude := PyF (0 / pv); wk_offset := PyF (0 / pv + oc);
     wk_cycles_per_burst := 0; wk_shot_file := None; wk_led := 1;
     wk_setups := []; wk_data := None |}.

(** A hold whose voltage lies within [[-V, V]]. *)
Definition hold_within (V : Q) (c : command) : Prop :=
  match c with
  | constant_cmd _ _ volt => - V <= volt /\ volt <= V
  | _ => False
  end.

(** A finite sample within [[-V, V]]. *)
Definition sample_within (V : Q) (v : float64) : Prop :=
  exists q, v = Fin q /\ - V <= q /\ q <= V.

(** The step and the spin box of a numeric attribute of the front panel. *)
Definition attr_step (which_attr : string) : option Q :=
  if String.eqb which_attr "amplitude" then Some amplitude_step
  else if String.eqb which_attr "offset" then Some offset_step
  else if String.eqb which_attr "frequency" then Some frequency_step
  else None.

Definition attr_spinbox (which_attr : string) (self : tab) : option Q :=
  if String.eqb which_attr "amplitude" then Some (amplitude0_spinbox self)
  else if String.eqb which_attr "offset" then Some (offset0_spinbox self)
  else if String.eqb which_attr "frequency" then Some (frequency0_spinbox self)
  else None.

(** The request [queue_work(self.primary_worker, 'update_asg', attr_value,
    which_attr)]. *)
Definition update_request (self : tab) (value : attr_value) (which_attr : string)
  : work_request :=
  {| req_worker := primary_worker self; req_function := "update_asg";
     req_args := [value; AttrText which_attr] |}.

(** A front panel in manual mode, with one secondary worker. *)
Definition front_panel : tab :=
  {| device_name := "rp"; tab_mode := MODE_MANUAL;
     waveform0_box := "sin";
     amplitude0_spinbox := 1 # 2;
     offset0_spinbox := 1;
     frequency0_spinbox := 1000;
     primary_worker := "main_worker";
     secondary_workers := ["aux_worker"%string];
     final_values := []; AO := []; DO := []; image := []; DDS := [];
     last_programmed_values := [];
     program_device_calls := 0;
     work_requests := [];
     notify_queue := [] |}.

(* ===================================================================== *)
(** ** [labscript_devices.py] (Python 3.7.5): the constructor *)
(* ===================================================================== *)

Module Device375.

(** The keyword arguments of [__init__].  The numbers are finite Python
    numbers; [waveform] is [None] when it is left out, [cycles_per_burst]
    is [None] for a value that is not an [int], and [time_const] and
    [ratio_trap_temp] are [None] when they are left out. *)
Record kwargs : Type := {
  ip_addr : option string;
  waveform : option string;
  cycle_duration : Q;
  amplitude : Q;
  offset : Q;
  cycles_per_burst : option Z;
  time_const : option Q;
  ratio_trap_temp : option Q
}.

(** The device object a successful [__init__] leaves; [passed_properties]
    are the keyword arguments that the decorator [set_passed_properties]
    saves once [__init__] has returned. *)
Record device : Type := {
  name : string;
  BLACS_connection : option string;
  self_cycle_duration : Q;
  passed_properties : kwargs
}.

Definition valid_waveforms : list string :=
  ["sin"; "cos"; "ramp"; "halframp"; "square"; "dc"; "noise";
   "evaporation_ramp"]%string.

(** [waveform in valid_waveforms] *)
Definition is_valid_waveform (w : option string) : bool :=
  match w with
  | Some s => existsb (String.eqb s) valid_waveforms
  | None => false
  end.

(** [waveform == 'evaporation_ramp'] *)
Definition is_evaporation_ramp (w : option string) : bool :=
  match w with
  | Some s => String.eqb s "evaporation_ramp"
  | None => false
  end.

(** [a < b] for a float [a] and a [b] that may be [None]: Python 3 raises
    [TypeError] for the comparison with [None]. *)
Definition lt_opt (a : Q) (b : option Q) : result bool :=
  match b with
  | None =>
      inl (TypeError "'<' not supported between instances of 'float' and 'NoneType'")
  | Some q => inr (Qltb a q)
  end.

(** [0.0 < time_const <= self.cycle_duration]: the second comparison is
    evaluated only when the first holds. *)
Definition time_const_in_range (kw : kwargs) : result bool :=
  try positive := lt_opt 0 (time_const kw) in
  inr (positive &&
       match time_const kw with
       | Some tc => Qle_bool tc (cycle_duration kw)
       | None => false
       end).

Definition asg_prefix (name : string) : string :=
  String.append "Red Pitaya PYRPL ASG " name.

(** [__init__], after [TriggerableDevice.__init__] has returned. *)
Definition init (name : string) (kw : kwargs) : result device :=
  let self := {| name := name; BLACS_connection := ip_addr kw;
                 self_cycle_duration := cycle_duration kw;
                 passed_properties := kw |} in
  if negb (is_valid_waveform (waveform kw)) then
    inl (TypeError
           (String.append (asg_prefix name)
              " needs keyword argument'waveform':'sin', 'cos', 'ramp', 'halframp', 'square', 'dc', 'noise','evaporation_ramp'"))
  else if negb (Qle_bool (16 # 1000000000) (cycle_duration kw)) then
    inl (LabscriptError
           (String.append (asg_prefix name)
              " keyword argument 'cycle_duration'out of range [1e-7, 10]"))
  else if negb (Qle_bool 0 (amplitude kw) && Qle_bool (amplitude kw) 1) then
    inl (LabscriptError
           (String.append (asg_prefix name)
              " keyword argument 'amplitude' out of range [0, 1]"))
  else if negb (Qle_bool 0 (offset kw) && Qle_bool (offset kw) 2) then
    inl (LabscriptError
           (String.append (asg_prefix name)
              " keyword argument 'offset' out of range [0, 2]"))
  else
    match cycles_per_burst kw with
    | None =>
        inl (TypeError
               (String.append (asg_prefix name)
                  " keyword argument 'cycles_per_burst' needs to beof type 'int'"))
    | Some _ =>
        if is_evaporation_ramp (waveform kw) then
          try tc_ok := time_const_in_range kw in
          if negb tc_ok then
            inl (LabscriptError
                   (String.append (asg_prefix name)
                      " keyword argument 'evaporation_ramp' expects additional keyword argument 'time_const' of type 'strictly positive float' in range [0.0, cycle_duration]"))
          else
            try r_ok := lt_opt 0 (ratio_trap_temp kw) in
            if negb r_ok then
              inl (LabscriptError
                     (String.append (asg_prefix name)
                        " keyword argument 'evaporation_ramp' expects additional keyword argument 'ratio_trap_temp' of type 'strictly positive float'"))
            else inr self
        else inr self
    end.

End Device375.

(* ===================================================================== *)
(** ** [blacs_workers.py] (Python 3.7.5): the worker *)
(* ===================================================================== *)

Module Worker375.

(** A value held by an attribute of the worker: [update_asg] stores what
    it is given, a string or a number. *)
Inductive pyv : Type :=
| PStr (s : string)
| PNum (n : num).

(** One call of [self.connection.rp.asg0.setup(...)]: [None] for a keyword
    argument that is not passed. *)
Record setup_call : Type := {
  kw_waveform : option pyv;
  kw_frequency : option pyv;
  kw_amplitude : option pyv;
  kw_offset : option pyv;
  kw_trigger_source : option string;
  kw_cycles_per_burst : option Z
}.

(** The worker object, with what it has sent to the Red Pitaya: the LED
    pattern, the [setup] calls in order, and the last array assigned to
    [asg0.data].  [time_const] and [ratio_trap_temp] are read only right
    after they are assigned, so an attribute that was never assigned and
    one that holds [None] are not told apart. *)
Record worker : Type := {
  waveform : pyv;
  frequency : pyv;
  amplitude : pyv;
  offset : pyv;
  cycles_per_burst : Z;
  time_const : option num;
  ratio_trap_temp : option num;
  shot_file : option string;
  led : Z;
  setups : list setup_call;
  data : option (list float64)
}.


Definition set_led (v : Z) : prog worker unit :=
  modify (fun self =>
    {| waveform := waveform self; frequency := frequency self;
       amplitude := amplitude self; offset := offset self;
       cycles_per_burst := cycles_per_burst self;
       time_const := time_const self; ratio_trap_temp := ratio_trap_temp self;
       shot_file := shot_file self; led := v;
       setups := setups self; data := data self |}).

Definition set_shot_file (f : option string) : prog worker unit :=
  modify (fun self =>
    {| waveform := waveform self; frequency := frequency self;
       amplitude := amplitude self; offset := offset self;
       cycles_per_burst := cycles_per_burst self;
       time_const := time_const self; ratio_trap_temp := ratio_trap_temp self;
       shot_file := f; led := led self;
       setups := setups self; data := data self |}).

Definition set_waveform (v : pyv) : prog worker unit :=
  modify (fun self =>
    {| waveform := v; frequency := frequency self;
       amplitude := amplitude self; offset := offset self;
       cycles_per_burst := cycles_per_burst self;
       time_const := time_const self; ratio_trap_temp := ratio_trap_temp self;
       shot_file := shot_file self; led := led self;
       setups := setups self; data := data self |}).

Definition set_frequency (v : pyv) : prog worker unit :=
  modify (fun self =>
    {| waveform := waveform self; frequency := v;
       amplitude := amplitude self; offset := offset self;
       cycles_per_burst := cycles_per_burst self;
       time_const := time_const self; ratio_trap_temp := ratio_trap_temp self;
       shot_file := shot_file self; led := led self;
       setups := setups self; data := data self |}).

Definition set_amplitude (v : pyv) : prog worker unit :=
  modify (fun self =>
    {| waveform := waveform self; frequency := frequency self;
       amplitude := v; offset := offset self;
       cycles_per_burst := cycles_per_burst self;
       time_const := time_const self; ratio_trap_temp := ratio_trap_temp self;
       shot_file := shot_file self; led := led self;
       setups := setups self; data := data self |}).

Definition set_offset (v : pyv) : prog worker unit :=
  modify (fun self =>
    {| waveform := waveform self; frequency := frequency self;
       amplitude := amplitude self; offset := v;
       cycles_per_burst := cycles_per_burst self;
       time_const := time_const self; ratio_trap_temp := ratio_trap_temp self;
       shot_file := shot_file self; led := led self;
       setups := setups self; data := data self |}).

Definition set_cycles_per_burst (v : Z) : prog worker unit :=
  modify (fun self =>
    {| waveform := waveform self; frequency := frequency self;
       amplitude := amplitude self; offset := offset self;
       cycles_per_burst := v;
       time_const := time_const self; ratio_trap_temp := ratio_trap_temp self;
       shot_file := shot_file self; led := led self;
       setups := setups self; data := data self |}).



(** [self.connection.rp.asg0.setup(...)] *)
Definition send_setup (call : setup_call) : prog worker unit :=
  modify (fun self =>
    {| waveform := waveform self; frequency := frequency self;
       amplitude := amplitude self; offset := offset self;
       cycles_per_burst := cycles_per_burst self;
       time_const := time_const self; ratio_trap_temp := ratio_trap_temp self;
       shot_file := shot_file self; led := led self;
       setups := setups self ++ [call]; data := data self |}).


(** The call [setup(waveform=..., frequency=..., offset=...,
    trigger_source='immediately', cycles_per_burst=...)], with or without
    the keywords [waveform] and [amplitude]. *)
Definition setup_immediately (with_waveform with_amplitude : bool)
  : prog worker unit :=
  self <- get ;;
  send_setup
    {| kw_waveform := if with_waveform then Some (waveform self) else None;
       kw_frequency := Some (frequency self);
       kw_amplitude := if with_amplitude then Some (amplitude self) else None;
       kw_offset := Some (offset self);
       kw_trigger_source := Some "immediately"%string;
       kw_cycles_per_burst := Some (cycles_per_burst self) |}.

(** "Set default values for ASG0 attributes" *)
Definition set_defaults : prog worker unit :=
  set_waveform (PStr "dc") ;;
  set_frequency (PNum (PyF 0)) ;;
  set_amplitude (PNum (PyF 0)) ;;
  set_offset (PNum (PyF (-1))) ;;
  set_cycles_per_burst 0.

(** The worker object that [init] leaves: the defaults, and one [setup]
    call, without the keyword [amplitude]. *)
Definition init : worker :=
  {| waveform := PStr "dc"; frequency := PNum (PyF 0);
     amplitude := PNum (PyF 0); offset := PNum (PyF (-1));
     cycles_per_burst := 0;
     time_const := None; ratio_trap_temp := None;
     shot_file := None; led := 1;
     setups := [{| kw_waveform := Some (PStr "dc");
                   kw_frequency := Some (PNum (PyF 0));
                   kw_amplitude := None;
                   kw_offset := Some (PNum (PyF (-1)));
                   kw_trigger_source := Some "immediately"%string;
                   kw_cycles_per_burst := Some 0%Z |}];
     data := None |}.

Section Numpy.

(** [numpy.power] on two float64 values, and [str] of a number. *)
Variable np_power : float64 -> float64 -> float64.
Variable float_str : num -> string.




(** [transition_to_manual(self)]: returns [True] and the dict of the
    default values it has just assigned. *)
Definition transition_to_manual : prog worker (bool * attr_dict) :=
  set_led 2 ;;
  set_defaults ;;
  setup_immediately true true ;;
  set_shot_file None ;;
  ret (true, {| attr_waveform := "dc"; attr_frequency := 0;
                attr_amplitude := 0; attr_offset := -1 |}).

(** [str(attr_value)] *)
Definition py_str (v : pyv) : string :=
  match v with
  | PStr s => s
  | PNum n => float_str n
  end.

(** [attr_value - 1.0] *)
Definition minus_one (v : pyv) : result pyv :=
  match v with
  | PStr _ => inl (TypeError "unsupported operand type(s) for -: 'str' and 'float'")
  | PNum n => inr (PNum (num_sub n (PyF 1)))
  end.

(** [update_asg(self, attr_value, which_attr)] *)
Definition update_asg (attr_value : pyv) (which_attr : string)
  : prog worker unit :=
  set_led 8 ;;
  (if String.eqb which_attr "waveform" then
     set_waveform (PStr (py_str attr_value))
   else if String.eqb which_attr "amplitude" then
     set_amplitude attr_value
   else if String.eqb which_attr "offset" then
     v <- lift (minus_one attr_value) ;;
     set_offset v
   else if String.eqb which_attr "frequency" then
     set_frequency attr_value
   else ret tt) ;;
  self <- get ;;
  send_setup
    {| kw_waveform := Some (waveform self);
       kw_frequency := Some (frequency self);
       kw_amplitude := Some (amplitude self);
       kw_offset := Some (offset self);
       kw_trigger_source := None;
       kw_cycles_per_burst := None |}.

(** [shutdown(self)] *)
Definition shutdown : prog worker unit :=
  set_led 1 ;;
  set_defaults ;;
  setup_immediately true true.

(** [abort_buffered(self)] *)
Definition abort_buffered : prog worker (bool * attr_dict) :=
  transition_to_manual.

(** [abort_transition_to_buffered(self)] *)
Definition abort_transition_to_buffered : prog worker bool :=
  set_shot_file None ;;
  ret true.

End Numpy.

End Worker375.

(** The value the worker receives for an argument of a request. *)
Definition pyv_of_attr (v : attr_value) : Worker375.pyv :=
  match v with
  | AttrText s => Worker375.PStr s
  | AttrNumber q => Worker375.PNum (PyF q)
  end.






(** A single power ramp whose ratio is 4. *)
Definition ratio_four_device : device :=
  {| name := "rp"; trig_duration := None;
     commands := [power_ramp_cmd 0 (1 # 2) 1 1 (1 # 2) 4];
     parent_triggers := [(0, None)] |}.

(* ===================================================================== *)
(** ** Lists: item assignment, [np.diff], [enumerate] *)
(* ===================================================================== *)

Local Open Scope nat_scope.

Lemma rbind_inr_inv {A B} (c : result A) (k : A -> result B) (b : B) :
  rbind c k = inr b -> exists a, c = inr a /\ k a = inr b.
Proof. destruct c as [e|a]; simpl; intros H; [discriminate | eauto]. Qed.

Lemma rbind_inl_inv {A B} (c : result A) (k : A -> result B) (e : exn) :
  rbind c k = inl e -> c = inl e \/ exists a, c = inr a /\ k a = inl e.
Proof.
  destruct c as [e'|a]; simpl; intros H.
  - left. inversion H. reflexivity.
  - right. eauto.
Qed.

Lemma getitem_inr {A} (l : list A) i a :
  getitem l i = inr a <-> nth_error l i = Some a.
Proof.
  unfold getitem. destruct (nth_error l i); split; intros H;
    inversion H; reflexivity.
Qed.

Lemma getlast_inr {A} (l : list A) a :
  getlast l = inr a <-> l <> [] /\ nth_error l (length l - 1) = Some a.
Proof.
  destruct l as [|x l].
  - simpl. split; [discriminate | intros [H _]; now elim H].
  - unfold getlast. rewrite getitem_inr. split.
    + intros H. split; [discriminate | exact H].
    + intros [_ H]. exact H.
Qed.

Lemma setitem_length {A} i (v : A) l : length (setitem i v l) = length l.
Proof.
  revert i. induction l as [|a l IH]; intros [|i]; simpl; auto.
Qed.

Lemma nth_error_setitem_eq {A} i (v : A) l :
  i < length l -> nth_error (setitem i v l) i = Some v.
Proof.
  revert i. induction l as [|a l IH]; intros [|i] H; simpl in *;
    try lia; auto. apply IH. lia.
Qed.

Lemma nth_error_setitem_neq {A} i j (v : A) l :
  i <> j -> nth_error (setitem i v l) j = nth_error l j.
Proof.
  revert i j. induction l as [|a l IH]; intros [|i] [|j] H; simpl;
    try reflexivity; try congruence. apply IH. congruence.
Qed.

Lemma np_diff_length a : length (np_diff a) = length a - 1.
Proof.
  induction a as [|x [|y a] IH]; try reflexivity.
  change (length (np_diff (x :: y :: a))) with (S (length (np_diff (y :: a)))).
  rewrite IH. simpl. lia.
Qed.

Lemma np_diff_nth a i x y :
  nth_error a i = Some x -> nth_error a (S i) = Some y ->
  nth_error (np_diff a) i = Some (Fin (y - x)).
Proof.
  revert i. induction a as [|x0 [|y0 a] IH]; intros i Hx Hy.
  - destruct i; discriminate.
  - destruct i as [|[|i]]; discriminate.
  - destruct i as [|i].
    + simpl in Hx, Hy. inversion Hx; inversion Hy; subst. reflexivity.
    + change (nth_error (np_diff (y0 :: a)) i = Some (Fin (y - x))).
      apply IH; assumption.
Qed.

Lemma In_enumerate {A} (l : list A) s j d :
  In (j, d) (combine (seq s (length l)) l) <->
  s <= j /\ nth_error l (j - s) = Some d.
Proof.
  revert s. induction l as [|a l IH]; intros s; simpl.
  - split; [tauto | intros [_ H]; destruct (j - s); discriminate].
  - rewrite IH. split.
    + intros [H | [H1 H2]].
      * inversion H; subst. rewrite Nat.sub_diag. split; [lia | reflexivity].
      * split; [lia|]. replace (j - s) with (S (j - S s)) by lia. exact H2.
    + intros [H1 H2]. destruct (Nat.eq_dec s j) as [->|Hne].
      * rewrite Nat.sub_diag in H2. simpl in H2. inversion H2. now left.
      * right. split; [lia|].
        replace (j - s) with (S (j - S s)) in H2 by lia. exact H2.
Qed.

Lemma In_zero_dur durations j :
  In j (zero_dur durations) <->
  exists d, nth_error durations j = Some d /\ num_is_zero d = true.
Proof.
  unfold zero_dur. rewrite in_map_iff. split.
  - intros [[j' d] [Hj Hin]]. simpl in Hj. subst j'.
    apply filter_In in Hin. destruct Hin as [Hin Hz].
    apply In_enumerate in Hin. rewrite Nat.sub_0_r in Hin.
    exists d. split; [apply Hin | exact Hz].
  - intros [d [Hn Hz]]. exists (j, d). split; [reflexivity|].
    apply filter_In. split; [|exact Hz].
    apply In_enumerate. rewrite Nat.sub_0_r. split; [lia | exact Hn].
Qed.

(** The loop [for i in zero_dur: durations[i] = time_diffs[i]]. *)
Lemma fill_zero_durations_spec zs time_diffs :
  (forall i, In i zs -> i < length time_diffs) ->
  forall durations,
  exists ds,
    fill_zero_durations zs time_diffs durations = inr ds /\
    length ds = length durations /\
    forall j,
      (In j zs -> j < length durations ->
       exists d, nth_error time_diffs j = Some d /\ nth_error ds j = Some (NpF d)) /\
      (~ In j zs -> nth_error ds j = nth_error durations j).
Proof.
  induction zs as [|i zs IH]; intros Hin durations.
  - exists durations. simpl. split; [reflexivity|]. split; [reflexivity|].
    intros j. split; [tauto | reflexivity].
  - assert (Hi : i < length time_diffs) by (apply Hin; now left).
    destruct (nth_error time_diffs i) as [d|] eqn:Hd;
      [| apply nth_error_None in Hd; lia].
    destruct (IH (fun k Hk => Hin k (or_intror Hk))
                 (setitem i (NpF d) durations)) as [ds [Hds [Hlen Hnth]]].
    exists ds. simpl. unfold getitem. rewrite Hd. simpl.
    split; [exact Hds|]. rewrite setitem_length in Hlen.
    split; [exact Hlen|]. intros j. split.
    + intros Hj Hlt. destruct (in_dec Nat.eq_dec j zs) as [Hjz|Hjz].
      * apply (proj1 (Hnth j)); [exact Hjz | now rewrite setitem_length].
      * destruct Hj as [->|Hj]; [|contradiction].
        exists d. split; [exact Hd|].
        rewrite (proj2 (Hnth j) Hjz). now apply nth_error_setitem_eq.
    + intros Hj. rewrite (proj2 (Hnth j)) by tauto.
      apply nth_error_setitem_neq. intros ->. apply Hj. now left.
Qed.

(* ===================================================================== *)
(** ** Duration resolution *)
(* ===================================================================== *)

Lemma Qeq_bool_false (a b : Q) : Qeq_bool a b = false <-> ~ (a == b)%Q.
Proof.
  split.
  - intros H Heq. apply Qeq_bool_iff in Heq. congruence.
  - intros H. destruct (Qeq_bool a b) eqn:E; [|reflexivity].
    apply Qeq_bool_iff in E. contradiction.
Qed.

Lemma num_is_zero_PyF q : num_is_zero (PyF q) = Qeq_bool q 0.
Proof. reflexivity. Qed.

Lemma num_is_zero_NpF_Fin q : num_is_zero (NpF (Fin q)) = Qeq_bool q 0.
Proof. reflexivity. Qed.

Lemma nth_error_durations_of cmds i :
  nth_error (durations_of cmds) i
  = option_map (fun c => PyF (cmd_duration c)) (nth_error cmds i).
Proof. unfold durations_of. apply nth_error_map. Qed.

Lemma nth_error_times_of cmds i :
  nth_error (times_of cmds) i = option_map cmd_t (nth_error cmds i).
Proof. unfold times_of. apply nth_error_map. Qed.

(** With a last duration different from 0, resolution succeeds, and it is
    positional: entry [i] becomes [times[i+1] - times[i]] when it was 0
    and is left alone otherwise. *)
Lemma resolve_durations_ok (nm : string) (cmds : list command) (c_last : command) :
  getlast cmds = inr c_last ->
  Qeq_bool (cmd_duration c_last) 0 = false ->
  exists ds,
    resolve_durations nm (times_of cmds) (durations_of cmds) = inr ds /\
    length ds = length cmds /\
    forall i c, nth_error cmds i = Some c ->
      if Qeq_bool (cmd_duration c) 0
      then exists c', nth_error cmds (S i) = Some c' /\
                      nth_error ds i = Some (NpF (Fin (cmd_t c' - cmd_t c)))
      else nth_error ds i = Some (PyF (cmd_duration c)).
Proof.
  intros Hlast Hnz. apply getlast_inr in Hlast. destruct Hlast as [Hne Hlast].
  assert (Hlen0 : length (durations_of cmds) = length cmds)
    by (unfold durations_of; apply length_map).
  assert (Hfinal : getlast (durations_of cmds) = inr (PyF (cmd_duration c_last))).
  { apply getlast_inr. split.
    - intros E. apply Hne. destruct cmds; [reflexivity | discriminate].
    - rewrite Hlen0, nth_error_durations_of, Hlast. reflexivity. }
  assert (Hzs : forall i, In i (zero_dur (durations_of cmds)) ->
                          i < length (np_diff (times_of cmds))).
  { intros i Hi. apply In_zero_dur in Hi. destruct Hi as [d [Hd Hz]].
    rewrite np_diff_length. unfold times_of. rewrite length_map.
    assert (i < length cmds)
      by (rewrite <- Hlen0; apply nth_error_Some; congruence).
    destruct (Nat.eq_dec i (length cmds - 1)) as [->|]; [|lia].
    rewrite nth_error_durations_of, Hlast in Hd. simpl in Hd.
    inversion Hd; subst d. rewrite num_is_zero_PyF in Hz. congruence. }
  destruct (fill_zero_durations_spec _ _ Hzs (durations_of cmds))
    as [ds [Hds [Hlen Hnth]]].
  exists ds. unfold resolve_durations. rewrite Hfinal. unfold rbind.
  rewrite num_is_zero_PyF, Hnz. split; [exact Hds|]. split; [congruence|].
  intros i c Hc.
  assert (Hd0 : nth_error (durations_of cmds) i = Some (PyF (cmd_duration c)))
    by (rewrite nth_error_durations_of, Hc; reflexivity).
  destruct (Qeq_bool (cmd_duration c) 0) eqn:Hz.
  - assert (Hin : In i (zero_dur (durations_of cmds)))
      by (apply In_zero_dur; eauto).
    assert (Hi : i < length (durations_of cmds))
      by (apply nth_error_Some; congruence).
    destruct (proj1 (Hnth i) Hin Hi) as [d [Hd Hdi]].
    specialize (Hzs i Hin). rewrite np_diff_length in Hzs.
    unfold times_of in Hzs. rewrite length_map in Hzs.
    destruct (nth_error cmds (S i)) as [c'|] eqn:Hc';
      [| apply nth_error_None in Hc'; lia].
    exists c'. split; [reflexivity|].
    rewrite (np_diff_nth (times_of cmds) i (x:=cmd_t c) (y:=cmd_t c')) in Hd.
    + inversion Hd; subst d. exact Hdi.
    + rewrite nth_error_times_of, Hc. reflexivity.
    + rewrite nth_error_times_of, Hc'. reflexivity.
  - rewrite (proj2 (Hnth i)); [exact Hd0|].
    intros Hin. apply In_zero_dur in Hin. destruct Hin as [d [Hd Hzd]].
    rewrite Hd0 in Hd. inversion Hd; subst d.
    rewrite num_is_zero_PyF in Hzd. congruence.
Qed.

(** C1 (as amended).  For a non-empty command list whose last duration is
    not 0, duration resolution succeeds; a duration that was 0 becomes the
    difference between the next start time and its own, by position, and
    the others are unchanged.  No resolved duration is 0 provided no
    command is immediately followed by one with the same start time. *)
Theorem resolve_durations_positional_delta
    (nm : string) (cmds : list command) (c_last : command) :
  getlast cmds = inr c_last ->
  ~ (cmd_duration c_last == 0)%Q ->
  exists ds,
    resolve_durations nm (times_of cmds) (durations_of cmds) = inr ds /\
    length ds = length cmds /\
    (forall i c, nth_error cmds i = Some c ->
       if Qeq_bool (cmd_duration c) 0
       then exists c', nth_error cmds (S i) = Some c' /\
                       nth_error ds i = Some (NpF (Fin (cmd_t c' - cmd_t c)))
       else nth_error ds i = Some (PyF (cmd_duration c))) /\
    ((forall i c c', nth_error cmds i = Some c ->
                     nth_error cmds (S i) = Some c' ->
                     ~ (cmd_t c' == cmd_t c)%Q) ->
     Forall (fun d => num_is_zero d = false) ds).
Proof.
  intros Hlast Hnz. apply Qeq_bool_false in Hnz.
  destruct (resolve_durations_ok nm cmds Hlast Hnz) as [ds [Hds [Hlen Hnth]]].
  exists ds. repeat (split; [assumption|]).
  intros Hdistinct. apply Forall_forall. intros d Hd.
  apply In_nth_error in Hd. destruct Hd as [i Hi].
  assert (Hlt : i < length cmds)
    by (rewrite <- Hlen; apply nth_error_Some; congruence).
  destruct (nth_error cmds i) as [c|] eqn:Hc;
    [| apply nth_error_None in Hc; lia].
  specialize (Hnth i c Hc).
  destruct (Qeq_bool (cmd_duration c) 0) eqn:Hz.
  - destruct Hnth as [c' [Hc' Hdi]]. rewrite Hi in Hdi. inversion Hdi; subst d.
    rewrite num_is_zero_NpF_Fin. apply Qeq_bool_false.
    intros E. apply (Hdistinct i c c' Hc Hc'). lra.
  - rewrite Hi in Hnth. inversion Hnth; subst d.
    rewrite num_is_zero_PyF. exact Hz.
Qed.


Lemma resolve_durations_positional_delta_witness :
  exists ds,
    resolve_durations "rp" (times_of scenario_commands)
                      (durations_of scenario_commands) = inr ds /\
    length ds = length scenario_commands /\
    (forall i c, nth_error scenario_commands i = Some c ->
       if Qeq_bool (cmd_duration c) 0
       then exists c', nth_error scenario_commands (S i) = Some c' /\
                       nth_error ds i = Some (NpF (Fin (cmd_t c' - cmd_t c)))
       else nth_error ds i = Some (PyF (cmd_duration c))) /\
    ((forall i c c', nth_error scenario_commands i = Some c ->
                     nth_error scenario_commands (S i) = Some c' ->
                     ~ (cmd_t c' == cmd_t c)%Q) ->
     Forall (fun d => num_is_zero d = false) ds).
Proof.
  apply (resolve_durations_positional_delta "rp" scenario_commands
           (c_last := linear_ramp_cmd (1 # 2) (1 # 2) (1 # 2) (1 # 10))).
  - reflexivity.
  - simpl. intros H. discriminate H.
Defined.

(** C1 as stated fails: two commands with the same start time, the first
    with duration 0 and the last with duration 1.  The start times are
    non-decreasing and the last duration is not 0, yet the first resolved
    duration is [0 - 0], still equal to 0. *)
Lemma equal_start_times_leave_zero_duration :
  let cmds := [constant_cmd 0 0 (1 # 2); linear_ramp_cmd 0 1 (1 # 2) (1 # 10)] in
  getlast cmds = inr (linear_ramp_cmd 0 1 (1 # 2) (1 # 10)) /\
  Qeq_bool (cmd_duration (linear_ramp_cmd 0 1 (1 # 2) (1 # 10))) 0 = false /\
  resolve_durations "rp" (times_of cmds) (durations_of cmds)
  = inr [NpF (Fin (0 - 0)); PyF 1] /\
  num_is_zero (NpF (Fin (0 - 0))) = true /\
  ~ Forall (fun d => num_is_zero d = false) [NpF (Fin (0 - 0)); PyF 1].
Proof.
  cbv zeta. repeat split.
  intros H. inversion H as [|d l Hd Hl]. discriminate Hd.
Qed.

(* ===================================================================== *)
(** ** [power_ramp]: validation and the trigger of the first command *)
(* ===================================================================== *)

Lemma Qltb_true (a b : Q) : Qltb a b = true <-> (a < b)%Q.
Proof.
  unfold Qltb. rewrite negb_true_iff. split.
  - intros H. apply Qnot_le_lt. intros Hle.
    apply Qle_bool_iff in Hle. congruence.
  - intros H. destruct (Qle_bool b a) eqn:E; [|reflexivity].
    apply Qle_bool_iff in E. lra.
Qed.

Lemma Qltb_false (a b : Q) : Qltb a b = false <-> (b <= a)%Q.
Proof.
  unfold Qltb. rewrite negb_false_iff. apply Qle_bool_iff.
Qed.

(** The two checks of [power_ramp]: a call with [time_const < duration]
    or with [final_volt >= init_volt] raises a LabscriptError and leaves
    the command list as it was. *)
Lemma power_ramp_rejects_invalid
    (self : device) (t duration time_const init_volt final_volt ratio_trap_temp : Q) :
  (time_const < duration \/ final_volt >= init_volt)%Q ->
  let run := power_ramp t duration time_const init_volt final_volt
                        ratio_trap_temp self in
  (exists msg, snd run = inl (LabscriptError msg)) /\
  commands (fst run) = commands self.
Proof.
  intros Hbad. cbv zeta.
  unfold power_ramp, trigger_if_first, bind, get, trigger, modify, ret.
  destruct (is_empty (commands self));
    cbn [name trig_duration commands parent_triggers set_parent_triggers];
    (destruct (Qltb time_const duration) eqn:Hlt;
     [ split; [eexists; reflexivity | reflexivity] |];
     destruct (Qle_bool init_volt final_volt) eqn:Hle;
     [ split; [eexists; reflexivity | reflexivity] |];
     exfalso; apply Qltb_false in Hlt;
     destruct Hbad as [H|H]; [lra|]; apply Qle_bool_iff in H; congruence).
Qed.

(** C4, the code at [time_const = duration].  The guard of [power_ramp]
    is [time_const < duration], although its own message reads
    "requires time_const > duration": with the two equal (and
    [final_volt < init_volt]) nothing is raised and the command is
    appended. *)
Theorem power_ramp_accepts_time_const_equal_duration :
  power_ramp 0 1 1 1 0 8 (new_device "rp" None)
  = ({| name := "rp"; trig_duration := None;
        commands := [power_ramp_cmd 0 1 1 1 0 8];
        parent_triggers := [(0%Q, None)] |}, inr tt).
Proof. reflexivity. Qed.

(** C10.  On a device without commands, a [power_ramp] call that fails
    validation ([time_const < duration], or [final_volt >= init_volt])
    raises a LabscriptError and appends nothing, but the parent device has
    already received the trigger: the trigger precedes the checks. *)
Theorem power_ramp_triggers_before_validation
    (self : device) (t duration time_const init_volt final_volt ratio_trap_temp : Q) :
  commands self = [] ->
  (time_const < duration \/ final_volt >= init_volt)%Q ->
  exists msg,
    power_ramp t duration time_const init_volt final_volt ratio_trap_temp self
    = ({| name := name self; trig_duration := trig_duration self;
          commands := [];
          parent_triggers := parent_triggers self ++ [(t, trig_duration self)] |},
       inl (LabscriptError msg)).
Proof.
  intros Hempty Hbad. unfold power_ramp, trigger_if_first, bind, get.
  rewrite Hempty. cbn [is_empty]. unfold trigger, modify, set_parent_triggers.
  cbn [name trig_duration commands parent_triggers]. rewrite Hempty.
  destruct (Qltb time_const duration) eqn:Hlt.
  - eexists. reflexivity.
  - apply Qltb_false in Hlt.
    destruct (Qle_bool init_volt final_volt) eqn:Hle.
    + eexists. reflexivity.
    + exfalso. destruct Hbad as [H|H]; [lra|].
      apply Qle_bool_iff in H. congruence.
Qed.

Lemma power_ramp_triggers_before_validation_witness :
  exists msg,
    power_ramp 0 2 1 1 0 8 (new_device "rp" (Some 1%Q))
    = ({| name := "rp"; trig_duration := Some 1%Q;
          commands := [];
          parent_triggers := [] ++ [(0%Q, Some 1%Q)] |},
       inl (LabscriptError msg)).
Proof.
  apply (@power_ramp_triggers_before_validation (new_device "rp" (Some 1%Q))
           0%Q 2%Q 1%Q 1%Q 0%Q 8%Q).
  - reflexivity.
  - left. reflexivity.
Defined.

(* ===================================================================== *)
(** ** Which exceptions [generate_code] can raise *)
(* ===================================================================== *)


Ltac rbind_cases H :=
  repeat first
    [ progress cbv zeta in H
    | match type of H with
      | rbind _ _ = inl _ =>
          apply rbind_inl_inv in H; destruct H as [H | [? [_ H]]]
      | (let '(_, _) := ?p in _) = inl _ => destruct p
      end ].

Create HintDb builtin.

Lemma getitem_builtin {A} (l : list A) i e :
  getitem l i = inl e -> builtin_exn e.
Proof.
  unfold getitem. destruct (nth_error l i); intros H; inversion H. exact I.
Qed.

Lemma py_min_builtin l e : py_min l = inl e -> builtin_exn e.
Proof. destruct l; intros H; inversion H. exact I. Qed.

Lemma py_max_builtin l e : py_max l = inl e -> builtin_exn e.
Proof. destruct l; intros H; inversion H. exact I. Qed.

Lemma py_index_builtin l v e : py_index l v = inl e -> builtin_exn e.
Proof.
  induction l as [|x l IH]; simpl; intros H.
  - inversion H. exact I.
  - destruct (Qeq_bool x v); [discriminate|].
    rbind_cases H; [auto | discriminate].
Qed.

Lemma num_div_builtin a b e : num_div a b = inl e -> builtin_exn e.
Proof.
  destruct a, b; simpl; try discriminate.
  destruct (Qeq_bool q0 0); intros H; inversion H. exact I.
Qed.

Lemma np_linspace_builtin start stop n e :
  np_linspace start stop n = inl e -> builtin_exn e.
Proof.
  unfold np_linspace. destruct (n <? 0)%Z; intros H; inversion H. exact I.
Qed.

Lemma np_argmin_builtin a e : np_argmin a = inl e -> builtin_exn e.
Proof. destruct a; intros H; inversion H. exact I. Qed.

Lemma np_setslice_builtin buf a b vals e :
  np_setslice buf a b vals = inl e -> builtin_exn e.
Proof.
  unfold np_setslice.
  destruct (length vals =? _); [discriminate|].
  destruct (length vals =? 1); intros H; inversion H. exact I.
Qed.

#[local] Hint Resolve getitem_builtin py_min_builtin py_max_builtin
  py_index_builtin num_div_builtin np_linspace_builtin np_argmin_builtin
  np_setslice_builtin : builtin.

Lemma total_span_builtin times durations e :
  total_span times durations = inl e -> builtin_exn e.
Proof.
  unfold total_span. intros H. rbind_cases H; eauto with builtin.
  discriminate.
Qed.

Lemma quantize_span_builtin total e :
  quantize_span total = inl e -> builtin_exn e.
Proof.
  unfold quantize_span. intros H. rbind_cases H; eauto with builtin.
  discriminate.
Qed.

Lemma command_range_builtin ts times durations t_init i e :
  command_range ts times durations t_init i = inl e -> builtin_exn e.
Proof.
  unfold command_range, nearest_index. intros H.
  rbind_cases H; eauto with builtin. discriminate.
Qed.

#[local] Hint Resolve total_span_builtin quantize_span_builtin
  command_range_builtin : builtin.

Section SynthesisExceptions.

Variable np_power : float64 -> float64 -> float64.
Variable np_sin : float64 -> float64.
Variable np_pi : Q.

Lemma float_pow_builtin b x e :
  float_pow np_power b x = inl e -> builtin_exn e.
Proof.
  unfold float_pow.
  destruct (Qeq_bool b 0 && Qltb x 0); [intros H; inversion H; exact I|].
  destruct (Qltb b 0 && negb (is_integer x)); [intros H; inversion H; exact I|].
  destruct (np_power (Fin b) (Fin x)); intros H; inversion H; exact I.
Qed.

Lemma num_pow_builtin a x e :
  num_pow np_power a x = inl e -> builtin_exn e.
Proof.
  destruct a, x; simpl; try discriminate. apply float_pow_builtin.
Qed.

Lemma waveform_builtin c d_i steps e :
  waveform np_power np_sin np_pi c d_i steps = inl e -> builtin_exn e.
Proof.
  destruct c; cbv beta iota delta [waveform]; try discriminate. intros H.
  rbind_cases H; eauto using num_pow_builtin with builtin. discriminate.
Qed.

Lemma synth_command_builtin ts times durations t_init i c out e :
  synth_command np_power np_sin np_pi ts times durations t_init i c out = inl e ->
  builtin_exn e.
Proof.
  unfold synth_command. intros H.
  rbind_cases H; eauto using waveform_builtin with builtin.
Qed.

Lemma synth_loop_builtin ts times durations t_init cs : forall i out e,
  synth_loop np_power np_sin np_pi ts times durations t_init i cs out = inl e ->
  builtin_exn e.
Proof.
  induction cs as [|c cs IH]; simpl; intros i out e H; [discriminate|].
  rbind_cases H; eauto using synth_command_builtin.
Qed.

End SynthesisExceptions.

(* ===================================================================== *)
(** ** [generate_code]: the schedule error *)
(* ===================================================================== *)

Lemma getlast_durations_of cmds c_last :
  getlast cmds = inr c_last ->
  getlast (durations_of cmds) = inr (PyF (cmd_duration c_last)).
Proof.
  intros H. apply getlast_inr in H. destruct H as [Hne H].
  apply getlast_inr. split.
  - intros E. apply Hne. destruct cmds; [reflexivity | discriminate].
  - replace (length (durations_of cmds)) with (length cmds)
      by (unfold durations_of; now rewrite length_map).
    rewrite nth_error_durations_of, H. reflexivity.
Qed.

Lemma is_empty_false {A} (l : list A) : l <> [] -> is_empty l = false.
Proof. destruct l; [congruence | reflexivity]. Qed.

Section Compilation.

Variable np_power : float64 -> float64 -> float64.
Variable np_sin : float64 -> float64.
Variable np_pi : Q.

(** An error of duration resolution leaves [generate_code] before any
    later stage is entered. *)
Lemma generate_code_resolve_error self reached e :
  commands self <> [] ->
  resolve_durations (name self) (times_of (commands self))
                    (durations_of (commands self)) = inl e ->
  generate_code np_power np_sin np_pi self reached = (reached, inl e).
Proof.
  intros Hne Hres. unfold generate_code.
  rewrite (is_empty_false Hne). unfold bind, lift. rewrite Hres. reflexivity.
Qed.

(** Past duration resolution only Python and numpy raise. *)
Lemma generate_code_resolved_builtin self reached ds e :
  commands self <> [] ->
  resolve_durations (name self) (times_of (commands self))
                    (durations_of (commands self)) = inr ds ->
  snd (generate_code np_power np_sin np_pi self reached) = inl e ->
  builtin_exn e.
Proof.
  intros Hne Hres. unfold generate_code.
  rewrite (is_empty_false Hne). unfold bind, lift, enter, modify, ret.
  rewrite Hres.
  destruct (total_span _ ds) as [e1|span] eqn:Hspan;
    [simpl; intros H; inversion H; subst; eauto with builtin|].
  destruct (quantize_span (snd span)) as [e2|freq] eqn:Hfreq;
    [simpl; intros H; inversion H; subst; eauto with builtin|].
  destruct (np_linspace _ _ _) as [e3|ts] eqn:Hts;
    [simpl; intros H; inversion H; subst; eauto with builtin|].
  destruct (synth_loop _ _ _ _ _ _ _ _ _ _) as [e4|out] eqn:Hout;
    [simpl; intros H; inversion H; subst; eauto using synth_loop_builtin|].
  simpl. discriminate.
Qed.

(** C2.  For a non-empty command list, [generate_code] raises a
    LabscriptError exactly when the last command's duration equals 0; it
    then stops before the quantization, synthesis and storage stages are
    entered; otherwise duration resolution replaces every duration equal
    to 0 by the difference between the next start time and its own, by
    position, and keeps the others. *)
Theorem generate_code_schedule_error
    (self : device) (c_last : command) (reached : list stage) :
  getlast (commands self) = inr c_last ->
  ((exists msg, snd (generate_code np_power np_sin np_pi self reached) = inl (LabscriptError msg))
   <-> (cmd_duration c_last == 0)%Q) /\
  ((cmd_duration c_last == 0)%Q -> fst (generate_code np_power np_sin np_pi self reached) = reached) /\
  (~ (cmd_duration c_last == 0)%Q ->
   exists ds,
     resolve_durations (name self) (times_of (commands self))
                       (durations_of (commands self)) = inr ds /\
     forall i c, nth_error (commands self) i = Some c ->
       if Qeq_bool (cmd_duration c) 0
       then exists c', nth_error (commands self) (S i) = Some c' /\
                       nth_error ds i = Some (NpF (Fin (cmd_t c' - cmd_t c)))
       else nth_error ds i = Some (PyF (cmd_duration c))).
Proof.
  intros Hlast.
  assert (Hne : commands self <> [])
    by (apply getlast_inr in Hlast; tauto).
  assert (Hzero : (cmd_duration c_last == 0)%Q ->
                  exists msg, generate_code np_power np_sin np_pi self reached
                              = (reached, inl (LabscriptError msg))).
  { intros Hz. eexists. apply generate_code_resolve_error; [exact Hne|].
    unfold resolve_durations. rewrite (getlast_durations_of _ Hlast).
    unfold rbind. rewrite num_is_zero_PyF.
    apply Qeq_bool_iff in Hz. rewrite Hz. reflexivity. }
  split; [split|split].
  - intros [msg Hmsg].
    destruct (Qeq_bool (cmd_duration c_last) 0) eqn:Hz;
      [now apply Qeq_bool_iff|].
    destruct (resolve_durations_ok (name self) _ Hlast Hz) as [ds [Hds _]].
    exfalso.
    apply (generate_code_resolved_builtin self reached Hne Hds Hmsg).
  - intros Hz. destruct (Hzero Hz) as [msg Hmsg]. exists msg.
    rewrite Hmsg. reflexivity.
  - intros Hz. destruct (Hzero Hz) as [msg Hmsg]. rewrite Hmsg. reflexivity.
  - intros Hnz. apply Qeq_bool_false in Hnz.
    destruct (resolve_durations_ok (name self) _ Hlast Hnz) as [ds [Hds [_ Hnth]]].
    exists ds. split; assumption.
Qed.

(** What a successful run went through. *)
Lemma generate_code_inv self reached reached' art :
  generate_code np_power np_sin np_pi self reached = (reached', inr (Some art)) ->
  exists ds span freq ts,
    resolve_durations (name self) (times_of (commands self))
                      (durations_of (commands self)) = inr ds /\
    total_span (times_of (commands self)) ds = inr span /\
    quantize_span (snd span) = inr freq /\
    np_linspace (Fin 0) (to_np (snd freq)) (Z.of_nat n_points) = inr ts /\
    synth_loop np_power np_sin np_pi ts (times_of (commands self)) ds (fst span)
               0 (commands self) (repeat (Fin 0) n_points)
    = inr (out_values art) /\
    total_duration art = snd freq /\
    reached' = reached ++ [Quantization; Synthesis; Storage].
Proof.
  unfold generate_code.
  destruct (is_empty (commands self)); [unfold ret; intros H; inversion H|].
  unfold bind, lift, enter, modify, ret.
  destruct (resolve_durations _ _ _) as [e0|ds] eqn:Hds;
    [intros H; inversion H|].
  destruct (total_span _ ds) as [e1|span] eqn:Hspan; [intros H; inversion H|].
  destruct (quantize_span (snd span)) as [e2|freq] eqn:Hfreq;
    [intros H; inversion H|].
  destruct (np_linspace _ _ _) as [e3|ts] eqn:Hts; [intros H; inversion H|].
  destruct (synth_loop _ _ _ _ _ _ _ _ _ _) as [e4|out] eqn:Hout;
    intros H; inversion H; subst.
  exists ds, span, freq, ts. cbn [out_values total_duration].
  repeat (split; [first [assumption | reflexivity]|]).
  rewrite <- !app_assoc. reflexivity.
Qed.

End Compilation.

Lemma generate_code_schedule_error_witness :
  ((exists msg,
      snd (generate_code no_power no_sin pi_approx scenario_device [])
      = inl (LabscriptError msg))
   <-> (cmd_duration (linear_ramp_cmd (1 # 2) (1 # 2) (1 # 2) (1 # 10)) == 0)%Q) /\
  ((cmd_duration (linear_ramp_cmd (1 # 2) (1 # 2) (1 # 2) (1 # 10)) == 0)%Q ->
   fst (generate_code no_power no_sin pi_approx scenario_device []) = []) /\
  (~ (cmd_duration (linear_ramp_cmd (1 # 2) (1 # 2) (1 # 2) (1 # 10)) == 0)%Q ->
   exists ds,
     resolve_durations (name scenario_device)
                       (times_of (commands scenario_device))
                       (durations_of (commands scenario_device)) = inr ds /\
     forall i c, nth_error (commands scenario_device) i = Some c ->
       if Qeq_bool (cmd_duration c) 0
       then exists c', nth_error (commands scenario_device) (S i) = Some c' /\
                       nth_error ds i = Some (NpF (Fin (cmd_t c' - cmd_t c)))
       else nth_error ds i = Some (PyF (cmd_duration c))).
Proof.
  apply (@generate_code_schedule_error no_power no_sin pi_approx
           scenario_device (linear_ramp_cmd (1 # 2) (1 # 2) (1 # 2) (1 # 10)) []).
  reflexivity.
Defined.

(* ===================================================================== *)
(** ** Frequency quantization *)
(* ===================================================================== *)

Lemma freq_increment_pos : (0 < freq_increment)%Q.
Proof. reflexivity. Qed.

Lemma Qeq_bool_pos_false (q : Q) : (0 < q)%Q -> Qeq_bool q 0 = false.
Proof. intros H. apply Qeq_bool_false. lra. Qed.

(** The quantized frequency and the span recomputed from it, for a
    requested span [S > 0] (a Python float or a numpy scalar). *)
Lemma quantize_span_pos (total : num) (S : Q) :
  to_np total = Fin S -> (0 < S)%Q ->
  quantize_span total
  = inr (NpF (Fin (inject_Z (Qfloor (1 / S / freq_increment)) * freq_increment)),
         NpF (fdiv (Fin 1)
                   (Fin (inject_Z (Qfloor (1 / S / freq_increment)) * freq_increment)))).
Proof.
  intros Htotal HS. unfold quantize_span.
  assert (HS0 : Qeq_bool S 0 = false) by now apply Qeq_bool_pos_false.
  assert (Hf0 : Qeq_bool freq_increment 0 = false) by reflexivity.
  destruct total as [q|x]; cbn [to_np] in Htotal.
  - inversion Htotal; subst q. cbn [num_div]. rewrite HS0.
    cbn [rbind num_div]. rewrite Hf0. reflexivity.
  - subst x. cbn [num_div to_np fdiv]. rewrite HS0.
    cbn [rbind num_div to_np fdiv]. rewrite Hf0. reflexivity.
Qed.




Section Quantization.

Variable np_power : float64 -> float64 -> float64.
Variable np_sin : float64 -> float64.
Variable np_pi : Q.


End Quantization.


(* ===================================================================== *)
(** ** The progress ramp [steps = np.linspace(0, 1, t_end_idx - t_init_idx)] *)
(* ===================================================================== *)

Lemma arange_from_length k n : length (arange_from k n) = n.
Proof. revert k. induction n as [|n IH]; intros k; simpl; auto. Qed.

Lemma arange_from_nth n : forall k i,
  i < n ->
  nth_error (arange_from k n) i = Some (Fin (inject_Z (k + Z.of_nat i))).
Proof.
  induction n as [|n IH]; intros k i Hi; [lia|].
  destruct i as [|i].
  - cbn [arange_from nth_error Z.of_nat]. now rewrite Z.add_0_r.
  - cbn [arange_from nth_error]. rewrite IH by lia.
    do 3 f_equal. lia.
Qed.

Lemma inject_Z_pos (z : Z) : (0 < z)%Z -> (0 < inject_Z z)%Q.
Proof. intros H. change 0%Q with (inject_Z 0). now rewrite <- Zlt_Qlt. Qed.

(** The [n >= 1] values of [np.linspace(0, 1, n)]: [k / (n - 1)], with
    the single value 0 when [n = 1]. *)
Lemma unit_linspace_spec (n : nat) :
  1 <= n ->
  exists steps,
    np_linspace (Fin 0) (Fin 1) (Z.of_nat n) = inr steps /\
    length steps = n /\
    forall k, k < n ->
      exists u, nth_error steps k = Some u /\
                feq u (Fin (if n =? 1 then 0
                            else inject_Z (Z.of_nat k) / inject_Z (Z.of_nat (n - 1)))).
Proof.
  intros Hn. unfold np_linspace, np_arange.
  replace (Z.of_nat n <? 0)%Z with false by (symmetry; apply Z.ltb_ge; lia).
  rewrite Nat2Z.id.
  destruct (1 <? Z.of_nat n)%Z eqn:Hlt.
  - apply Z.ltb_lt in Hlt.
    replace (n =? 1) with false by (symmetry; apply Nat.eqb_neq; lia).
    replace (Z.of_nat n - 1)%Z with (Z.of_nat (n - 1)) by lia.
    assert (Hd : (0 < inject_Z (Z.of_nat (n - 1)))%Q)
      by (apply inject_Z_pos; lia).
    cbn [fsub fneg fadd fdiv]. rewrite (Qeq_bool_pos_false Hd).
    set (step := ((1 + - 0) / inject_Z (Z.of_nat (n - 1)))%Q).
    assert (Hstep : (0 < step)%Q).
    { unfold step. apply Qlt_shift_div_l; [exact Hd | lra]. }
    cbn [feqb]. rewrite (Qeq_bool_pos_false Hstep).
    eexists. split; [reflexivity|]. split.
    + now rewrite setitem_length, !length_map, arange_from_length.
    + intros k Hk. destruct (Nat.eq_dec k (n - 1)) as [->|Hne].
      * exists (Fin 1). split.
        -- apply nth_error_setitem_eq.
           rewrite !length_map, arange_from_length. lia.
        -- cbn [feq]. field. lra.
      * rewrite nth_error_setitem_neq by congruence.
        rewrite !nth_error_map, arange_from_nth by lia.
        eexists. split; [reflexivity|]. cbn [fmul fadd feq Z.add].
        unfold step. field. lra.
  - apply Z.ltb_ge in Hlt. assert (n = 1) by lia. subst n.
    eexists. split; [reflexivity|]. split; [reflexivity|].
    intros k Hk. assert (k = 0) by lia. subst k.
    eexists. split; [reflexivity|]. cbn. reflexivity.
Qed.

(* ===================================================================== *)
(** ** Slice assignment and the nearest-sample search *)
(* ===================================================================== *)

Lemma np_linspace_length start stop n l :
  np_linspace start stop n = inr l -> (0 <= n)%Z /\ length l = Z.to_nat n.
Proof.
  unfold np_linspace, np_arange. destruct (n <? 0)%Z eqn:Hn; [discriminate|].
  apply Z.ltb_ge in Hn. intros H. inversion H; subst l. clear H.
  split; [exact Hn|].
  destruct (1 <? n)%Z.
  - rewrite setitem_length. destruct (feqb _ _);
      now rewrite !length_map, arange_from_length.
  - now rewrite !length_map, arange_from_length.
Qed.

Lemma argmin_scan_bound ip : forall mp min_ind i,
  min_ind < i -> argmin_scan mp min_ind i ip < i + length ip.
Proof.
  induction ip as [|v ip IH]; intros mp min_ind i Hlt; simpl; [lia|].
  destruct (is_nan mp); [lia|].
  destruct (fltb mp v || feqb mp v).
  - specialize (IH mp min_ind (S i)). lia.
  - specialize (IH v i (S i)). lia.
Qed.

Lemma np_argmin_bound a k : np_argmin a = inr k -> k < length a.
Proof.
  destruct a as [|v a]; simpl; intros H; inversion H.
  pose proof (@argmin_scan_bound a v 0 1). lia.
Qed.

Lemma nearest_index_bound ts x k : nearest_index ts x = inr k -> k < length ts.
Proof.
  unfold nearest_index. intros H. apply np_argmin_bound in H.
  now rewrite length_map in H.
Qed.

Lemma command_range_bound ts times durations t_init i a b :
  command_range ts times durations t_init i = inr (a, b) ->
  a < length ts /\ b < length ts.
Proof.
  unfold command_range. intros H.
  apply rbind_inr_inv in H. destruct H as [t_i [_ H]].
  apply rbind_inr_inv in H. destruct H as [d_i [_ H]].
  apply rbind_inr_inv in H. destruct H as [a' [Ha H]].
  apply rbind_inr_inv in H. destruct H as [b' [Hb H]].
  inversion H; subst. split; eapply nearest_index_bound; eassumption.
Qed.

Lemma np_setslice_length buf a b vals buf' :
  np_setslice buf a b vals = inr buf' -> length buf' = length buf.
Proof.
  unfold np_setslice.
  set (a' := Nat.min a (length buf)).
  set (b' := Nat.max a' (Nat.min b (length buf))).
  assert (Ha : a' <= length buf) by (unfold a'; lia).
  assert (Hb : a' <= b' <= length buf) by (unfold b', a'; lia).
  destruct (length vals =? b' - a') eqn:E1.
  - apply Nat.eqb_eq in E1. intros H. inversion H.
    rewrite !length_app, length_firstn, length_skipn. lia.
  - destruct (length vals =? 1); intros H; inversion H.
    rewrite !length_app, length_firstn, length_skipn, repeat_length. lia.
Qed.

Lemma nth_error_splice {A} (buf mid : list A) a' b' k :
  a' <= b' <= length buf -> length mid = b' - a' ->
  nth_error (firstn a' buf ++ mid ++ skipn b' buf) k
  = if (a' <=? k) && (k <? b') then nth_error mid (k - a') else nth_error buf k.
Proof.
  intros Hab Hmid.
  assert (Hf : length (firstn a' buf) = a') by (rewrite length_firstn; lia).
  destruct (a' <=? k) eqn:E1; cbn [andb].
  - apply Nat.leb_le in E1.
    rewrite nth_error_app2 by lia. rewrite Hf.
    destruct (k <? b') eqn:E2.
    + apply Nat.ltb_lt in E2. apply nth_error_app1. lia.
    + apply Nat.ltb_ge in E2. rewrite nth_error_app2 by lia.
      rewrite nth_error_skipn. f_equal. lia.
  - apply Nat.leb_gt in E1. rewrite nth_error_app1 by lia.
    rewrite nth_error_firstn.
    replace (k <? a') with true by (symmetry; apply Nat.ltb_lt; lia).
    reflexivity.
Qed.

(** A slice assignment leaves every index outside [[a, b)] alone. *)
Lemma np_setslice_outside buf a b vals buf' k :
  np_setslice buf a b vals = inr buf' ->
  ~ (a <= k < b) ->
  nth_error buf' k = nth_error buf k.
Proof.
  unfold np_setslice.
  set (a' := Nat.min a (length buf)).
  set (b' := Nat.max a' (Nat.min b (length buf))).
  assert (Hb : a' <= b' <= length buf) by (unfold b', a'; lia).
  intros H Hout.
  assert (Hk : (a' <=? k) && (k <? b') = false).
  { apply andb_false_iff.
    destruct (Nat.leb_spec a' k); [right|left; reflexivity].
    apply Nat.ltb_ge. unfold b', a' in *. lia. }
  destruct (length vals =? b' - a') eqn:E1.
  - apply Nat.eqb_eq in E1. inversion H.
    rewrite nth_error_splice by assumption. now rewrite Hk.
  - destruct (length vals =? 1); inversion H.
    rewrite nth_error_splice by (try assumption; apply repeat_length).
    now rewrite Hk.
Qed.

(** A slice assignment of exactly [b - a] values inside the array. *)
Lemma np_setslice_inside buf a b vals buf' j :
  np_setslice buf a b vals = inr buf' ->
  a <= b <= length buf -> length vals = b - a -> j < b - a ->
  nth_error buf' (a + j) = nth_error vals j.
Proof.
  unfold np_setslice. intros H Hab Hlen Hj.
  replace (Nat.min a (length buf)) with a in H by lia.
  replace (Nat.max a (Nat.min b (length buf))) with b in H by lia.
  rewrite Hlen, Nat.eqb_refl in H. inversion H.
  rewrite nth_error_splice by assumption.
  replace (a <=? a + j) with true by (symmetry; apply Nat.leb_le; lia).
  replace (a + j <? b) with true by (symmetry; apply Nat.ltb_lt; lia).
  cbn [andb]. f_equal. lia.
Qed.

(* ===================================================================== *)
(** ** The synthesis loop *)
(* ===================================================================== *)


Lemma n_points_value : n_points = 16384.
Proof. reflexivity. Qed.

Section SynthesisLoop.

Variable np_power : float64 -> float64 -> float64.
Variable np_sin : float64 -> float64.
Variable np_pi : Q.

Lemma waveform_length c d_i steps out :
  waveform np_power np_sin np_pi c d_i steps = inr out ->
  length out = length steps.
Proof.
  destruct c; cbv beta iota delta [waveform]; intros H.
  - repeat (apply rbind_inr_inv in H; destruct H as [? [_ H]]; cbv zeta in H).
    inversion H. apply length_map.
  - inversion H. apply length_map.
  - inversion H. apply repeat_length.
  - inversion H. apply length_map.
Qed.

(** What one successful iteration did. *)
Lemma synth_command_inv ts times durations t_init i c out out' :
  synth_command np_power np_sin np_pi ts times durations t_init i c out = inr out' ->
  exists a b steps d_i vals,
    command_range ts times durations t_init i = inr (a, b) /\
    np_linspace (Fin 0) (Fin 1) (Z.of_nat b - Z.of_nat a) = inr steps /\
    getitem durations i = inr d_i /\
    waveform np_power np_sin np_pi c d_i steps = inr vals /\
    np_setslice out a b vals = inr out' /\
    a <= b /\ length vals = b - a.
Proof.
  unfold synth_command. intros H.
  apply rbind_inr_inv in H. destruct H as [[a b] [Hr H]].
  apply rbind_inr_inv in H. destruct H as [steps [Hs H]].
  apply rbind_inr_inv in H. destruct H as [d_i [Hd H]].
  apply rbind_inr_inv in H. destruct H as [vals [Hw H]].
  exists a, b, steps, d_i, vals. repeat (split; [assumption|]).
  apply np_linspace_length in Hs. apply waveform_length in Hw.
  split; lia.
Qed.

Lemma synth_command_length ts times durations t_init i c out out' :
  synth_command np_power np_sin np_pi ts times durations t_init i c out = inr out' ->
  length out' = length out.
Proof.
  intros H. apply synth_command_inv in H.
  destruct H as (a & b & steps & d_i & vals & _ & _ & _ & _ & Hset & _).
  eapply np_setslice_length; eassumption.
Qed.

(** The loop keeps the length of the array, and leaves alone every index
    that lies outside the ranges of the commands it processes. *)
Lemma synth_loop_untouched ts times durations t_init cs : forall i out out',
  synth_loop np_power np_sin np_pi ts times durations t_init i cs out = inr out' ->
  length out' = length out /\
  forall k,
    (forall j a b, j < length cs ->
       command_range ts times durations t_init (i + j) = inr (a, b) ->
       ~ (a <= k < b)) ->
    nth_error out' k = nth_error out k.
Proof.
  induction cs as [|c cs IH]; intros i out out' H.
  - inversion H. split; reflexivity.
  - cbn [synth_loop] in H.
    apply rbind_inr_inv in H. destruct H as [out1 [H1 H]].
    destruct (IH _ _ _ H) as [Hlen Hnth].
    pose proof (synth_command_length _ _ _ _ _ _ _ H1) as Hlen1.
    split; [congruence|]. intros k Hk.
    rewrite Hnth.
    + apply synth_command_inv in H1.
      destruct H1 as (a & b & steps & d_i & vals & Hr & _ & _ & _ & Hset & _).
      eapply np_setslice_outside; [eassumption|].
      apply (Hk 0 a b); [cbn; lia | now rewrite Nat.add_0_r].
    + intros j a b Hj Hr. apply (Hk (S j) a b); [cbn; lia|].
      now rewrite Nat.add_succ_r.
Qed.

(** The loop reaches command [j] with an array of the original length,
    and runs the remaining commands on what that iteration returns. *)
Lemma synth_loop_split ts times durations t_init cs : forall i out out' j c,
  synth_loop np_power np_sin np_pi ts times durations t_init i cs out = inr out' ->
  nth_error cs j = Some c ->
  exists out_j out_j',
    length out_j = length out /\
    synth_command np_power np_sin np_pi ts times durations t_init (i + j) c out_j
    = inr out_j' /\
    synth_loop np_power np_sin np_pi ts times durations t_init (S (i + j))
               (skipn (S j) cs) out_j' = inr out'.
Proof.
  induction cs as [|c0 cs IH]; intros i out out' j c H Hj.
  - destruct j; discriminate.
  - cbn [synth_loop] in H.
    apply rbind_inr_inv in H. destruct H as [out1 [H1 H]].
    destruct j as [|j].
    + cbn in Hj. inversion Hj; subst c0. exists out, out1.
      rewrite Nat.add_0_r. split; [reflexivity|]. split; assumption.
    + cbn in Hj. destruct (IH _ _ _ _ _ H Hj) as (out_j & out_j' & Hl & Hc & Hrest).
      exists out_j, out_j'. rewrite Nat.add_succ_r.
      split; [|split; assumption].
      rewrite Hl. eapply synth_command_length; eassumption.
Qed.

End SynthesisLoop.

Section Samples.

Variable np_power : float64 -> float64 -> float64.
Variable np_sin : float64 -> float64.
Variable np_pi : Q.

(** On a successful run, [sample_range] is the range the loop used. *)
Lemma sample_range_of_run self ds span freq ts j :
  resolve_durations (name self) (times_of (commands self))
                    (durations_of (commands self)) = inr ds ->
  total_span (times_of (commands self)) ds = inr span ->
  quantize_span (snd span) = inr freq ->
  np_linspace (Fin 0) (to_np (snd freq)) (Z.of_nat n_points) = inr ts ->
  sample_range self j
  = command_range ts (times_of (commands self)) ds (fst span) j.
Proof.
  intros Hds Hspan Hfreq Hts. unfold sample_range.
  rewrite Hds. cbn [rbind]. rewrite Hspan. cbn [rbind].
  rewrite Hfreq. cbn [rbind]. rewrite Hts. reflexivity.
Qed.

(** C5 (as amended).  For a command whose sample range
    [[t_init_idx, t_end_idx)] has width [n > 0], the progress values its
    waveform is evaluated on are those of [np.linspace(0, 1, n)]: there
    are [n] of them, [u_k = k / (n - 1)] when [n >= 2] (so the last one
    is 1), and the single value 0 when [n = 1]. *)
Theorem progress_ramp_includes_endpoint
    (ts : list float64) (times : list Q) (durations : list num) (t_init : Q)
    (i : nat) (c : command) (out : list float64) (a b : nat) :
  command_range ts times durations t_init i = inr (a, b) ->
  a < b ->
  exists steps,
    synth_command np_power np_sin np_pi ts times durations t_init i c out
    = (try d_i := getitem durations i in
       try vals := waveform np_power np_sin np_pi c d_i steps in
       np_setslice out a b vals) /\
    length steps = b - a /\
    forall k, k < b - a ->
      exists u, nth_error steps k = Some u /\
                feq u (Fin (if b - a =? 1 then 0
                            else inject_Z (Z.of_nat k)
                                 / inject_Z (Z.of_nat (b - a - 1)))).
Proof.
  intros Hr Hab.
  destruct (@unit_linspace_spec (b - a)) as [steps [Hs [Hlen Hu]]]; [lia|].
  exists steps. split; [|split; assumption].
  unfold synth_command. rewrite Hr. cbn [rbind].
  replace (Z.of_nat b - Z.of_nat a)%Z with (Z.of_nat (b - a)) by lia.
  rewrite Hs. reflexivity.
Qed.

(** C7.  The stored [out_values] has exactly 16384 elements, and every
    index that lies in no command's range [[t_init_idx, t_end_idx)] still
    holds the 0 of [np.zeros]. *)
Theorem untouched_samples_stay_zero
    (self : device) (reached reached' : list stage) (art : artifact) :
  generate_code np_power np_sin np_pi self reached = (reached', inr (Some art)) ->
  length (out_values art) = 16384 /\
  forall k, k < 16384 ->
    (forall j a b, sample_range self j = inr (a, b) -> ~ (a <= k < b)) ->
    nth_error (out_values art) k = Some (Fin 0).
Proof.
  intros H. apply generate_code_inv in H.
  destruct H as (ds & span & freq & ts & Hds & Hspan & Hfreq & Hts & Hloop & _).
  apply synth_loop_untouched in Hloop. destruct Hloop as [Hlen Hnth].
  rewrite repeat_length in Hlen. rewrite <- n_points_value.
  split; [exact Hlen|]. intros k Hk Hout.
  rewrite Hnth.
  - apply nth_error_repeat. exact Hk.
  - intros j a b _ Hr. apply (Hout j a b).
    rewrite (sample_range_of_run self j Hds Hspan Hfreq Hts). exact Hr.
Qed.

(** C6.  A linear ramp whose sample range [[a, b)] has width at least 2,
    and whose first and last samples lie in no later command's range,
    starts at [init_volt] and ends at [final_volt] in the stored array:
    [out_values[a] = init_volt] and [out_values[b - 1] = final_volt]. *)
Theorem linear_ramp_boundary_samples
    (self : device) (reached reached' : list stage) (art : artifact)
    (i : nat) (t duration init_volt final_volt : Q) (a b : nat) :
  generate_code np_power np_sin np_pi self reached = (reached', inr (Some art)) ->
  nth_error (commands self) i
  = Some (linear_ramp_cmd t duration init_volt final_volt) ->
  sample_range self i = inr (a, b) ->
  a + 2 <= b ->
  (forall j a' b', i < j -> sample_range self j = inr (a', b') ->
                   ~ (a' <= a < b') /\ ~ (a' <= b - 1 < b')) ->
  exists first last,
    nth_error (out_values art) a = Some first /\ feq first (Fin init_volt) /\
    nth_error (out_values art) (b - 1) = Some last /\ feq last (Fin final_volt).
Proof.
  intros H Hc Hr Hab Hlater. apply generate_code_inv in H.
  destruct H as (ds & span & freq & ts & Hds & Hspan & Hfreq & Hts & Hloop & _).
  assert (Hsr : forall j, sample_range self j
                = command_range ts (times_of (commands self)) ds (fst span) j)
    by (intros j; now apply sample_range_of_run with (freq := freq)).
  rewrite Hsr in Hr.
  destruct (@synth_loop_split np_power np_sin np_pi _ _ _ _ _ _ _ _ _ _ Hloop Hc)
    as (out_j & out_j' & Hlen & Hcmd & Hrest).
  cbn [Nat.add] in Hcmd, Hrest.
  (* the later commands do not touch the two samples *)
  apply synth_loop_untouched in Hrest. destruct Hrest as [_ Hkeep].
  assert (Hkeep' : forall k, k = a \/ k = b - 1 ->
                     nth_error (out_values art) k = nth_error out_j' k).
  { intros k Hk. apply Hkeep. intros j a' b' _ Hr'.
    rewrite <- Hsr in Hr'.
    destruct (Hlater (S i + j) a' b') as [H1 H2]; [lia | exact Hr' |].
    destruct Hk; subst k; assumption. }
  (* the ramp's own iteration *)
  apply synth_command_inv in Hcmd.
  destruct Hcmd as (a0 & b0 & steps & d_i & vals & Hr0 & Hs & _ & Hw & Hset & _ & Hvl).
  rewrite Hr in Hr0. inversion Hr0; subst a0 b0. clear Hr0.
  apply command_range_bound in Hr.
  apply np_linspace_length in Hts. rewrite Nat2Z.id in Hts.
  rewrite repeat_length in Hlen.
  assert (Hb : a <= b <= length out_j) by lia.
  destruct (@unit_linspace_spec (b - a)) as [steps' [Hs' [Hsl Hu]]]; [lia|].
  replace (Z.of_nat b - Z.of_nat a)%Z with (Z.of_nat (b - a)) in Hs by lia.
  rewrite Hs in Hs'. inversion Hs'; subst steps'. clear Hs'.
  replace (b - a =? 1) with false in Hu by (symmetry; apply Nat.eqb_neq; lia).
  cbv beta iota delta [waveform] in Hw. inversion Hw; subst vals. clear Hw.
  destruct (Hu 0) as [u0 [Hu0 Hfeq0]]; [lia|].
  destruct (Hu (b - a - 1)) as [u1 [Hu1 Hfeq1]]; [lia|].
  assert (Hd : (0 < inject_Z (Z.of_nat (b - a - 1)))%Q)
    by (apply inject_Z_pos; lia).
  eexists. eexists. split; [|split; [|split]].
  - rewrite (Hkeep' a) by (now left).
    replace a with (a + 0) at 1 by lia.
    rewrite (np_setslice_inside _ _ Hset Hb Hvl) by lia.
    rewrite nth_error_map, Hu0. reflexivity.
  - destruct u0 as [q| | |]; cbn [feq] in Hfeq0; try contradiction.
    cbn [fmul fadd feq]. rewrite Hfeq0. change (inject_Z (Z.of_nat 0)) with 0%Q.
    field. lra.
  - rewrite (Hkeep' (b - 1)) by (now right).
    replace (b - 1) with (a + (b - a - 1)) at 1 by lia.
    rewrite (np_setslice_inside _ _ Hset Hb Hvl) by lia.
    rewrite nth_error_map, Hu1. reflexivity.
  - destruct u1 as [q| | |]; cbn [feq] in Hfeq1; try contradiction.
    cbn [fmul fadd feq]. rewrite Hfeq1. field. lra.
Qed.

End Samples.

(** A grid of four samples, one second apart, and on it a linear ramp from
    0 to 1 that lasts two seconds: its range is [[0, 2)]. *)
Lemma progress_ramp_includes_endpoint_witness :
  exists steps,
    synth_command no_power no_sin pi_approx [Fin 0; Fin 1; Fin 2; Fin 3]
                  [0%Q] [PyF 2] 0 0 (linear_ramp_cmd 0 2 0 1)
                  [Fin 0; Fin 0; Fin 0; Fin 0]
    = (try d_i := getitem [PyF 2] 0 in
       try vals := waveform no_power no_sin pi_approx (linear_ramp_cmd 0 2 0 1)
                            d_i steps in
       np_setslice [Fin 0; Fin 0; Fin 0; Fin 0] 0 2 vals) /\
    length steps = 2 - 0 /\
    forall k, k < 2 - 0 ->
      exists u, nth_error steps k = Some u /\
                feq u (Fin (if 2 - 0 =? 1 then 0
                            else inject_Z (Z.of_nat k)
                                 / inject_Z (Z.of_nat (2 - 0 - 1)))).
Proof.
  apply (@progress_ramp_includes_endpoint no_power no_sin pi_approx
           [Fin 0; Fin 1; Fin 2; Fin 3] [0%Q] [PyF 2] 0%Q 0
           (linear_ramp_cmd 0 2 0 1) [Fin 0; Fin 0; Fin 0; Fin 0] 0 2).
  - reflexivity.
  - lia.
Defined.

(** C5 as stated fails on that ramp: its range has width 2, and the second
    progress value is 1, not [1 / (t_end_idx - t_init_idx) = 1/2]; the
    sample written at index 1 is the final voltage. *)
Lemma progress_ramp_of_width_two_reaches_one :
  command_range [Fin 0; Fin 1; Fin 2; Fin 3] [0%Q] [PyF 2] 0 0 = inr (0, 2) /\
  (exists u0,
     np_linspace (Fin 0) (Fin 1) (Z.of_nat 2 - Z.of_nat 0) = inr [u0; Fin 1]) /\
  ~ feq (Fin 1) (Fin (1 / 2)) /\
  (exists v0,
     synth_command no_power no_sin pi_approx [Fin 0; Fin 1; Fin 2; Fin 3]
                   [0%Q] [PyF 2] 0 0 (linear_ramp_cmd 0 2 0 1)
                   [Fin 0; Fin 0; Fin 0; Fin 0]
     = inr [v0; Fin ((1 - 0) * 1 + 0); Fin 0; Fin 0]).
Proof.
  split; [reflexivity|]. split; [eexists; reflexivity|].
  split; [|eexists; reflexivity].
  cbn [feq]. intros H. discriminate H.
Qed.

Lemma sample_range_in_commands self j a b :
  sample_range self j = inr (a, b) -> j < length (commands self).
Proof.
  unfold sample_range. intros H.
  do 4 (apply rbind_inr_inv in H; destruct H as [? [_ H]]).
  unfold command_range in H.
  apply rbind_inr_inv in H. destruct H as [t_j [Ht _]].
  apply getitem_inr in Ht.
  assert (j < length (times_of (commands self)))
    by (apply nth_error_Some; congruence).
  unfold times_of in *. now rewrite length_map in *.
Qed.

Lemma untouched_samples_stay_zero_witness :
  length (out_values scenario_artifact) = 16384 /\
  forall k, k < 16384 ->
    (forall j a b, sample_range scenario_device j = inr (a, b) -> ~ (a <= k < b)) ->
    nth_error (out_values scenario_artifact) k = Some (Fin 0).
Proof.
  apply (@untouched_samples_stay_zero no_power no_sin pi_approx
           scenario_device [] [Quantization; Synthesis; Storage]
           scenario_artifact).
  vm_compute. reflexivity.
Defined.

(** In the scenario the ramp is the last command and occupies
    [[7629, 15258)]. *)
Lemma linear_ramp_boundary_samples_witness :
  exists first last,
    nth_error (out_values scenario_artifact) 7629 = Some first /\
    feq first (Fin (1 # 2)) /\
    nth_error (out_values scenario_artifact) (15258 - 1) = Some last /\
    feq last (Fin (1 # 10)).
Proof.
  apply (@linear_ramp_boundary_samples no_power no_sin pi_approx
           scenario_device [] [Quantization; Synthesis; Storage]
           scenario_artifact 1 (1 # 2) (1 # 2) (1 # 2) (1 # 10) 7629 15258).
  - vm_compute. reflexivity.
  - reflexivity.
  - vm_compute. reflexivity.
  - apply Nat.leb_le. vm_compute. reflexivity.
  - intros j a' b' Hj Hr. apply sample_range_in_commands in Hr.
    cbn in Hr. lia.
Defined.

(* ===================================================================== *)
(** ** The attribute quantizer *)
(* ===================================================================== *)

Lemma py_round_integer (x : Q) (n : Z) : (x == inject_Z n)%Q -> py_round x = n.
Proof.
  intros H. unfold py_round.
  assert (Hf : Qfloor x = n) by (rewrite H; apply Qfloor_Z).
  rewrite Hf.
  assert (Hc : (x - inject_Z n ?= 1 # 2)%Q = Lt).
  { apply Qlt_alt.
    assert (E : (x - inject_Z n == 0)%Q) by (rewrite H; ring).
    rewrite E. reflexivity. }
  rewrite Hc. reflexivity.
Qed.

(** Quantizing a multiple of the step gives it back. *)
Lemma nearest_multiple_fixed (step x : Q) :
  ~ (step == 0)%Q ->
  nearest_multiple step (nearest_multiple step x) = nearest_multiple step x.
Proof.
  intros Hstep. unfold nearest_multiple at 1.
  rewrite (@py_round_integer (nearest_multiple step x / step) (py_round (x / step))).
  - reflexivity.
  - unfold nearest_multiple. field. exact Hstep.
Qed.


(** C9.  Snapping a value to the nearest multiple of the hardware step,
    [step * round(x / step)], is idempotent for the three steps in use
    (1.22070e-4 for amplitude and offset, 1.16415e-1 for frequency), and
    so is [update_attributes] on the spin boxes: a second call leaves the
    values of the first. *)
Theorem attribute_quantizer_idempotent :
  (forall x : Q,
     nearest_multiple (12207 # 100000000)
                      (nearest_multiple (12207 # 100000000) x)
     = nearest_multiple (12207 # 100000000) x) /\
  (forall x : Q,
     nearest_multiple (116415 # 1000000)
                      (nearest_multiple (116415 # 1000000) x)
     = nearest_multiple (116415 # 1000000) x) /\
  (forall (which_attr : string) (self : tab),
     spinboxes (fst (update_attributes which_attr
                       (fst (update_attributes which_attr self))))
     = spinboxes (fst (update_attributes which_attr self))).
Proof.
  assert (Ha : forall x, nearest_multiple amplitude_step
                           (nearest_multiple amplitude_step x)
                         = nearest_multiple amplitude_step x)
    by (intros x; apply nearest_multiple_fixed; discriminate).
  assert (Hf : forall x, nearest_multiple frequency_step
                           (nearest_multiple frequency_step x)
                         = nearest_multiple frequency_step x)
    by (intros x; apply nearest_multiple_fixed; discriminate).
  split; [exact Ha|]. split; [exact Hf|].
  intros which_attr self.
  unfold update_attributes, bind, get, ret, raise, modify, queue_work.
  destruct (String.eqb which_attr "waveform"); [reflexivity|].
  destruct (String.eqb which_attr "amplitude");
    [unfold spinboxes; cbn; now rewrite Ha|].
  destruct (String.eqb which_attr "offset");
    [unfold spinboxes, offset_step; cbn; now rewrite Ha|].
  destruct (String.eqb which_attr "frequency");
    [unfold spinboxes; cbn; now rewrite Hf|].
  reflexivity.
Qed.

(* ===================================================================== *)
(** ** Transition to manual *)
(* ===================================================================== *)


Lemma reset_secondary_workers_spec (secondary_reply : string -> bool)
    (workers : list string) : forall (success : bool) (self : tab),
  reset_secondary_workers secondary_reply workers success self
  = (set_work_requests (work_requests self ++ map reset_request workers) self,
     inr (success && forallb secondary_reply workers)).
Proof.
  induction workers as [|w workers IH]; intros success self.
  - cbn. rewrite app_nil_r, andb_true_r. destruct self; reflexivity.
  - cbn [reset_secondary_workers]. unfold bind, queue_work, modify.
    rewrite IH. f_equal.
    + unfold set_work_requests. cbn. now rewrite <- app_assoc.
    + cbn [forallb]. destruct (secondary_reply w), success; reflexivity.
Qed.

Lemma show_final_value_frame (self : tab) (item : string * Q) :
  let self' := show_final_value self item in
  device_name self' = device_name self /\ tab_mode self' = tab_mode self /\
  work_requests self' = work_requests self /\
  notify_queue self' = notify_queue self.
Proof.
  destruct item as [channel value]. unfold show_final_value.
  destruct (has_channel channel (AO self)); [cbn; auto|].
  destruct (has_channel channel (DO self)); [cbn; auto|].
  destruct (has_channel channel (image self)); [cbn; auto|].
  destruct (has_channel channel (DDS self)); cbn; auto.
Qed.

Lemma show_final_values_frame (items : list (string * Q)) : forall self : tab,
  let self' := fold_left show_final_value items self in
  device_name self' = device_name self /\ tab_mode self' = tab_mode self /\
  work_requests self' = work_requests self /\
  notify_queue self' = notify_queue self.
Proof.
  induction items as [|item items IH]; intros self; cbn [fold_left].
  - auto.
  - destruct (IH (show_final_value self item)) as (H1 & H2 & H3 & H4).
    destruct (show_final_value_frame self item) as (G1 & G2 & G3 & G4).
    cbv zeta. repeat split; congruence.
Qed.

(** C8.  In [transition_to_manual], after the primary worker has
    answered, a reset is requested from every secondary worker, in order
    and whatever the earlier ones answered; the overall result is the
    conjunction of all the answers; on success the mode becomes
    MODE_MANUAL, otherwise a 'fail' notification is put on the queue and
    an exception telling that the device must be restarted is raised. *)
Theorem transition_to_manual_resets_every_worker
    (success : bool) (attrs : attr_dict) (secondary_reply : string -> bool)
    (program : bool) (self : tab) :
  let run := transition_to_manual (success, attrs) secondary_reply program self in
  let overall := success && forallb secondary_reply (secondary_workers self) in
  work_requests (fst run)
  = work_requests self
    ++ reset_request (primary_worker self)
       :: map reset_request (secondary_workers self) /\
  if overall then
    snd run = inr tt /\
    tab_mode (fst run) = MODE_MANUAL /\
    notify_queue (fst run) = notify_queue self ++ [(device_name self, "success"%string)]
  else
    snd run
    = inl (Exception
             "Could not transition to manual. You must restart this device to continue") /\
    tab_mode (fst run) = MODE_TRANSITION_TO_MANUAL /\
    notify_queue (fst run) = notify_queue self ++ [(device_name self, "fail"%string)].
Proof.
  cbv zeta.
  remember (transition_to_manual (success, attrs) secondary_reply program self)
    as run eqn:Hrun.
  unfold transition_to_manual, bind, get, queue_work, show_final_values,
    notify, raise in Hrun.
  unfold modify in Hrun. cbv beta iota in Hrun.
  rewrite reset_secondary_workers_spec in Hrun.
  match type of Hrun with
  | context [fold_left show_final_value ?l ?s] =>
      pose proof (show_final_values_frame l s) as F; cbv zeta in F;
      remember (fold_left show_final_value l s) as shown eqn:Hshown;
      clear Hshown
  end.
  destruct F as (F1 & F2 & F3 & F4). cbn in F1, F2, F3, F4.
  cbn [secondary_workers set_ui set_work_requests set_mode] in Hrun.
  destruct (success && forallb secondary_reply (secondary_workers self)).
  - destruct program; subst run; cbn; rewrite F1, F3, F4, <- app_assoc; auto.
  - subst run; cbn. rewrite F1, F2, F3, F4, <- app_assoc. auto.
Qed.

(* ===================================================================== *)
(** ** Quantization in double precision *)
(* ===================================================================== *)


(* ===================================================================== *)
(** ** Scripts of command calls *)
(* ===================================================================== *)

Lemma do_call_ok (c : call) (self self' : device) :
  do_call c self = (self', inr tt) ->
  commands self' = commands self ++ [command_of_call c] /\
  parent_triggers self'
  = parent_triggers self
    ++ (if is_empty (commands self) then [(call_t c, trig_duration self)] else []) /\
  name self' = name self /\ trig_duration self' = trig_duration self.
Proof.
  destruct c; cbn [do_call command_of_call];
    unfold power_ramp, linear_ramp, constant, sine, trigger_if_first, bind, get,
      trigger, append_command, modify, ret, raise, call_t;
    destruct (is_empty (commands self)) eqn:He;
    cbn [name trig_duration commands parent_triggers set_parent_triggers
           set_commands command_of_call cmd_t];
    try (destruct (Qltb time_const duration); [discriminate|];
         destruct (Qle_bool init_volt final_volt); [discriminate|]);
    intros H; inversion H; subst; cbn; rewrite ?app_nil_r; auto.
Qed.

(** X1.  A script whose calls all succeed appends one command per call, in
    call order, and sends the parent exactly one trigger, at the time of
    the first call, if the device had no command before (none
    otherwise). *)
Theorem script_appends_in_order_and_triggers_once
    (cs : list call) (self self' : device) :
  run_script cs self = (self', inr tt) ->
  commands self' = commands self ++ map command_of_call cs /\
  parent_triggers self'
  = parent_triggers self
    ++ match cs with
       | c :: _ =>
           if is_empty (commands self) then [(call_t c, trig_duration self)] else []
       | [] => []
       end.
Proof.
  revert self. induction cs as [|c cs IH]; intros self H.
  - inversion H; subst. cbn. now rewrite !app_nil_r.
  - cbn [run_script] in H. unfold bind in H.
    destruct (do_call c self) as [self1 [e|[]]] eqn:Hc; [discriminate|].
    apply do_call_ok in Hc. destruct Hc as (Hc1 & Hc2 & _ & Hc4).
    apply IH in H. destruct H as [H1 H2].
    rewrite H1, H2, Hc1, Hc2. cbn [map]. rewrite <- !app_assoc. cbn [app].
    split; [reflexivity|]. f_equal.
    replace (is_empty (commands self ++ [command_of_call c])) with false
      by (destruct (commands self); reflexivity).
    destruct cs; now rewrite ?app_nil_r.
Qed.

Lemma script_appends_in_order_and_triggers_once_witness :
  commands (fst (run_script [call_constant 0 0 (1 # 2);
                             call_linear_ramp (1 # 2) (1 # 2) (1 # 2) (1 # 10)]
                            (new_device "rp" (Some 1%Q))))
  = commands (new_device "rp" (Some 1%Q))
    ++ map command_of_call [call_constant 0 0 (1 # 2);
                            call_linear_ramp (1 # 2) (1 # 2) (1 # 2) (1 # 10)] /\
  parent_triggers (fst (run_script [call_constant 0 0 (1 # 2);
                                    call_linear_ramp (1 # 2) (1 # 2) (1 # 2) (1 # 10)]
                                   (new_device "rp" (Some 1%Q))))
  = parent_triggers (new_device "rp" (Some 1%Q))
    ++ (if is_empty (commands (new_device "rp" (Some 1%Q)))
        then [(call_t (call_constant 0 0 (1 # 2)),
               trig_duration (new_device "rp" (Some 1%Q)))]
        else []).
Proof.
  apply (@script_appends_in_order_and_triggers_once
           [call_constant 0 0 (1 # 2);
            call_linear_ramp (1 # 2) (1 # 2) (1 # 2) (1 # 10)]
           (new_device "rp" (Some 1%Q))).
  reflexivity.
Defined.

(* ===================================================================== *)
(** ** What a sample of the compiled array holds *)
(* ===================================================================== *)

Section WrittenSamples.

Variable np_power : float64 -> float64 -> float64.
Variable np_sin : float64 -> float64.
Variable np_pi : Q.

(** In the loop, a sample of a command's range that no later range
    contains keeps the value that command wrote. *)
Lemma synth_loop_last_writer ts times ds t_init cs out0 out i c a b k :
  synth_loop np_power np_sin np_pi ts times ds t_init 0 cs out0 = inr out ->
  length out0 = length ts ->
  nth_error cs i = Some c ->
  command_range ts times ds t_init i = inr (a, b) ->
  a <= k < b ->
  (forall j a' b', i < j ->
     command_range ts times ds t_init j = inr (a', b') -> ~ (a' <= k < b')) ->
  exists steps d_i vals,
    np_linspace (Fin 0) (Fin 1) (Z.of_nat (b - a)) = inr steps /\
    getitem ds i = inr d_i /\
    waveform np_power np_sin np_pi c d_i steps = inr vals /\
    length vals = b - a /\
    nth_error out k = nth_error vals (k - a).
Proof.
  intros Hloop Hlen0 Hc Hr Hk Hlater.
  destruct (@synth_loop_split np_power np_sin np_pi _ _ _ _ _ _ _ _ _ _ Hloop Hc)
    as (out_j & out_j' & Hlen & Hcmd & Hrest).
  cbn [Nat.add] in Hcmd, Hrest.
  apply synth_loop_untouched in Hrest. destruct Hrest as [_ Hkeep].
  rewrite (Hkeep k).
  - apply synth_command_inv in Hcmd.
    destruct Hcmd as (a0 & b0 & steps & d_i & vals & Hr0 & Hs & Hd & Hw & Hset & _ & Hvl).
    rewrite Hr in Hr0. inversion Hr0; subst a0 b0. clear Hr0.
    apply command_range_bound in Hr.
    replace (Z.of_nat b - Z.of_nat a)%Z with (Z.of_nat (b - a)) in Hs by lia.
    exists steps, d_i, vals. repeat (split; [assumption|]).
    replace k with (a + (k - a)) at 1 by lia.
    apply (np_setslice_inside _ _ Hset); lia.
  - intros j a' b' _ Hr'. apply (Hlater (S i + j) a' b'); [lia | exact Hr'].
Qed.

(** The same for a whole run of [generate_code]. *)
Lemma compiled_sample_of_last_writer
    (self : device) (reached reached' : list stage) (art : artifact)
    (i : nat) (c : command) (a b k : nat) :
  generate_code np_power np_sin np_pi self reached = (reached', inr (Some art)) ->
  nth_error (commands self) i = Some c ->
  sample_range self i = inr (a, b) ->
  a <= k < b ->
  (forall j a' b', i < j -> sample_range self j = inr (a', b') ->
                   ~ (a' <= k < b')) ->
  exists ds d_i steps vals,
    resolve_durations (name self) (times_of (commands self))
                      (durations_of (commands self)) = inr ds /\
    getitem ds i = inr d_i /\
    np_linspace (Fin 0) (Fin 1) (Z.of_nat (b - a)) = inr steps /\
    waveform np_power np_sin np_pi c d_i steps = inr vals /\
    length vals = b - a /\
    nth_error (out_values art) k = nth_error vals (k - a).
Proof.
  intros H Hc Hr Hk Hlater. apply generate_code_inv in H.
  destruct H as (ds & span & freq & ts & Hds & Hspan & Hfreq & Hts & Hloop & _).
  assert (Hsr : forall j, sample_range self j
                = command_range ts (times_of (commands self)) ds (fst span) j)
    by (intros j; now apply sample_range_of_run with (freq := freq)).
  rewrite Hsr in Hr.
  apply np_linspace_length in Hts. rewrite Nat2Z.id in Hts.
  destruct (@synth_loop_last_writer _ _ _ _ _ _ _ i c a b k Hloop) as
    (steps & d_i & vals & Hs & Hd & Hw & Hvl & Hnth);
    try assumption.
  - rewrite repeat_length. now symmetry.
  - intros j a' b' Hj Hr'. rewrite <- Hsr in Hr'. eauto.
  - exists ds, d_i, steps, vals. repeat (split; [assumption|]). exact Hnth.
Qed.

(** X2.  Last write wins: in the stored array, a sample that lies in the
    range of command [i] and in the range of no later command holds the
    value command [i] computed for it, whatever earlier commands wrote
    there. *)
Theorem last_write_wins
    (self : device) (reached reached' : list stage) (art : artifact)
    (i : nat) (c : command) (a b k : nat) :
  generate_code np_power np_sin np_pi self reached = (reached', inr (Some art)) ->
  nth_error (commands self) i = Some c ->
  sample_range self i = inr (a, b) ->
  a <= k < b ->
  (forall j a' b', i < j -> sample_range self j = inr (a', b') ->
                   ~ (a' <= k < b')) ->
  exists ds d_i steps vals,
    resolve_durations (name self) (times_of (commands self))
                      (durations_of (commands self)) = inr ds /\
    getitem ds i = inr d_i /\
    np_linspace (Fin 0) (Fin 1) (Z.of_nat (b - a)) = inr steps /\
    waveform np_power np_sin np_pi c d_i steps = inr vals /\
    length vals = b - a /\
    nth_error (out_values art) k = nth_error vals (k - a).
Proof.
  intros H Hc Hr Hk Hlater.
  exact (compiled_sample_of_last_writer _ _ H Hc Hr Hk Hlater).
Qed.

(** X3.  A hold is flat: every sample of the range of a [constant]
    command that lies in no later range equals its [volt]. *)
Theorem constant_fills_its_range
    (self : device) (reached reached' : list stage) (art : artifact)
    (i : nat) (t duration volt : Q) (a b k : nat) :
  generate_code np_power np_sin np_pi self reached = (reached', inr (Some art)) ->
  nth_error (commands self) i = Some (constant_cmd t duration volt) ->
  sample_range self i = inr (a, b) ->
  a <= k < b ->
  (forall j a' b', i < j -> sample_range self j = inr (a', b') ->
                   ~ (a' <= k < b')) ->
  nth_error (out_values art) k = Some (Fin volt).
Proof.
  intros H Hc Hr Hk Hlater.
  destruct (compiled_sample_of_last_writer _ _ H Hc Hr Hk Hlater)
    as (ds & d_i & steps & vals & _ & _ & Hs & Hw & Hvl & Hnth).
  rewrite Hnth. cbv beta iota delta [waveform] in Hw. inversion Hw; subst vals.
  apply nth_error_repeat. rewrite repeat_length in Hvl. lia.
Qed.

(** X4.  A linear ramp is linear at every sample: over a range of width
    [n >= 2], the sample at offset [m] that lies in no later range equals
    [init_volt + (final_volt - init_volt) * m / (n - 1)]. *)
Theorem linear_ramp_interpolates
    (self : device) (reached reached' : list stage) (art : artifact)
    (i : nat) (t duration init_volt final_volt : Q) (a b k : nat) :
  generate_code np_power np_sin np_pi self reached = (reached', inr (Some art)) ->
  nth_error (commands self) i
  = Some (linear_ramp_cmd t duration init_volt final_volt) ->
  sample_range self i = inr (a, b) ->
  a + 2 <= b ->
  a <= k < b ->
  (forall j a' b', i < j -> sample_range self j = inr (a', b') ->
                   ~ (a' <= k < b')) ->
  exists v,
    nth_error (out_values art) k = Some v /\
    feq v (Fin (init_volt
                + (final_volt - init_volt)
                  * (inject_Z (Z.of_nat (k - a)) / inject_Z (Z.of_nat (b - a - 1))))).
Proof.
  intros H Hc Hr Hab Hk Hlater.
  destruct (compiled_sample_of_last_writer _ _ H Hc Hr Hk Hlater)
    as (ds & d_i & steps & vals & _ & _ & Hs & Hw & Hvl & Hnth).
  destruct (@unit_linspace_spec (b - a)) as [steps' [Hs' [Hsl Hu]]]; [lia|].
  rewrite Hs in Hs'. inversion Hs'; subst steps'. clear Hs'.
  replace (b - a =? 1) with false in Hu by (symmetry; apply Nat.eqb_neq; lia).
  destruct (Hu (k - a)) as [u [Hu1 Hfeq]]; [lia|].
  cbv beta iota delta [waveform] in Hw. inversion Hw; subst vals.
  rewrite Hnth, nth_error_map, Hu1. eexists. split; [reflexivity|].
  destruct u as [q| | |]; cbn [feq] in Hfeq; try contradiction.
  cbn [fmul fadd feq]. rewrite Hfeq. ring.
Qed.

(** An iteration whose range is empty returns the array it was given. *)
Lemma synth_command_empty_range ts times ds t_init i c out out' a :
  synth_command np_power np_sin np_pi ts times ds t_init i c out = inr out' ->
  command_range ts times ds t_init i = inr (a, a) ->
  out' = out.
Proof.
  intros H Hr. apply synth_command_inv in H.
  destruct H as (a0 & b0 & steps & d_i & vals & Hr0 & _ & _ & _ & Hset & _ & Hvl).
  rewrite Hr in Hr0. inversion Hr0; subst a0 b0. clear Hr0.
  rewrite Nat.sub_diag in Hvl. destruct vals; [|discriminate].
  unfold np_setslice in Hset.
  replace (Nat.max (Nat.min a (length out)) (Nat.min a (length out)))
    with (Nat.min a (length out)) in Hset by lia.
  rewrite Nat.sub_diag in Hset. cbn [length Nat.eqb app] in Hset.
  inversion Hset. apply firstn_skipn.
Qed.

(** X5.  A command whose two indices coincide (its duration is shorter
    than half a sample) writes nothing: when its iteration succeeds, the
    array is returned as it was. *)
Theorem empty_range_writes_nothing
    (ts : list float64) (times : list Q) (ds : list num) (t_init : Q)
    (i : nat) (c : command) (out out' : list float64) (a : nat) :
  synth_command np_power np_sin np_pi ts times ds t_init i c out = inr out' ->
  command_range ts times ds t_init i = inr (a, a) ->
  out' = out.
Proof. apply synth_command_empty_range. Qed.

(** X6.  In every compiled artifact each command has a sample range, with
    [t_init_idx <= t_end_idx < 16384]: a timeline where an end index
    falls before its start index does not compile. *)
Theorem compiled_ranges_are_ordered
    (self : device) (reached reached' : list stage) (art : artifact) (i : nat) :
  generate_code np_power np_sin np_pi self reached = (reached', inr (Some art)) ->
  i < length (commands self) ->
  exists a b, sample_range self i = inr (a, b) /\ a <= b /\ b < 16384.
Proof.
  intros H Hi. apply generate_code_inv in H.
  destruct H as (ds & span & freq & ts & Hds & Hspan & Hfreq & Hts & Hloop & _).
  destruct (nth_error (commands self) i) as [c|] eqn:Hc;
    [| apply nth_error_None in Hc; lia].
  destruct (@synth_loop_split np_power np_sin np_pi _ _ _ _ _ _ _ _ _ _ Hloop Hc)
    as (out_j & out_j' & _ & Hcmd & _).
  cbn [Nat.add] in Hcmd. apply synth_command_inv in Hcmd.
  destruct Hcmd as (a & b & steps & d_i & vals & Hr & _ & _ & _ & _ & Hab & _).
  exists a, b. rewrite (sample_range_of_run self i Hds Hspan Hfreq Hts).
  split; [exact Hr|]. split; [exact Hab|].
  apply command_range_bound in Hr. apply np_linspace_length in Hts.
  rewrite Nat2Z.id, n_points_value in Hts. lia.
Qed.

End WrittenSamples.

(* ===================================================================== *)
(** ** Timelines longer than one period of the smallest frequency *)
(* ===================================================================== *)

Lemma Qfloor_unit_interval (x : Q) : (0 <= x)%Q -> (x < 1)%Q -> Qfloor x = 0%Z.
Proof.
  intros H0 H1.
  assert (Hlo : (0 <= Qfloor x)%Z).
  { apply Qfloor_resp_le in H0. exact H0. }
  assert (Hhi : (Qfloor x < 1)%Z).
  { rewrite Zlt_Qlt. apply Qle_lt_trans with x; [apply Qfloor_le | exact H1]. }
  lia.
Qed.

(** Past [1/freq_increment] seconds the frequency rounds down to 0 and the
    span becomes numpy's [inf]. *)
Lemma quantize_span_long (total : num) (S : Q) :
  to_np total = Fin S -> (1 / freq_increment < S)%Q ->
  quantize_span total = inr (NpF (Fin (inject_Z 0 * freq_increment)), NpF PInf).
Proof.
  intros Htotal HS.
  assert (Hb : (0 < 1 / freq_increment)%Q) by reflexivity.
  assert (HS0 : (0 < S)%Q) by (eapply Qlt_trans; eassumption).
  rewrite (quantize_span_pos total Htotal HS0).
  assert (Hx0 : (0 <= 1 / S / freq_increment)%Q).
  { apply Qle_shift_div_l; [apply freq_increment_pos|].
    apply Qle_shift_div_l; [exact HS0 | lra]. }
  assert (Hx1 : (1 / S / freq_increment < 1)%Q).
  { apply Qlt_shift_div_r; [apply freq_increment_pos|].
    apply Qlt_shift_div_r; [exact HS0|].
    apply (Qmult_lt_compat_r _ _ freq_increment) in HS;
      [|apply freq_increment_pos].
    assert (E : (1 / freq_increment * freq_increment == 1)%Q) by reflexivity.
    rewrite E in HS. lra. }
  rewrite (Qfloor_unit_interval Hx0 Hx1). reflexivity.
Qed.

(** The grid towards [inf] starts with [nan] ([0 * inf]). *)
Lemma linspace_to_inf_starts_with_nan (n : nat) ts :
  2 <= n ->
  np_linspace (Fin 0) PInf (Z.of_nat n) = inr ts ->
  exists rest, ts = NaN :: rest.
Proof.
  intros Hn. unfold np_linspace, np_arange.
  replace (Z.of_nat n <? 0)%Z with false by (symmetry; apply Z.ltb_ge; lia).
  replace (1 <? Z.of_nat n)%Z with true by (symmetry; apply Z.ltb_lt; lia).
  rewrite Nat2Z.id. intros H. inversion H. clear H.
  destruct n as [|[|n]]; try lia.
  assert (Hd : Qle_bool 0 (inject_Z (Z.of_nat (S (S n)) - 1)) = true).
  { apply Qle_bool_iff. change 0%Q with (inject_Z 0). rewrite <- Zle_Qle. lia. }
  cbn [fsub fneg fadd fdiv]. rewrite Hd. cbn [signed_inf feqb].
  cbn [arange_from map Nat.sub setitem fmul fadd]. eexists. reflexivity.
Qed.

Lemma nearest_index_after_nan rest x : nearest_index (NaN :: rest) x = inr 0.
Proof.
  unfold nearest_index. cbn [map fsub fneg fadd fabs np_argmin].
  destruct (to_np x); cbn [fneg fadd fabs]; destruct rest; reflexivity.
Qed.

Lemma command_range_after_nan rest times ds t_init i a b :
  command_range (NaN :: rest) times ds t_init i = inr (a, b) -> a = 0 /\ b = 0.
Proof.
  unfold command_range. intros H.
  apply rbind_inr_inv in H. destruct H as [t_i [_ H]].
  apply rbind_inr_inv in H. destruct H as [d_i [_ H]].
  rewrite !nearest_index_after_nan in H. cbn [rbind] in H.
  inversion H. split; reflexivity.
Qed.

Section LongTimelines.

Variable np_power : float64 -> float64 -> float64.
Variable np_sin : float64 -> float64.
Variable np_pi : Q.

Lemma synth_loop_after_nan rest times ds t_init cs : forall i out out',
  synth_loop np_power np_sin np_pi (NaN :: rest) times ds t_init i cs out = inr out' ->
  out' = out.
Proof.
  induction cs as [|c cs IH]; intros i out out' H.
  - inversion H. reflexivity.
  - cbn [synth_loop] in H.
    apply rbind_inr_inv in H. destruct H as [out1 [H1 H]].
    apply IH in H. subst out'.
    pose proof H1 as Hinv. apply synth_command_inv in Hinv.
    destruct Hinv as (a & b & _ & _ & _ & Hr & _).
    destruct (command_range_after_nan _ _ _ _ _ Hr) as [-> ->].
    eapply synth_command_empty_range; eassumption.
Qed.

(** X7.  A timeline whose total span exceeds [1/freq_increment] (about
    8.59 s) does not fail: the frequency rounds down to 0, the stored
    total duration is [inf], every command gets the empty range [[0, 0)],
    and the stored array is all zeros. *)
Theorem long_timeline_compiles_to_zeros
    (self : device) (reached reached' : list stage) (art : artifact)
    (ds : list num) (t_init : Q) (total : num) (S : Q) :
  generate_code np_power np_sin np_pi self reached = (reached', inr (Some art)) ->
  resolve_durations (name self) (times_of (commands self))
                    (durations_of (commands self)) = inr ds ->
  total_span (times_of (commands self)) ds = inr (t_init, total) ->
  to_np total = Fin S ->
  (1 / (116415 # 1000000) < S)%Q ->
  total_duration art = NpF PInf /\
  out_values art = repeat (Fin 0) 16384 /\
  forall j a b, sample_range self j = inr (a, b) -> a = 0 /\ b = 0.
Proof.
  intros H Hds Hspan Htotal HS. apply generate_code_inv in H.
  destruct H as (ds' & span & freq & ts & Hds' & Hspan' & Hfreq & Hts & Hloop & Htd & _).
  rewrite Hds in Hds'. inversion Hds'; subst ds'. clear Hds'.
  rewrite Hspan in Hspan'. inversion Hspan'; subst span. clear Hspan'.
  cbn [fst snd] in *.
  rewrite (quantize_span_long total Htotal HS) in Hfreq.
  inversion Hfreq; subst freq. clear Hfreq. cbn [snd to_np] in *.
  destruct (@linspace_to_inf_starts_with_nan n_points ts) as [rest ->];
    [apply Nat.leb_le; reflexivity | exact Hts |].
  apply synth_loop_after_nan in Hloop.
  split; [exact Htd|]. split; [now rewrite Hloop, n_points_value|].
  intros j a b Hr.
  rewrite (@sample_range_of_run self ds (t_init, total)
             (NpF (Fin (inject_Z 0 * freq_increment)), NpF PInf)
             (NaN :: rest) j Hds Hspan) in Hr.
  - now apply command_range_after_nan in Hr.
  - cbn [snd]. apply (quantize_span_long total Htotal HS).
  - exact Hts.
Qed.

End LongTimelines.

(* ===================================================================== *)
(** ** The nearest-sample search *)
(* ===================================================================== *)

Ltac float_order :=
  repeat match goal with
         | x : float64 |- _ => destruct x
         end;
  cbn [fltb feqb is_nan orb] in *;
  try discriminate; try reflexivity;
  repeat match goal with
         | H : Qltb _ _ = true |- _ => apply Qltb_true in H
         | H : Qltb _ _ = false |- _ => apply Qltb_false in H
         | H : Qeq_bool _ _ = true |- _ => apply Qeq_bool_iff in H
         | H : Qeq_bool _ _ = false |- _ => apply Qeq_bool_false in H
         | H : _ || _ = true |- _ => apply orb_true_iff in H; destruct H
         | H : _ || _ = false |- _ => apply orb_false_iff in H; destruct H
         end;
  try (apply Qltb_true; lra); try (apply Qltb_false; lra).

Lemma fltb_ge_not_lt (a b : float64) :
  fltb a b || feqb a b = true -> fltb b a = false.
Proof. intros H. float_order. Qed.

Lemma fltb_not_ge_lt (a b : float64) :
  is_nan a = false -> is_nan b = false ->
  fltb a b || feqb a b = false -> fltb b a = true.
Proof. intros Ha Hb H. float_order. Qed.

Lemma fltb_le_trans (a b c : float64) :
  is_nan b = false ->
  fltb b a = false -> fltb c b = false -> fltb c a = false.
Proof. intros Hb H1 H2. float_order. Qed.

Lemma fltb_lt_le_trans (a b c : float64) :
  is_nan c = false ->
  fltb a b = true -> fltb c b = false -> fltb a c = true.
Proof. intros Hc H1 H2. float_order. Qed.

Lemma fltb_irrefl_false (a : float64) : fltb a a = false.
Proof. float_order. Qed.

Lemma fltb_asym (a b : float64) : fltb a b = true -> fltb b a = false.
Proof. intros H. float_order. Qed.

(** The scan returns the first position of the smallest value, among the
    running minimum and the values still to be read. *)
Lemma argmin_scan_spec ip : forall mp min_ind i,
  min_ind < i ->
  is_nan mp = false ->
  Forall (fun v => is_nan v = false) ip ->
  exists vk,
    is_nan vk = false /\
    (argmin_scan mp min_ind i ip = min_ind /\ vk = mp \/
     i <= argmin_scan mp min_ind i ip /\
     nth_error ip (argmin_scan mp min_ind i ip - i) = Some vk /\
     fltb vk mp = true) /\
    forall j v, nth_error ip j = Some v ->
      fltb v vk = false /\
      (i + j < argmin_scan mp min_ind i ip -> fltb vk v = true).
Proof.
  induction ip as [|v ip IH]; intros mp min_ind i Hlt Hmp Hall.
  - exists mp. split; [exact Hmp|]. split; [left; split; reflexivity|].
    intros [|j] w Hw; discriminate Hw.
  - inversion Hall as [|v' ip' Hv Hall']; subst.
    cbn [argmin_scan]. rewrite Hmp.
    destruct (fltb mp v || feqb mp v) eqn:Hge.
    + destruct (IH mp min_ind (S i)) as (vk & Hnk & Hk & Hmin); [lia|assumption..|].
      set (k := argmin_scan mp min_ind (S i) ip) in *.
      assert (Hvk_le_mp : fltb mp vk = false).
      { destruct Hk as [[_ ->] | (_ & _ & Hk)];
          [apply fltb_irrefl_false | now apply fltb_asym]. }
      exists vk. split; [exact Hnk|]. split.
      * destruct Hk as [[Hk ->] | (Hk1 & Hk2 & Hk3)].
        -- left. split; [exact Hk | reflexivity].
        -- right. split; [lia|]. split; [|exact Hk3].
           replace (k - i) with (S (k - S i)) by lia. exact Hk2.
      * intros [|j] w Hw.
        -- cbn in Hw. inversion Hw; subst w. split.
           ++ apply fltb_le_trans with mp; [exact Hmp | exact Hvk_le_mp |].
              now apply fltb_ge_not_lt.
           ++ intros Hik. destruct Hk as [[Hk _] | (_ & _ & Hk3)]; [lia|].
              apply fltb_lt_le_trans with mp; [exact Hv | exact Hk3 |].
              now apply fltb_ge_not_lt.
        -- cbn in Hw. destruct (Hmin j w Hw) as [H1 H2].
           split; [exact H1|]. intros Hik. apply H2. lia.
    + pose proof (@fltb_not_ge_lt mp v Hmp Hv Hge) as Hvmp.
      destruct (IH v i (S i)) as (vk & Hnk & Hk & Hmin); [lia|assumption..|].
      set (k := argmin_scan v i (S i) ip) in *.
      assert (Hvk_le_v : fltb v vk = false).
      { destruct Hk as [[_ ->] | (_ & _ & Hk)];
          [apply fltb_irrefl_false | now apply fltb_asym]. }
      exists vk. split; [exact Hnk|]. split.
      * right. destruct Hk as [[Hk ->] | (Hk1 & Hk2 & Hk3)].
        -- split; [lia|]. rewrite Hk, Nat.sub_diag. split; [reflexivity|exact Hvmp].
        -- split; [lia|]. split.
           ++ replace (k - i) with (S (k - S i)) by lia. exact Hk2.
           ++ apply fltb_lt_le_trans with v; [exact Hmp | exact Hk3 |].
              now apply fltb_asym.
      * intros [|j] w Hw.
        -- cbn in Hw. inversion Hw; subst w. split; [exact Hvk_le_v|].
           intros Hik. destruct Hk as [[Hk _] | (_ & _ & Hk3)]; [lia | exact Hk3].
        -- cbn in Hw. destruct (Hmin j w Hw) as [H1 H2].
           split; [exact H1|]. intros Hik. apply H2. lia.
Qed.

Lemma np_argmin_spec (a : list float64) (k : nat) :
  np_argmin a = inr k ->
  Forall (fun v => is_nan v = false) a ->
  exists vk,
    nth_error a k = Some vk /\
    forall j v, nth_error a j = Some v ->
      fltb v vk = false /\ (j < k -> fltb vk v = true).
Proof.
  destruct a as [|v0 rest]; [discriminate|].
  cbn [np_argmin]. intros H Hall. inversion H as [Hk]. clear H.
  inversion Hall as [|v' l' Hv0 Hrest]; subst v' l'.
  destruct (@argmin_scan_spec rest v0 0 1) as (vk & Hnk & Hcase & Hmin);
    [lia | assumption | assumption |].
  exists vk. split.
  - destruct Hcase as [[-> ->] | (H1 & H2 & _)]; [reflexivity|].
    replace (argmin_scan v0 0 1 rest)
      with (S (argmin_scan v0 0 1 rest - 1)) by lia.
    exact H2.
  - intros [|j] w Hw.
    + cbn in Hw. inversion Hw; subst w.
      destruct Hcase as [[Hk0 ->] | (H1 & _ & H3)].
      * split; [apply fltb_irrefl_false | lia].
      * split; [now apply fltb_asym | intros _; exact H3].
    + cbn in Hw. destruct (Hmin j w Hw) as [G1 G2].
      split; [exact G1|]. intros Hjk. apply G2. lia.
Qed.

Lemma nearest_index_finite_spec (qs : list Q) (xn : num) (x : Q) (k : nat) :
  to_np xn = Fin x ->
  nearest_index (map Fin qs) xn = inr k ->
  exists qk,
    nth_error qs k = Some qk /\
    forall j qj, nth_error qs j = Some qj ->
      (Qabs (qk - x) <= Qabs (qj - x))%Q /\
      (j < k -> (Qabs (qk - x) < Qabs (qj - x))%Q).
Proof.
  intros Hx. unfold nearest_index. rewrite Hx, map_map.
  cbn [fsub fneg fadd fabs].
  intros H. apply np_argmin_spec in H.
  - destruct H as (vk & Hk & Hmin).
    rewrite nth_error_map in Hk.
    destruct (nth_error qs k) as [qk|] eqn:Hqk; [|discriminate].
    cbn in Hk. inversion Hk; subst vk. clear Hk.
    exists qk. split; [reflexivity|]. intros j qj Hj.
    destruct (Hmin j (Fin (Qabs (qj + - x)))) as [H1 H2].
    { rewrite nth_error_map, Hj. reflexivity. }
    cbn [fltb] in H1, H2. apply Qltb_false in H1. split; [exact H1|].
    intros Hjk. apply Qltb_true. now apply H2.
  - apply Forall_forall. intros v Hv. apply in_map_iff in Hv.
    destruct Hv as [q [<- _]]. reflexivity.
Qed.

(** X8.  On a grid of finite values, [(np.abs(ts - x)).argmin()] is the
    index of a grid point nearest to [x], and the first such index: no
    grid point is nearer, and every earlier one is strictly farther. *)
Theorem nearest_index_is_nearest (qs : list Q) (x : Q) (k : nat) :
  nearest_index (map Fin qs) (PyF x) = inr k ->
  exists qk,
    nth_error qs k = Some qk /\
    forall j qj, nth_error qs j = Some qj ->
      (Qabs (qk - x) <= Qabs (qj - x))%Q /\
      (j < k -> (Qabs (qk - x) < Qabs (qj - x))%Q).
Proof. apply nearest_index_finite_spec. reflexivity. Qed.

Lemma nearest_index_is_nearest_witness :
  exists qk,
    nth_error [0; 1; 2; 3]%Q 1 = Some qk /\
    forall j qj, nth_error [0; 1; 2; 3]%Q j = Some qj ->
      (Qabs (qk - (7 # 5)) <= Qabs (qj - (7 # 5)))%Q /\
      (j < 1 -> (Qabs (qk - (7 # 5)) < Qabs (qj - (7 # 5)))%Q).
Proof.
  apply (@nearest_index_is_nearest [0; 1; 2; 3]%Q (7 # 5)%Q 1).
  reflexivity.
Defined.

(* ===================================================================== *)
(** ** The sample grid *)
(* ===================================================================== *)

(** Every point of [np.linspace(start, stop, n)], for finite bounds and
    [n >= 2], is finite and sits at [start + k (stop - start) / (n - 1)]. *)
Lemma linspace_finite_spec (start stop : Q) (n : nat) :
  2 <= n ->
  exists ts,
    np_linspace (Fin start) (Fin stop) (Z.of_nat n) = inr ts /\
    length ts = n /\
    forall k, k < n ->
      exists q, nth_error ts k = Some (Fin q) /\
                (q == start + inject_Z (Z.of_nat k) * (stop - start)
                              / inject_Z (Z.of_nat (n - 1)))%Q.
Proof.
  intros Hn. unfold np_linspace, np_arange.
  replace (Z.of_nat n <? 0)%Z with false by (symmetry; apply Z.ltb_ge; lia).
  replace (1 <? Z.of_nat n)%Z with true by (symmetry; apply Z.ltb_lt; lia).
  rewrite Nat2Z.id.
  replace (Z.of_nat n - 1)%Z with (Z.of_nat (n - 1)) by lia.
  assert (Hd : (0 < inject_Z (Z.of_nat (n - 1)))%Q)
    by (apply inject_Z_pos; lia).
  cbn [fsub fneg fadd fdiv]. rewrite (Qeq_bool_pos_false Hd).
  set (div := inject_Z (Z.of_nat (n - 1))) in *.
  eexists. split; [reflexivity|]. split.
  - rewrite setitem_length.
    destruct (feqb _ _); now rewrite !length_map, arange_from_length.
  - intros k Hk. destruct (Nat.eq_dec k (n - 1)) as [->|Hne].
    + exists stop. split.
      * apply nth_error_setitem_eq.
        destruct (feqb _ _); rewrite !length_map, arange_from_length; lia.
      * fold div. field. lra.
    + rewrite nth_error_setitem_neq by congruence.
      destruct (feqb (Fin ((stop + - start) / div)) (Fin 0)) eqn:Hstep.
      * rewrite !nth_error_map, arange_from_nth by lia.
        cbn [option_map fdiv]. rewrite (Qeq_bool_pos_false Hd).
        cbn [fmul fadd Z.add]. eexists. split; [reflexivity|].
        field. lra.
      * rewrite !nth_error_map, arange_from_nth by lia.
        cbn [option_map fmul fadd Z.add]. eexists. split; [reflexivity|].
        field. lra.
Qed.

(** X9.  The sample grid is uniform: for finite bounds and [n >= 2],
    [np.linspace(start, stop, n)] has [n] finite points, the [k]-th at
    [start + k (stop - start) / (n - 1)]; in particular the first is
    [start] and the last is [stop]. *)
Theorem sample_grid_is_uniform (start stop : Q) (n : nat) :
  2 <= n ->
  exists ts,
    np_linspace (Fin start) (Fin stop) (Z.of_nat n) = inr ts /\
    length ts = n /\
    (forall k, k < n ->
       exists q, nth_error ts k = Some (Fin q) /\
                 (q == start + inject_Z (Z.of_nat k) * (stop - start)
                               / inject_Z (Z.of_nat (n - 1)))%Q) /\
    (exists q0, nth_error ts 0 = Some (Fin q0) /\ (q0 == start)%Q) /\
    (exists q1, nth_error ts (n - 1) = Some (Fin q1) /\ (q1 == stop)%Q).
Proof.
  intros Hn. destruct (linspace_finite_spec start stop Hn) as (ts & Hts & Hlen & Hk).
  exists ts. repeat (split; [assumption|]).
  assert (Hd : (0 < inject_Z (Z.of_nat (n - 1)))%Q)
    by (apply inject_Z_pos; lia).
  split.
  - destruct (Hk 0) as [q [Hq E]]; [lia|]. exists q. split; [exact Hq|].
    rewrite E. change (inject_Z (Z.of_nat 0)) with 0%Q. field. lra.
  - destruct (Hk (n - 1)) as [q [Hq E]]; [lia|]. exists q. split; [exact Hq|].
    rewrite E. field. lra.
Qed.

Lemma sample_grid_is_uniform_witness :
  exists ts,
    np_linspace (Fin 0) (Fin 3) (Z.of_nat 4) = inr ts /\
    length ts = 4 /\
    (forall k, k < 4 ->
       exists q, nth_error ts k = Some (Fin q) /\
                 (q == 0 + inject_Z (Z.of_nat k) * (3 - 0)
                           / inject_Z (Z.of_nat (4 - 1)))%Q) /\
    (exists q0, nth_error ts 0 = Some (Fin q0) /\ (q0 == 0)%Q) /\
    (exists q1, nth_error ts (4 - 1) = Some (Fin q1) /\ (q1 == 3)%Q).
Proof.
  apply (@sample_grid_is_uniform 0%Q 3%Q 4). lia.
Defined.

(* ===================================================================== *)
(** ** The total span *)
(* ===================================================================== *)

Lemma fold_min_keeps_head (rest : list Q) (x : Q) :
  Forall (Qlt x) rest ->
  fold_left (fun m y => if Qltb y m then y else m) rest x = x.
Proof.
  induction rest as [|y rest IH]; intros H; [reflexivity|].
  inversion H as [|y' l' Hy Hrest]; subst. cbn [fold_left].
  replace (Qltb y x) with false by (symmetry; apply Qltb_false; lra).
  now apply IH.
Qed.

Lemma last_default_irrelevant {A} (l : list A) : forall z x y : A,
  last (z :: l) x = last (z :: l) y.
Proof.
  induction l as [|z' l IH]; intros z x y; [reflexivity|].
  change (last (z' :: l) x = last (z' :: l) y). apply IH.
Qed.

Lemma last_cons {A} (l : list A) (x y : A) : last (y :: l) x = last l y.
Proof.
  destruct l as [|z l]; [reflexivity|].
  change (last (z :: l) x = last (z :: l) y). apply last_default_irrelevant.
Qed.

Lemma last_cons_in {A} (l : list A) (x y : A) : In (last (y :: l) x) (y :: l).
Proof.
  revert y. induction l as [|z l IH]; intros y; [now left|].
  right. change (In (last (z :: l) x) (z :: l)). apply IH.
Qed.

Lemma fold_max_reaches_last (rest : list Q) : forall x : Q,
  StronglySorted Qlt (x :: rest) ->
  fold_left (fun m y => if Qltb m y then y else m) rest x = last rest x.
Proof.
  induction rest as [|y rest IH]; intros x H; [reflexivity|].
  inversion H as [|x' l' Hs Hx]; subst.
  inversion Hx as [|y' l'' Hxy _]; subst. cbn [fold_left].
  replace (Qltb x y) with true by (symmetry; apply Qltb_true; exact Hxy).
  rewrite IH by exact Hs. symmetry. apply last_cons.
Qed.

Lemma py_index_of_last (l : list Q) : forall x : Q,
  StronglySorted Qlt (x :: l) ->
  py_index (x :: l) (last l x) = inr (length l).
Proof.
  induction l as [|y l IH]; intros x H.
  - cbn. now rewrite Qeq_bool_refl.
  - inversion H as [|x' l' Hs Hx]; subst.
    assert (Hlt : (x < last (y :: l) x)%Q).
    { rewrite Forall_forall in Hx. apply Hx. apply last_cons_in. }
    change (py_index (x :: y :: l) (last (y :: l) x))
      with (if Qeq_bool x (last (y :: l) x) then inr 0
            else try i := py_index (y :: l) (last (y :: l) x) in inr (S i)).
    replace (Qeq_bool x (last (y :: l) x)) with false
      by (symmetry; apply Qeq_bool_false; lra).
    rewrite last_cons, (IH y Hs). reflexivity.
Qed.

Lemma total_span_increasing (t_first : Q) (later : list Q) (ds : list num)
    (d_last : num) :
  StronglySorted Qlt (t_first :: later) ->
  nth_error ds (length later) = Some d_last ->
  total_span (t_first :: later) ds
  = inr (t_first,
         num_sub (num_add (PyF (last later t_first)) d_last) (PyF t_first)).
Proof.
  intros Hs Hd. unfold total_span, py_min, py_max.
  inversion Hs as [|x l Hs' Hall]; subst.
  rewrite (fold_min_keeps_head Hall). cbn [rbind].
  rewrite (fold_max_reaches_last Hs). cbn [rbind].
  rewrite (py_index_of_last Hs). cbn [rbind].
  unfold getitem. rewrite Hd. reflexivity.
Qed.

(** X10.  With strictly increasing start times, [t_init] is the first
    start time and the total span runs to the end of the last command:
    [times[-1] + durations[-1] - times[0]]. *)
Theorem total_span_of_increasing_times (t_first : Q) (later : list Q)
    (ds : list num) (d_last : num) :
  StronglySorted Qlt (t_first :: later) ->
  nth_error ds (length later) = Some d_last ->
  total_span (t_first :: later) ds
  = inr (t_first,
         num_sub (num_add (PyF (last later t_first)) d_last) (PyF t_first)).
Proof. apply total_span_increasing. Qed.

Lemma total_span_of_increasing_times_witness :
  total_span (0 :: [1 # 2])%Q [NpF (Fin (1 # 2)); PyF (1 # 2)]
  = inr (0%Q,
         num_sub (num_add (PyF (last [1 # 2] 0)%Q) (PyF (1 # 2))) (PyF 0)).
Proof.
  apply (@total_span_of_increasing_times 0%Q [(1 # 2)%Q]
           [NpF (Fin (1 # 2)); PyF (1 # 2)] (PyF (1 # 2))).
  - repeat constructor.
  - reflexivity.
Defined.

(* ===================================================================== *)
(** ** Timelines that always compile *)
(* ===================================================================== *)







Section AlwaysCompiles.

Variable np_power : float64 -> float64 -> float64.
Variable np_sin : float64 -> float64.
Variable np_pi : Q.



End AlwaysCompiles.




Section AlwaysCompilesLoop.

Variable np_power : float64 -> float64 -> float64.
Variable np_sin : float64 -> float64.
Variable np_pi : Q.


End AlwaysCompilesLoop.



Section AlwaysCompilesRun.

Variable np_power : float64 -> float64 -> float64.
Variable np_sin : float64 -> float64.
Variable np_pi : Q.


End AlwaysCompilesRun.

(* ===================================================================== *)
(** ** The two example runs *)
(* ===================================================================== *)

Lemma scenario_run :
  generate_code no_power no_sin pi_approx scenario_device []
  = ([Quantization; Synthesis; Storage], inr (Some scenario_artifact)).
Proof. vm_compute. reflexivity. Qed.

Lemma scenario_ranges :
  sample_range scenario_device 0 = inr (0, 7629) /\
  sample_range scenario_device 1 = inr (7629, 15258).
Proof. vm_compute. split; reflexivity. Qed.

Lemma scenario_no_later_range (i k : nat) :
  1 <= i ->
  forall j a b, i < j -> sample_range scenario_device j = inr (a, b) ->
                ~ (a <= k < b).
Proof.
  intros Hi j a b Hj Hr. apply sample_range_in_commands in Hr.
  cbn in Hr. lia.
Qed.

Lemma long_run :
  generate_code no_power no_sin pi_approx long_device []
  = ([Quantization; Synthesis; Storage], inr (Some long_artifact)).
Proof. vm_compute. reflexivity. Qed.

Lemma last_write_wins_witness :
  exists ds d_i steps vals,
    resolve_durations (name scenario_device) (times_of (commands scenario_device))
                      (durations_of (commands scenario_device)) = inr ds /\
    getitem ds 1 = inr d_i /\
    np_linspace (Fin 0) (Fin 1) (Z.of_nat (15258 - 7629)) = inr steps /\
    waveform no_power no_sin pi_approx
             (linear_ramp_cmd (1 # 2) (1 # 2) (1 # 2) (1 # 10)) d_i steps
    = inr vals /\
    length vals = 15258 - 7629 /\
    nth_error (out_values scenario_artifact) 10000 = nth_error vals (10000 - 7629).
Proof.
  apply (@last_write_wins no_power no_sin pi_approx scenario_device []
           [Quantization; Synthesis; Storage] scenario_artifact 1
           (linear_ramp_cmd (1 # 2) (1 # 2) (1 # 2) (1 # 10)) 7629 15258 10000).
  - exact scenario_run.
  - reflexivity.
  - exact (proj2 scenario_ranges).
  - split; apply Nat.leb_le; reflexivity.
  - apply scenario_no_later_range. lia.
Defined.

Lemma constant_fills_its_range_witness :
  nth_error (out_values scenario_artifact) 100 = Some (Fin (1 # 2)).
Proof.
  apply (@constant_fills_its_range no_power no_sin pi_approx scenario_device []
           [Quantization; Synthesis; Storage] scenario_artifact 0
           0%Q 0%Q (1 # 2)%Q 0 7629 100).
  - exact scenario_run.
  - reflexivity.
  - exact (proj1 scenario_ranges).
  - split; apply Nat.leb_le; reflexivity.
  - intros j a b Hj Hr.
    destruct j as [|[|j]]; [lia | |].
    + rewrite (proj2 scenario_ranges) in Hr. inversion Hr; subst a b.
      intros [H _]. apply Nat.leb_le in H. discriminate H.
    + apply sample_range_in_commands in Hr. cbn in Hr. lia.
Defined.

Lemma linear_ramp_interpolates_witness :
  exists v,
    nth_error (out_values scenario_artifact) 10000 = Some v /\
    feq v (Fin ((1 # 2)
                + ((1 # 10) - (1 # 2))
                  * (inject_Z (Z.of_nat (10000 - 7629))
                     / inject_Z (Z.of_nat (15258 - 7629 - 1))))).
Proof.
  apply (@linear_ramp_interpolates no_power no_sin pi_approx scenario_device []
           [Quantization; Synthesis; Storage] scenario_artifact 1
           (1 # 2)%Q (1 # 2)%Q (1 # 2)%Q (1 # 10)%Q 7629 15258 10000).
  - exact scenario_run.
  - reflexivity.
  - exact (proj2 scenario_ranges).
  - apply Nat.leb_le; reflexivity.
  - split; apply Nat.leb_le; reflexivity.
  - apply scenario_no_later_range. lia.
Defined.

Lemma empty_range_writes_nothing_witness :
  [Fin 0; Fin 0; Fin 0; Fin 0] = [Fin 0; Fin 0; Fin 0; Fin 0].
Proof.
  apply (@empty_range_writes_nothing no_power no_sin pi_approx
           [Fin 0; Fin 1; Fin 2; Fin 3] [0%Q] [PyF (1 # 4)] 0%Q 0
           (constant_cmd 0 (1 # 4) 1) [Fin 0; Fin 0; Fin 0; Fin 0]
           [Fin 0; Fin 0; Fin 0; Fin 0] 0).
  - reflexivity.
  - reflexivity.
Defined.

Lemma compiled_ranges_are_ordered_witness :
  exists a b, sample_range scenario_device 1 = inr (a, b) /\ a <= b /\ b < 16384.
Proof.
  apply (@compiled_ranges_are_ordered no_power no_sin pi_approx scenario_device
           [] [Quantization; Synthesis; Storage] scenario_artifact 1).
  - exact scenario_run.
  - cbn. lia.
Defined.

Lemma long_timeline_compiles_to_zeros_witness :
  total_duration long_artifact = NpF PInf /\
  out_values long_artifact = repeat (Fin 0) 16384 /\
  forall j a b, sample_range long_device j = inr (a, b) -> a = 0 /\ b = 0.
Proof.
  apply (@long_timeline_compiles_to_zeros no_power no_sin pi_approx long_device
           [] [Quantization; Synthesis; Storage] long_artifact
           [PyF 10] 0%Q (PyF (0 + 10 - 0)) (0 + 10 - 0)%Q).
  - exact long_run.
  - reflexivity.
  - reflexivity.
  - reflexivity.
  - reflexivity.
Defined.


(* ===================================================================== *)
(** ** From the compiled artifact to the generator *)
(* ===================================================================== *)

(** What [transition_to_buffered] does when the calibration gain is not 0
    and the group holds the array. *)
Lemma worker_transition_to_buffered_ok (file : string) (group : h5_group)
    (self : asg_worker) (samples : list float64) :
  ~ (peak_volt self == 0)%Q ->
  ds_out_values group = Some samples ->
  let frequency :=
    option_map (fun td => NpF (fdiv (Fin 1) td)) (ds_total_duration group) in
  let amplitude := PyF (peak_volt self / peak_volt self) in
  let offset := PyF (0 / peak_volt self + offset_calib self) in
  worker_transition_to_buffered file group self
  = ({| peak_volt := peak_volt self; offset_calib := offset_calib self;
        wk_waveform := wk_waveform self; wk_frequency := frequency;
        wk_amplitude := amplitude; wk_offset := offset;
        wk_cycles_per_burst := 1; wk_shot_file := Some file; wk_led := 4;
        wk_setups :=
          wk_setups self
          ++ [{| su_waveform := None; su_frequency := frequency;
                 su_amplitude := Some amplitude; su_offset := Some offset;
                 su_trigger_source := Some "ext_positive_edge"%string;
                 su_cycles_per_burst := Some 1%Z |}];
        wk_data := Some (map (fun v => fdiv v (Fin (peak_volt self))) samples) |},
     inr tt).
Proof.
  intros Hpv Hout. apply Qeq_bool_false in Hpv. cbv zeta.
  unfold worker_transition_to_buffered, wk_assign_amplitude, wk_assign_offset,
    wk_setup_buffered, wk_set_led, wk_set_shot_file, wk_set_frequency,
    wk_set_amplitude, wk_set_offset, wk_set_cycles, wk_send_setup, wk_send_data,
    out_amp_volt_conv, out_amp_volt_conv_array, apply_offset_calib,
    bind, get, lift, modify, wk_update.
  repeat (cbn [peak_volt offset_calib wk_waveform wk_frequency wk_amplitude
                 wk_offset wk_cycles_per_burst wk_shot_file wk_led wk_setups
                 wk_data num_div num_add];
          rewrite ?Hpv, ?Hout).
  reflexivity.
Qed.

Section Upload.

Variable np_power : float64 -> float64 -> float64.
Variable np_sin : float64 -> float64.
Variable np_pi : Q.


End Upload.


(* ===================================================================== *)
(** ** Holds stay within their voltages *)
(* ===================================================================== *)

Lemma Forall_firstn_skipn {A} (P : A -> Prop) (n : nat) (l : list A) :
  Forall P l -> Forall P (firstn n l) /\ Forall P (skipn n l).
Proof.
  intros H. rewrite <- (firstn_skipn n l) in H. now apply Forall_app in H.
Qed.

Lemma np_setslice_Forall (P : float64 -> Prop) buf a b vals buf' :
  Forall P buf -> Forall P vals ->
  np_setslice buf a b vals = inr buf' -> Forall P buf'.
Proof.
  intros Hbuf Hvals. unfold np_setslice.
  set (a' := Nat.min a (length buf)).
  set (b' := Nat.max a' (Nat.min b (length buf))).
  destruct (Forall_firstn_skipn a' Hbuf) as [Hf _].
  destruct (Forall_firstn_skipn b' Hbuf) as [_ Hs].
  destruct (length vals =? b' - a').
  - intros H. inversion H. apply Forall_app. split; [exact Hf|].
    apply Forall_app. split; assumption.
  - destruct (length vals =? 1) eqn:E; [|discriminate].
    intros H. inversion H. apply Forall_app. split; [exact Hf|].
    apply Forall_app. split; [|exact Hs].
    apply Forall_forall. intros v Hv. apply repeat_spec in Hv. subst v.
    destruct vals as [|v0 vals]; [discriminate|].
    inversion Hvals. assumption.
Qed.

Section WithinVolts.

Variable np_power : float64 -> float64 -> float64.
Variable np_sin : float64 -> float64.
Variable np_pi : Q.

Lemma waveform_of_hold_within (V : Q) c d_i steps vals :
  hold_within V c ->
  waveform np_power np_sin np_pi c d_i steps = inr vals ->
  Forall (sample_within V) vals.
Proof.
  intros Hc Hw.
  destruct c; cbn [hold_within] in Hc; try contradiction.
  cbv beta iota delta [waveform] in Hw. inversion Hw; subst vals.
  apply Forall_forall. intros v Hv. apply repeat_spec in Hv. subst v.
  exists volt. split; [reflexivity | exact Hc].
Qed.

Lemma synth_loop_of_holds_within (V : Q) ts times ds t_init cs :
  forall i out out',
  Forall (hold_within V) cs ->
  Forall (sample_within V) out ->
  synth_loop np_power np_sin np_pi ts times ds t_init i cs out = inr out' ->
  Forall (sample_within V) out'.
Proof.
  induction cs as [|c cs IH]; intros i out out' Hcs Hout H.
  - inversion H; subst. exact Hout.
  - inversion Hcs as [|c' cs' Hc Hcs']; subst.
    cbn [synth_loop] in H.
    apply rbind_inr_inv in H. destruct H as [out1 [H1 H]].
    apply (IH (S i) out1 out' Hcs'); [|exact H].
    apply synth_command_inv in H1.
    destruct H1 as (a & b & steps & d_i & vals & _ & _ & _ & Hw & Hset & _).
    eapply np_setslice_Forall; [exact Hout | | exact Hset].
    eapply waveform_of_hold_within; eassumption.
Qed.

Lemma compiled_holds_within (V : Q) (self : device)
    (reached reached' : list stage) (art : artifact) :
  generate_code np_power np_sin np_pi self reached = (reached', inr (Some art)) ->
  (0 <= V)%Q ->
  Forall (hold_within V) (commands self) ->
  length (out_values art) = 16384 /\
  Forall (sample_within V) (out_values art).
Proof.
  intros H HV Hcs. apply generate_code_inv in H.
  destruct H as (ds & span & freq & ts & _ & _ & _ & _ & Hloop & _).
  split.
  - apply synth_loop_untouched in Hloop. destruct Hloop as [Hlen _].
    now rewrite Hlen, repeat_length, n_points_value.
  - eapply synth_loop_of_holds_within; [exact Hcs | | exact Hloop].
    apply Forall_forall. intros v Hv. apply repeat_spec in Hv. subst v.
    exists 0%Q. split; [reflexivity | lra].
Qed.

(** X13.  A compiled timeline of holds ([constant] commands) whose
    voltages all lie within [[-V, V]] has every one of its 16384 samples
    finite and within [[-V, V]]: a sample is 0 or the voltage of a hold,
    whatever the ranges of the holds and their overlaps are. *)
Theorem compiled_holds_stay_within_volts
    (self : device) (reached reached' : list stage) (art : artifact) (V : Q) :
  generate_code np_power np_sin np_pi self reached = (reached', inr (Some art)) ->
  (0 <= V)%Q ->
  Forall (hold_within V) (commands self) ->
  length (out_values art) = 16384 /\
  Forall (sample_within V) (out_values art).
Proof.
  intros H HV Hcs.
  exact (@compiled_holds_within V self reached reached' art H HV Hcs).
Qed.

(** X14.  With the gain [peak_volt > 0], uploading a compiled timeline of
    holds whose voltages lie within [[-peak_volt, peak_volt]] writes to
    the generator 16384 values that all lie within [[-1, 1]]. *)
Theorem uploaded_holds_within_unit_range
    (self : device) (reached reached' : list stage) (art : artifact)
    (file : string) (worker : asg_worker) :
  generate_code np_power np_sin np_pi self reached = (reached', inr (Some art)) ->
  (0 < peak_volt worker)%Q ->
  Forall (hold_within (peak_volt worker)) (commands self) ->
  exists worker' data,
    worker_transition_to_buffered file (group_of_artifact art) worker
    = (worker', inr tt) /\
    wk_data worker' = Some data /\
    length data = 16384 /\
    Forall (sample_within 1) data.
Proof.
  intros H Hpv Hcs.
  assert (Hne : ~ (peak_volt worker == 0)%Q) by lra.
  pose proof (@worker_transition_to_buffered_ok file (group_of_artifact art)
                worker (out_values art) Hne eq_refl) as Hrun.
  cbv zeta in Hrun. do 2 eexists. split; [exact Hrun|].
  cbn [wk_data]. split; [reflexivity|].
  destruct (@compiled_holds_within (peak_volt worker) self reached reached' art
              H (Qlt_le_weak _ _ Hpv) Hcs) as [Hlen Hin].
  split.
  - now rewrite length_map.
  - apply Forall_map. eapply Forall_impl; [|exact Hin].
    intros v (q & -> & Hq1 & Hq2). cbn [fdiv].
    rewrite (Qeq_bool_pos_false Hpv). eexists. split; [reflexivity|].
    split.
    + apply Qle_shift_div_l; [exact Hpv | lra].
    + apply Qle_shift_div_r; [exact Hpv | lra].
Qed.

End WithinVolts.

Lemma holds_run :
  generate_code no_power no_sin pi_approx holds_device []
  = ([Quantization; Synthesis; Storage], inr (Some holds_artifact)).
Proof. vm_compute. reflexivity. Qed.

Lemma compiled_holds_stay_within_volts_witness :
  length (out_values holds_artifact) = 16384 /\
  Forall (sample_within (1 # 2)) (out_values holds_artifact).
Proof.
  apply (@compiled_holds_stay_within_volts no_power no_sin pi_approx
           holds_device [] [Quantization; Synthesis; Storage]
           holds_artifact (1 # 2)).
  - exact holds_run.
  - discriminate.
  - repeat constructor; discriminate.
Defined.

Lemma uploaded_holds_within_unit_range_witness :
  exists worker' data,
    worker_transition_to_buffered "shot.h5" (group_of_artifact holds_artifact)
                                  (new_worker 10 0)
    = (worker', inr tt) /\
    wk_data worker' = Some data /\
    length data = 16384 /\
    Forall (sample_within 1) data.
Proof.
  apply (@uploaded_holds_within_unit_range no_power no_sin pi_approx
           holds_device [] [Quantization; Synthesis; Storage]
           holds_artifact "shot.h5"%string (new_worker 10 0)).
  - exact holds_run.
  - reflexivity.
  - repeat constructor; discriminate.
Defined.

(* ===================================================================== *)
(** ** The front panel: edits of the attributes *)
(* ===================================================================== *)

Lemma py_round_near (y : Q) : (Qabs (inject_Z (py_round y) - y) <= 1 # 2)%Q.
Proof.
  unfold py_round.
  pose proof (Qfloor_le y) as Hlo. pose proof (Qlt_floor y) as Hhi.
  rewrite inject_Z_plus in Hhi. change (inject_Z 1) with 1%Q in Hhi.
  apply Qabs_Qle_condition.
  destruct (y - inject_Z (Qfloor y) ?= 1 # 2)%Q eqn:E.
  - apply Qeq_alt in E.
    destruct (Z.even (Qfloor y));
      [| rewrite inject_Z_plus; change (inject_Z 1) with 1%Q];
      remember (inject_Z (Qfloor y)) as f; split; lra.
  - apply Qlt_alt in E. remember (inject_Z (Qfloor y)) as f. split; lra.
  - apply Qgt_alt in E. rewrite inject_Z_plus. change (inject_Z 1) with 1%Q.
    remember (inject_Z (Qfloor y)) as f. split; lra.
Qed.

(** The nearest multiple is at most half a step away. *)
Lemma nearest_multiple_near (step x : Q) :
  (0 < step)%Q -> (Qabs (nearest_multiple step x - x) <= step / 2)%Q.
Proof.
  intros Hs. unfold nearest_multiple.
  pose proof (py_round_near (x / step)) as H.
  apply Qabs_Qle_condition in H. destruct H as [H1 H2].
  remember (inject_Z (py_round (x / step))) as k eqn:Hk. clear Hk.
  assert (E : (step * k - x == step * (k - x / step))%Q) by (field; lra).
  apply Qabs_Qle_condition. rewrite E.
  assert (G1 : (step * (- (1 # 2)) <= step * (k - x / step))%Q)
    by (apply Qmult_le_l; assumption).
  assert (G2 : (step * (k - x / step) <= step * (1 # 2))%Q)
    by (apply Qmult_le_l; assumption).
  remember (step * (k - x / step))%Q as d eqn:Hd. clear Hd H1 H2 E.
  assert (Eh : (step / 2 == step * (1 # 2))%Q) by field.
  rewrite Eh. split; lra.
Qed.

Lemma update_attributes_amplitude (self : tab) :
  update_attributes "amplitude" self
  = (set_work_requests
       (work_requests self
        ++ [update_request self
              (AttrNumber (nearest_multiple amplitude_step (amplitude0_spinbox self)))
              "amplitude"])
       (set_ui (waveform0_box self)
               (nearest_multiple amplitude_step (amplitude0_spinbox self))
               (offset0_spinbox self) (frequency0_spinbox self) self),
     inr tt).
Proof. reflexivity. Qed.

Lemma update_attributes_offset (self : tab) :
  update_attributes "offset" self
  = (set_work_requests
       (work_requests self
        ++ [update_request self
              (AttrNumber (nearest_multiple offset_step (offset0_spinbox self)))
              "offset"])
       (set_ui (waveform0_box self) (amplitude0_spinbox self)
               (nearest_multiple offset_step (offset0_spinbox self))
               (frequency0_spinbox self) self),
     inr tt).
Proof. reflexivity. Qed.

Lemma update_attributes_frequency (self : tab) :
  update_attributes "frequency" self
  = (set_work_requests
       (work_requests self
        ++ [update_request self
              (AttrNumber (nearest_multiple frequency_step (frequency0_spinbox self)))
              "frequency"])
       (set_ui (waveform0_box self) (amplitude0_spinbox self)
               (offset0_spinbox self)
               (nearest_multiple frequency_step (frequency0_spinbox self)) self),
     inr tt).
Proof. reflexivity. Qed.

Lemma update_attributes_waveform (self : tab) :
  update_attributes "waveform" self
  = (set_work_requests
       (work_requests self
        ++ [update_request self (AttrText (waveform0_box self)) "waveform"])
       self,
     inr tt).
Proof. reflexivity. Qed.

(** X15.  [update_attributes] with a name other than 'waveform',
    'amplitude', 'offset' and 'frequency' raises [TypeError] and leaves the
    tab as it was: no spin box is changed and nothing is sent to the
    worker. *)
Theorem update_attributes_rejects_unknown_attribute
    (which_attr : string) (self : tab) :
  which_attr <> "waveform"%string ->
  which_attr <> "amplitude"%string ->
  which_attr <> "offset"%string ->
  which_attr <> "frequency"%string ->
  update_attributes which_attr self
  = (self,
     inl (TypeError
            "'which_attr' has to be one of the following:'waveform', 'amplitude','offset', 'frequency'")).
Proof.
  intros H1 H2 H3 H4.
  apply String.eqb_neq in H1, H2, H3, H4.
  unfold update_attributes, bind, get, raise.
  now rewrite H1, H2, H3, H4.
Qed.

Lemma update_attributes_rejects_unknown_attribute_witness :
  update_attributes "phase" front_panel
  = (front_panel,
     inl (TypeError
            "'which_attr' has to be one of the following:'waveform', 'amplitude','offset', 'frequency'")).
Proof.
  apply (@update_attributes_rejects_unknown_attribute "phase" front_panel);
    discriminate.
Defined.

(** X16.  An edit of the amplitude, offset or frequency spin box sends the
    worker a multiple [step * k] of the attribute's step that is at most
    half a step away from the value that was typed; the spin box is set to
    that same number. *)
Theorem numeric_attribute_is_snapped
    (which_attr : string) (self : tab) (step x : Q) :
  attr_step which_attr = Some step ->
  attr_spinbox which_attr self = Some x ->
  exists k : Z,
    (Qabs (step * inject_Z k - x) <= step / 2)%Q /\
    snd (update_attributes which_attr self) = inr tt /\
    attr_spinbox which_attr (fst (update_attributes which_attr self))
    = Some (step * inject_Z k)%Q /\
    work_requests (fst (update_attributes which_attr self))
    = work_requests self
      ++ [update_request self (AttrNumber (step * inject_Z k)%Q) which_attr].
Proof.
  unfold attr_step, attr_spinbox. intros Hstep Hbox.
  destruct (String.eqb which_attr "amplitude") eqn:Ea.
  { apply String.eqb_eq in Ea. subst which_attr.
    inversion Hstep; subst step. inversion Hbox; subst x.
    exists (py_round (amplitude0_spinbox self / amplitude_step)).
    split; [apply (@nearest_multiple_near amplitude_step); reflexivity|].
    rewrite update_attributes_amplitude. repeat split. }
  destruct (String.eqb which_attr "offset") eqn:Eo.
  { apply String.eqb_eq in Eo. subst which_attr.
    inversion Hstep; subst step. inversion Hbox; subst x.
    exists (py_round (offset0_spinbox self / offset_step)).
    split; [apply (@nearest_multiple_near offset_step); reflexivity|].
    rewrite update_attributes_offset. repeat split. }
  destruct (String.eqb which_attr "frequency") eqn:Ef; [|discriminate].
  apply String.eqb_eq in Ef. subst which_attr.
  inversion Hstep; subst step. inversion Hbox; subst x.
  exists (py_round (frequency0_spinbox self / frequency_step)).
  split; [apply (@nearest_multiple_near frequency_step); reflexivity|].
  rewrite update_attributes_frequency. repeat split.
Qed.

Lemma numeric_attribute_is_snapped_witness :
  exists k : Z,
    (Qabs (frequency_step * inject_Z k - 1000) <= frequency_step / 2)%Q /\
    snd (update_attributes "frequency" front_panel) = inr tt /\
    attr_spinbox "frequency" (fst (update_attributes "frequency" front_panel))
    = Some (frequency_step * inject_Z k)%Q /\
    work_requests (fst (update_attributes "frequency" front_panel))
    = work_requests front_panel
      ++ [update_request front_panel
            (AttrNumber (frequency_step * inject_Z k)%Q) "frequency"].
Proof.
  apply (@numeric_attribute_is_snapped "frequency" front_panel
           frequency_step 1000); reflexivity.
Defined.

(* ===================================================================== *)
(** ** Transition to manual: the front panel *)
(* ===================================================================== *)

Lemma show_final_value_panel (self : tab) (item : string * Q) :
  let self' := show_final_value self item in
  waveform0_box self' = waveform0_box self /\
  spinboxes self' = spinboxes self /\
  last_programmed_values self' = last_programmed_values self /\
  program_device_calls self' = program_device_calls self.
Proof.
  destruct item as [channel value]. unfold show_final_value.
  destruct (has_channel channel (AO self)); [cbn; auto|].
  destruct (has_channel channel (DO self)); [cbn; auto|].
  destruct (has_channel channel (image self)); [cbn; auto|].
  destruct (has_channel channel (DDS self)); cbn; auto.
Qed.

Lemma show_final_values_panel (items : list (string * Q)) : forall self : tab,
  let self' := fold_left show_final_value items self in
  waveform0_box self' = waveform0_box self /\
  spinboxes self' = spinboxes self /\
  last_programmed_values self' = last_programmed_values self /\
  program_device_calls self' = program_device_calls self.
Proof.
  induction items as [|item items IH]; intros self; cbn [fold_left].
  - auto.
  - destruct (IH (show_final_value self item)) as (H1 & H2 & H3 & H4).
    destruct (show_final_value_panel self item) as (G1 & G2 & G3 & G4).
    cbv zeta. repeat split; congruence.
Qed.

(** The run of [transition_to_manual], up to the widgets of the output
    channels: [shown] is the tab once the final values are displayed. *)
Lemma transition_to_manual_outcome
    (success : bool) (attrs : attr_dict) (secondary_reply : string -> bool)
    (program : bool) (self : tab) :
  exists shown : tab,
    device_name shown = device_name self /\
    tab_mode shown = MODE_TRANSITION_TO_MANUAL /\
    waveform0_box shown = attr_waveform attrs /\
    spinboxes shown
    = (attr_amplitude attrs, attr_offset attrs, attr_frequency attrs) /\
    last_programmed_values shown = last_programmed_values self /\
    program_device_calls shown = program_device_calls self /\
    notify_queue shown = notify_queue self /\
    transition_to_manual (success, attrs) secondary_reply program self
    = if success && forallb secondary_reply (secondary_workers self) then
        let manual :=
          set_mode MODE_MANUAL
            (set_notify_queue
               (notify_queue shown ++ [(device_name shown, "success"%string)])
               shown) in
        (if program then
           set_programmed (last_programmed_values manual)
                          (S (program_device_calls manual)) manual
         else
           set_programmed (get_front_panel_values manual)
                          (program_device_calls manual) manual,
         inr tt)
      else
        (set_notify_queue
           (notify_queue shown ++ [(device_name shown, "fail"%string)]) shown,
         inl (Exception
                "Could not transition to manual. You must restart this device to continue")).
Proof.
  unfold transition_to_manual, bind, get, queue_work, show_final_values,
    notify, raise.
  unfold modify. cbv beta iota.
  rewrite reset_secondary_workers_spec.
  match goal with
  | |- context [fold_left show_final_value ?l ?s] =>
      pose proof (show_final_values_frame l s) as F;
      pose proof (show_final_values_panel l s) as G;
      cbv zeta in F, G;
      remember (fold_left show_final_value l s) as shown eqn:Hshown;
      clear Hshown
  end.
  destruct F as (F1 & F2 & F3 & F4). destruct G as (G1 & G2 & G3 & G4).
  cbn in F1, F2, F3, F4, G1, G2, G3, G4.
  exists shown. repeat (split; [assumption|]).
  cbn [secondary_workers set_ui set_work_requests set_mode].
  destruct (success && forallb secondary_reply (secondary_workers self));
    [destruct program|]; reflexivity.
Qed.

(** X17.  [transition_to_manual] shows the attributes of the dict that the
    primary worker returned on the front panel, whether the transition
    succeeds or not.  A failed transition ends before the device is
    programmed: [program_device] is not called and the last programmed
    values are kept.  A successful one calls [program_device] exactly once
    when [program] is set, and otherwise records the values of the front
    panel as the last programmed ones. *)
Theorem transition_to_manual_resets_front_panel
    (success : bool) (attrs : attr_dict) (secondary_reply : string -> bool)
    (program : bool) (self : tab) :
  let run := transition_to_manual (success, attrs) secondary_reply program self in
  let overall := success && forallb secondary_reply (secondary_workers self) in
  waveform0_box (fst run) = attr_waveform attrs /\
  spinboxes (fst run)
  = (attr_amplitude attrs, attr_offset attrs, attr_frequency attrs) /\
  if overall then
    if program then
      program_device_calls (fst run) = S (program_device_calls self) /\
      last_programmed_values (fst run) = last_programmed_values self
    else
      program_device_calls (fst run) = program_device_calls self /\
      last_programmed_values (fst run) = get_front_panel_values (fst run)
  else
    program_device_calls (fst run) = program_device_calls self /\
    last_programmed_values (fst run) = last_programmed_values self.
Proof.
  cbv zeta.
  destruct (transition_to_manual_outcome success attrs secondary_reply
              program self)
    as (shown & _ & _ & Hw & Hs & Hl & Hp & _ & Hrun).
  rewrite Hrun. clear Hrun.
  destruct (success && forallb secondary_reply (secondary_workers self));
    [destruct program|]; cbn; unfold spinboxes in *; cbn; auto.
Qed.

(* ===================================================================== *)
(** ** Arithmetic on finite numbers, Python floats or numpy scalars *)
(* ===================================================================== *)






(* ===================================================================== *)
(** ** The Python 3.7.5 device: what the constructor accepts *)
(* ===================================================================== *)


(** X18.  The constructor answers a waveform 'evaporation_ramp' whose
    [time_const] or [ratio_trap_temp] is left out with the [TypeError] of
    the comparison [0.0 < None], not with the [LabscriptError] that names
    the missing keyword argument. *)
Theorem evaporation_ramp_without_parameters_is_a_type_error
    (name : string) (kw : Device375.kwargs) (c : Z) :
  Device375.waveform kw = Some "evaporation_ramp"%string ->
  (16 # 1000000000 <= Device375.cycle_duration kw)%Q ->
  (0 <= Device375.amplitude kw)%Q /\ (Device375.amplitude kw <= 1)%Q ->
  (0 <= Device375.offset kw)%Q /\ (Device375.offset kw <= 2)%Q ->
  Device375.cycles_per_burst kw = Some c ->
  Device375.time_const kw = None \/
  (exists tc, Device375.time_const kw = Some tc /\ (0 < tc)%Q /\
              (tc <= Device375.cycle_duration kw)%Q /\
              Device375.ratio_trap_temp kw = None) ->
  Device375.init name kw
  = inl (TypeError
           "'<' not supported between instances of 'float' and 'NoneType'").
Proof.
  intros Hw Hcd [Ha1 Ha2] [Ho1 Ho2] Hc Hmiss.
  apply Qle_bool_iff in Hcd, Ha1, Ha2, Ho1, Ho2.
  unfold Device375.init. rewrite Hw.
  change (Device375.is_valid_waveform (Some "evaporation_ramp"%string)) with true.
  change (Device375.is_evaporation_ramp (Some "evaporation_ramp"%string)) with true.
  rewrite Hcd, Ha1, Ha2, Ho1, Ho2, Hc. cbn [negb andb].
  unfold Device375.time_const_in_range, Device375.lt_opt.
  destruct Hmiss as [Htc | (tc & Htc & Hpos & Hle & Hr)]; rewrite Htc.
  - reflexivity.
  - apply Qltb_true in Hpos. apply Qle_bool_iff in Hle.
    cbn [rbind]. rewrite Hpos, Hle, Hr. reflexivity.
Qed.

Lemma evaporation_ramp_without_parameters_is_a_type_error_witness :
  Device375.init "rp"
    {| Device375.ip_addr := None;
       Device375.waveform := Some "evaporation_ramp"%string;
       Device375.cycle_duration := 1%Q;
       Device375.amplitude := 1%Q;
       Device375.offset := 1%Q;
       Device375.cycles_per_burst := Some 1%Z;
       Device375.time_const := None;
       Device375.ratio_trap_temp := Some 10%Q |}
  = inl (TypeError
           "'<' not supported between instances of 'float' and 'NoneType'").
Proof.
  apply (@evaporation_ramp_without_parameters_is_a_type_error "rp"
           {| Device375.ip_addr := None;
              Device375.waveform := Some "evaporation_ramp"%string;
              Device375.cycle_duration := 1%Q;
              Device375.amplitude := 1%Q;
              Device375.offset := 1%Q;
              Device375.cycles_per_burst := Some 1%Z;
              Device375.time_const := None;
              Device375.ratio_trap_temp := Some 10%Q |} 1%Z).
  - reflexivity.
  - discriminate.
  - split; discriminate.
  - split; discriminate.
  - reflexivity.
  - left. reflexivity.
Defined.

(* ===================================================================== *)
(** ** The Python 3.7.5 worker *)
(* ===================================================================== *)

Lemma bind_modify_run {S B} (f : S -> S) (k : unit -> prog S B) (s : S) :
  bind (modify f) k s = k tt (f s).
Proof. reflexivity. Qed.

Lemma bind_get_run {S B} (k : S -> prog S B) (s : S) : bind get k s = k s s.
Proof. reflexivity. Qed.


Lemma bind_assoc_run {S A B C} (c : prog S A) (k1 : A -> prog S B)
    (k2 : B -> prog S C) (s : S) :
  bind (bind c k1) k2 s = bind c (fun x => bind (k1 x) k2) s.
Proof. unfold bind. destruct (c s) as [s' [e|a]]; reflexivity. Qed.

(** One statement of a method of the worker, run on the current state. *)
Ltac worker_step :=
  first [rewrite bind_modify_run | rewrite bind_get_run
        | rewrite bind_assoc_run];
  cbv beta;
  cbn [Worker375.waveform Worker375.frequency Worker375.amplitude
       Worker375.offset Worker375.cycles_per_burst Worker375.time_const
       Worker375.ratio_trap_temp Worker375.shot_file Worker375.led
       Worker375.setups Worker375.data].

Section Worker375Facts.

Variable np_power : float64 -> float64 -> float64.
Variable float_str : num -> string.






Lemma update_asg_run (value : Worker375.pyv) (which_attr : string)
    (w : Worker375.worker) (wf fr am off : Worker375.pyv) :
  (if String.eqb which_attr "waveform" then
     (Worker375.PStr (Worker375.py_str float_str value), Worker375.frequency w,
      Worker375.amplitude w, inr (Worker375.offset w))
   else if String.eqb which_attr "amplitude" then
     (Worker375.waveform w, Worker375.frequency w, value,
      inr (Worker375.offset w))
   else if String.eqb which_attr "offset" then
     (Worker375.waveform w, Worker375.frequency w, Worker375.amplitude w,
      Worker375.minus_one value)
   else if String.eqb which_attr "frequency" then
     (Worker375.waveform w, value, Worker375.amplitude w,
      inr (Worker375.offset w))
   else
     (Worker375.waveform w, Worker375.frequency w, Worker375.amplitude w,
      inr (Worker375.offset w)))
  = (wf, fr, am, inr off) ->
  Worker375.update_asg float_str value which_attr w
  = ({| Worker375.waveform := wf; Worker375.frequency := fr;
        Worker375.amplitude := am; Worker375.offset := off;
        Worker375.cycles_per_burst := Worker375.cycles_per_burst w;
        Worker375.time_const := Worker375.time_const w;
        Worker375.ratio_trap_temp := Worker375.ratio_trap_temp w;
        Worker375.shot_file := Worker375.shot_file w;
        Worker375.led := 8;
        Worker375.setups :=
          Worker375.setups w
          ++ [{| Worker375.kw_waveform := Some wf;
                 Worker375.kw_frequency := Some fr;
                 Worker375.kw_amplitude := Some am;
                 Worker375.kw_offset := Some off;
                 Worker375.kw_trigger_source := None;
                 Worker375.kw_cycles_per_burst := None |}];
        Worker375.data := Worker375.data w |},
     inr tt).
Proof.
  unfold Worker375.update_asg, Worker375.set_led, Worker375.set_waveform,
    Worker375.set_frequency, Worker375.set_amplitude, Worker375.set_offset,
    Worker375.send_setup, bind, get, lift, modify, ret.
  destruct (String.eqb which_attr "waveform");
    [intros H; inversion H; reflexivity|].
  destruct (String.eqb which_attr "amplitude");
    [intros H; inversion H; reflexivity|].
  destruct (String.eqb which_attr "offset").
  { intros H. inversion H as [[H1 H2 H3 H4]]. rewrite H4. reflexivity. }
  destruct (String.eqb which_attr "frequency");
    intros H; inversion H; reflexivity.
Qed.

(** X21.  Every edit that [update_attributes] accepts reaches the
    generator: the request it queues, run by [update_asg] of the worker,
    raises nothing, changes the one attribute that was edited (the offset
    is stored shifted by -1), keeps the three others, and sends all four to
    the generator with one [setup] call. *)
Theorem front_panel_edit_reaches_generator
    (which_attr : string) (self : tab) (w : Worker375.worker) :
  In which_attr ["waveform"; "amplitude"; "offset"; "frequency"]%string ->
  exists value self' w',
    update_attributes which_attr self = (self', inr tt) /\
    work_requests self'
    = work_requests self ++ [update_request self value which_attr] /\
    Worker375.update_asg float_str (pyv_of_attr value) which_attr w
    = (w', inr tt) /\
    Worker375.setups w'
    = Worker375.setups w
      ++ [{| Worker375.kw_waveform := Some (Worker375.waveform w');
             Worker375.kw_frequency := Some (Worker375.frequency w');
             Worker375.kw_amplitude := Some (Worker375.amplitude w');
             Worker375.kw_offset := Some (Worker375.offset w');
             Worker375.kw_trigger_source := None;
             Worker375.kw_cycles_per_burst := None |}] /\
    (Worker375.waveform w', Worker375.amplitude w',
     Worker375.offset w', Worker375.frequency w')
    = (if String.eqb which_attr "waveform"
       then Worker375.PStr (waveform0_box self) else Worker375.waveform w,
       if String.eqb which_attr "amplitude"
       then Worker375.PNum
              (PyF (nearest_multiple amplitude_step (amplitude0_spinbox self)))
       else Worker375.amplitude w,
       if String.eqb which_attr "offset"
       then Worker375.PNum
              (PyF (nearest_multiple offset_step (offset0_spinbox self) - 1))
       else Worker375.offset w,
       if String.eqb which_attr "frequency"
       then Worker375.PNum
              (PyF (nearest_multiple frequency_step (frequency0_spinbox self)))
       else Worker375.frequency w).
Proof.
  intros Hin. cbn [In] in Hin.
  destruct Hin as [E | [E | [E | [E | []]]]]; subst which_attr.
  - do 3 eexists. split; [apply update_attributes_waveform|].
    split; [reflexivity|].
    split; [apply update_asg_run; reflexivity|].
    split; reflexivity.
  - do 3 eexists. split; [apply update_attributes_amplitude|].
    split; [reflexivity|].
    split; [apply update_asg_run; reflexivity|].
    split; reflexivity.
  - do 3 eexists. split; [apply update_attributes_offset|].
    split; [reflexivity|].
    split; [apply update_asg_run; reflexivity|].
    split; reflexivity.
  - do 3 eexists. split; [apply update_attributes_frequency|].
    split; [reflexivity|].
    split; [apply update_asg_run; reflexivity|].
    split; reflexivity.
Qed.

Lemma transition_to_manual_defaults (w : Worker375.worker) :
  Worker375.transition_to_manual w
  = ({| Worker375.waveform := Worker375.PStr "dc";
        Worker375.frequency := Worker375.PNum (PyF 0);
        Worker375.amplitude := Worker375.PNum (PyF 0);
        Worker375.offset := Worker375.PNum (PyF (-1));
        Worker375.cycles_per_burst := 0;
        Worker375.time_const := Worker375.time_const w;
        Worker375.ratio_trap_temp := Worker375.ratio_trap_temp w;
        Worker375.shot_file := None;
        Worker375.led := 2;
        Worker375.setups :=
          Worker375.setups w
          ++ [{| Worker375.kw_waveform := Some (Worker375.PStr "dc");
                 Worker375.kw_frequency := Some (Worker375.PNum (PyF 0));
                 Worker375.kw_amplitude := Some (Worker375.PNum (PyF 0));
                 Worker375.kw_offset := Some (Worker375.PNum (PyF (-1)));
                 Worker375.kw_trigger_source := Some "immediately"%string;
                 Worker375.kw_cycles_per_burst := Some 0%Z |}];
        Worker375.data := Worker375.data w |},
     inr (true, {| attr_waveform := "dc"; attr_frequency := 0;
                   attr_amplitude := 0; attr_offset := -1 |})).
Proof.
  unfold Worker375.transition_to_manual, Worker375.set_defaults,
    Worker375.setup_immediately, Worker375.set_led, Worker375.set_shot_file,
    Worker375.set_waveform, Worker375.set_frequency, Worker375.set_amplitude,
    Worker375.set_offset, Worker375.set_cycles_per_burst, Worker375.send_setup.
  repeat worker_step.
  reflexivity.
Qed.

(** X22.  The worker always reports success when it returns to manual
    mode, so with this worker the tab's [transition_to_manual] can fail
    only through a secondary worker: when all of those succeed, the worker
    is back at its defaults (one [setup] call, shot file forgotten), the
    tab raises nothing, ends in MODE_MANUAL, shows the waveform 'dc' and
    puts 'success' on the notification queue. *)
Theorem worker_reply_returns_tab_to_manual
    (w : Worker375.worker) (secondary_reply : string -> bool)
    (program : bool) (self : tab) :
  forallb secondary_reply (secondary_workers self) = true ->
  exists w' reply,
    Worker375.transition_to_manual w = (w', inr reply) /\
    Worker375.shot_file w' = None /\
    Worker375.setups w'
    = Worker375.setups w
      ++ [{| Worker375.kw_waveform := Some (Worker375.PStr "dc");
             Worker375.kw_frequency := Some (Worker375.PNum (PyF 0));
             Worker375.kw_amplitude := Some (Worker375.PNum (PyF 0));
             Worker375.kw_offset := Some (Worker375.PNum (PyF (-1)));
             Worker375.kw_trigger_source := Some "immediately"%string;
             Worker375.kw_cycles_per_burst := Some 0%Z |}] /\
    let run := transition_to_manual reply secondary_reply program self in
    snd run = inr tt /\
    tab_mode (fst run) = MODE_MANUAL /\
    waveform0_box (fst run) = "dc"%string /\
    notify_queue (fst run)
    = notify_queue self ++ [(device_name self, "success"%string)].
Proof.
  intros Hsec. do 2 eexists.
  split; [apply transition_to_manual_defaults|].
  cbn [Worker375.shot_file Worker375.setups].
  split; [reflexivity|]. split; [reflexivity|].
  cbv zeta.
  match goal with
  | |- context [transition_to_manual (?s, ?a) _ _ _] =>
      destruct (transition_to_manual_outcome s a secondary_reply program self)
        as (shown & Hd & _ & Hw & _ & _ & _ & Hn & Hrun)
  end.
  rewrite Hrun, Hsec. cbn [andb].
  destruct program; cbn; rewrite Hd, Hn; auto.
Qed.

End Worker375Facts.



Lemma front_panel_edit_reaches_generator_witness :
  exists value self' w',
    update_attributes "offset" front_panel = (self', inr tt) /\
    work_requests self'
    = work_requests front_panel ++ [update_request front_panel value "offset"] /\
    Worker375.update_asg (fun _ => "1.0"%string) (pyv_of_attr value) "offset"
                         Worker375.init
    = (w', inr tt) /\
    Worker375.setups w'
    = Worker375.setups Worker375.init
      ++ [{| Worker375.kw_waveform := Some (Worker375.waveform w');
             Worker375.kw_frequency := Some (Worker375.frequency w');
             Worker375.kw_amplitude := Some (Worker375.amplitude w');
             Worker375.kw_offset := Some (Worker375.offset w');
             Worker375.kw_trigger_source := None;
             Worker375.kw_cycles_per_burst := None |}] /\
    (Worker375.waveform w', Worker375.amplitude w',
     Worker375.offset w', Worker375.frequency w')
    = (Worker375.waveform Worker375.init,
       Worker375.amplitude Worker375.init,
       Worker375.PNum
         (PyF (nearest_multiple offset_step (offset0_spinbox front_panel) - 1)),
       Worker375.frequency Worker375.init).
Proof.
  apply (@front_panel_edit_reaches_generator (fun _ => "1.0"%string)
           "offset" front_panel Worker375.init).
  cbn [In]. auto.
Defined.

Lemma worker_reply_returns_tab_to_manual_witness :
  exists w' reply,
    Worker375.transition_to_manual Worker375.init = (w', inr reply) /\
    Worker375.shot_file w' = None /\
    Worker375.setups w'
    = Worker375.setups Worker375.init
      ++ [{| Worker375.kw_waveform := Some (Worker375.PStr "dc");
             Worker375.kw_frequency := Some (Worker375.PNum (PyF 0));
             Worker375.kw_amplitude := Some (Worker375.PNum (PyF 0));
             Worker375.kw_offset := Some (Worker375.PNum (PyF (-1)));
             Worker375.kw_trigger_source := Some "immediately"%string;
             Worker375.kw_cycles_per_burst := Some 0%Z |}] /\
    let run := transition_to_manual reply (fun _ => true) false front_panel in
    snd run = inr tt /\
    tab_mode (fst run) = MODE_MANUAL /\
    waveform0_box (fst run) = "dc"%string /\
    notify_queue (fst run)
    = notify_queue front_panel ++ [(device_name front_panel, "success"%string)].
Proof.
  apply (@worker_reply_returns_tab_to_manual Worker375.init (fun _ => true)
           false front_panel).
  reflexivity.
Defined.

(* ===================================================================== *)
(** ** A power ramp whose exponent cannot be computed *)
(* ===================================================================== *)

Lemma np_linspace_returns (start stop : float64) (n : Z) :
  (0 <= n)%Z -> exists l, np_linspace start stop n = inr l.
Proof.
  intros Hn. unfold np_linspace.
  replace (n <? 0)%Z with false by (symmetry; apply Z.ltb_ge; exact Hn).
  eexists. reflexivity.
Qed.

Section RatioFour.

Variable np_power : float64 -> float64 -> float64.
Variable np_sin : float64 -> float64.
Variable np_pi : Q.

(** X23.  No command method checks [ratio_trap_temp], and a power ramp
    with the ratio 4 cannot be compiled: when it is the first command of a
    timeline whose sample grid can be built, [generate_code] ends with
    [ZeroDivisionError] during synthesis (the division by
    [ratio_trap_temp - 4]), and stores nothing. *)
Theorem power_ramp_with_ratio_four_does_not_compile
    (self : device) (reached : list stage)
    (t d tc iv fv r : Q) (rest : list command) (a b : nat) :
  commands self = power_ramp_cmd t d tc iv fv r :: rest ->
  (r == 4)%Q ->
  sample_range self 0 = inr (a, b) ->
  a <= b ->
  generate_code np_power np_sin np_pi self reached
  = (reached ++ [Quantization; Synthesis], inl ZeroDivisionError).
Proof.
  intros Hcmds Hr Hrange Hab. unfold sample_range in Hrange.
  apply rbind_inr_inv in Hrange. destruct Hrange as (ds & Hds & Hrange).
  apply rbind_inr_inv in Hrange. destruct Hrange as (span & Hspan & Hrange).
  apply rbind_inr_inv in Hrange. destruct Hrange as (freq & Hfreq & Hrange).
  apply rbind_inr_inv in Hrange. destruct Hrange as (ts & Hts & Hrange).
  unfold generate_code.
  replace (is_empty (commands self)) with false by (now rewrite Hcmds).
  unfold bind, lift, enter, modify, ret.
  rewrite Hds, Hspan, Hfreq, Hts.
  assert (Hd : exists d_i, getitem ds 0 = inr d_i).
  { unfold command_range in Hrange.
    apply rbind_inr_inv in Hrange. destruct Hrange as (t_i & _ & Hrange).
    apply rbind_inr_inv in Hrange. destruct Hrange as (d_i & Hd & _).
    eauto. }
  destruct Hd as [d_i Hd].
  destruct (@np_linspace_returns (Fin 0) (Fin 1) (Z.of_nat b - Z.of_nat a))
    as [steps Hsteps]; [lia|].
  assert (Hz : Qeq_bool (r - 4) 0 = true)
    by (apply Qeq_bool_iff; rewrite Hr; reflexivity).
  set (times := times_of (commands self)) in *.
  rewrite Hcmds. cbn [synth_loop]. unfold synth_command.
  rewrite Hrange. cbn [rbind]. rewrite Hsteps. cbn [rbind].
  rewrite Hd. cbn [rbind].
  cbv beta iota delta [waveform]. cbn [num_div]. rewrite Hz. cbn [rbind].
  rewrite <- app_assoc. reflexivity.
Qed.

End RatioFour.

Lemma power_ramp_with_ratio_four_does_not_compile_witness :
  generate_code no_power no_sin pi_approx ratio_four_device []
  = ([] ++ [Quantization; Synthesis], inl ZeroDivisionError).
Proof.
  eapply (@power_ramp_with_ratio_four_does_not_compile no_power no_sin
            pi_approx ratio_four_device [] 0 (1 # 2) 1 1 (1 # 2) 4 []).
  - reflexivity.
  - reflexivity.
  - vm_compute. reflexivity.
  - apply Nat.leb_le. vm_compute. reflexivity.
Defined.
